(** * A circular genome for simulating transposable elements

    Shallow embedding of [src/genome.py]: the abstract class [Genome] and its
    two realizations, [ListGenome] (a Python list of nucleotides) and
    [LinkedListGenome] (a singly linked chain of [Node] objects), together
    with the properties of the contract that hold, or fail, on the code. *)

From Stdlib Require Import ZArith String Ascii Lia Sorted.
From stdpp Require Import base tactics option list.

Local Open Scope Z_scope.

(** ** Python outcomes and the state monad of a method call

    A method either returns, raises, or loops forever.  A Python exception
    leaves the object as mutated so far, so the state is threaded through
    every outcome. *)

Inductive exn : Set :=
  | IndexError
  | ValueError
  | KeyError
  | ZeroDivisionError
  | AttributeError
  | OverflowError
  | MemoryError
  | DanglingRef.  (* model only: a reference outside the store *)

Inductive outcome (A : Type) : Type :=
  | Ret (a : A)
  | Raise (e : exn)
  | Diverge.

Arguments Ret {A} a.
Arguments Raise {A} e.
Arguments Diverge {A}.

Definition M (S A : Type) : Type := S -> outcome A * S.

Definition ret {S A} (a : A) : M S A := fun s => (Ret a, s).

Definition raise {S A} (e : exn) : M S A := fun s => (Raise e, s).

Definition diverge {S A} : M S A := fun s => (Diverge, s).

Definition bind {S A B} (m : M S A) (k : A -> M S B) : M S B :=
  fun s =>
    match m s with
    | (Ret a, s') => k a s'
    | (Raise e, s') => (Raise e, s')
    | (Diverge, s') => (Diverge, s')
    end.

Definition get {S} : M S S := fun s => (Ret s, s).

Definition put {S} (s : S) : M S unit := fun _ => (Ret tt, s).

Notation "'do' x <- c ; k" := (bind c (fun x => k))
  (at level 10, x name, c at level 100, k at level 200,
   format "'[v' 'do'  x  <-  c ; '/' k ']'").
Notation "'do' ' p <- c ; k" := (bind c (fun x => let 'p := x in k))
  (at level 10, p pattern, c at level 100, k at level 200).

(** [for _ in range(k): body] *)
Fixpoint repeatM {S} (k : nat) (body : M S unit) : M S unit :=
  match k with
  | O => ret tt
  | S k' => do _ <- body; repeatM k' body
  end.

(** ** Python primitives *)

Module Py.

(** [a % b]: floor modulo, the sign follows the divisor; [b = 0] raises. *)
Definition mod_ {S} (a b : Z) : M S Z :=
  if b =? 0 then raise ZeroDivisionError else ret (a mod b).

(** [l[i]]: a negative index counts from the end; out of range is [None]
    (the caller raises [IndexError]). *)
Definition getitem {A} (l : list A) (i : Z) : option A :=
  let n := Z.of_nat (length l) in
  if (0 <=? i) && (i <? n) then l !! Z.to_nat i
  else if (- n <=? i) && (i <? 0) then l !! Z.to_nat (i + n)
  else None.

(** The bound of a slice [l[i:...]]: negative indices count from the end,
    and the result is clamped to [0 .. len l]. *)
Definition slice_index (n i : Z) : nat :=
  Z.to_nat (if i <? 0 then Z.max 0 (i + n) else Z.min i n).

(** [l[i:i] = xs] *)
Definition slice_insert {A} (l : list A) (i : Z) (xs : list A) : list A :=
  let k := slice_index (Z.of_nat (length l)) i in
  take k l ++ xs ++ drop k l.

(** [sys.maxsize] of a 64-bit CPython: the largest index-sized integer. *)
Definition maxsize : Z := 2 ^ 63 - 1.

(** The most elements CPython lets a list hold: [maxsize] over the size of a
    reference.  It refuses a longer list with [MemoryError] before it asks
    the allocator; what the allocator is asked for is taken as granted, for
    a list as for every other object. *)
Definition max_list : Z := maxsize / 8.

(** What stops [[x] * n]: an [n] that does not fit an index-sized integer
    raises [OverflowError], more than [max_list] elements raise
    [MemoryError]. *)
Definition repeat_error (n : Z) : option exn :=
  if (n <? - maxsize - 1) || (maxsize <? n) then Some OverflowError
  else if max_list <? n then Some MemoryError
  else None.

(** [[x] * n]: empty when [n <= 0]. *)
Definition repeat {S A} (x : A) (n : Z) : M S (list A) :=
  match repeat_error n with
  | Some e => raise e
  | None => ret (replicate (Z.to_nat n) x)
  end.

(** [range(a, b)] runs [max 0 (b - a)] times. *)
Definition range_len (a b : Z) : nat := Z.to_nat (b - a).

(** [l.index(x)] for a decidable match [p]: the first index, if any. *)
Fixpoint index {A} (p : A -> bool) (l : list A) : option Z :=
  match l with
  | [] => None
  | a :: l' => if p a then Some 0 else Z.succ <$> index p l'
  end.

(** A [dict] with integer keys.  Python dicts keep insertion order, and
    [keys()] lists them in that order. *)
Definition dict (V : Type) : Type := list (Z * V).

Fixpoint dict_get {V} (k : Z) (d : dict V) : option V :=
  match d with
  | [] => None
  | (k', v) :: d' => if k' =? k then Some v else dict_get k d'
  end.

(** [k in d] *)
Definition dict_mem {V} (k : Z) (d : dict V) : bool :=
  match dict_get k d with Some _ => true | None => false end.

(** [d[k] = v]: an existing key keeps its place, a new key goes last. *)
Fixpoint dict_set {V} (k : Z) (v : V) (d : dict V) : dict V :=
  match d with
  | [] => [(k, v)]
  | (k', v') :: d' =>
      if k' =? k then (k, v) :: d' else (k', v') :: dict_set k v d'
  end.

(** [del d[k]] (for [k] in [d]) *)
Definition dict_del {V} (k : Z) (d : dict V) : dict V :=
  List.filter (fun kv => negb (fst kv =? k)) d.

(** [list(d.keys())] *)
Definition dict_keys {V} (d : dict V) : list Z := map fst d.

End Py.

(** ** [class ListGenome] *)

Module ListGenome.

(** An element of [self.nucleotide]: the string ["-"] or the id of a TE. *)
Inductive nucl : Set :=
  | Dash
  | Te (id : Z).

Record t : Type := mk {
  nucleotide : list nucl;
  active_TE : Py.dict Z;
  te_id : Z
}.

(** The object before [__init__] has run. *)
Definition blank : t := {| nucleotide := []; active_TE := []; te_id := 0 |}.

(** [__init__]: the three assignments; the first one raises when the list
    of dashes cannot be made, and then nothing has been assigned. *)
Definition init (n : Z) : M t unit :=
  do dashes <- Py.repeat Dash n;
  put {| nucleotide := dashes; active_TE := []; te_id := 1 |}.

(** [a in self.active_TE] for an element [a] of the list; the string ["-"]
    is never a key. *)
Definition in_active (a : nucl) (d : Py.dict Z) : bool :=
  match a with
  | Dash => false
  | Te i => Py.dict_mem i d
  end.

Definition del_active (a : nucl) (d : Py.dict Z) : Py.dict Z :=
  match a with
  | Dash => d
  | Te i => Py.dict_del i d
  end.

(** [insert_te].  The index read raises [IndexError] before anything is
    written.  Then the TE at the position is dropped from the index, the
    counter advanced and the new id entered in the index; only then is the
    list of the new positions made, and where that raises, these writes
    stay. *)
Definition insert_te (pos length : Z) : M t Z :=
  do self <- get;
  match Py.getitem (nucleotide self) pos with
  | None => raise IndexError
  | Some a =>
      let active :=
        if in_active a (active_TE self)
        then del_active a (active_TE self)
        else active_TE self in
      let id := te_id self in
      do _ <- put {| nucleotide := nucleotide self;
                     active_TE := Py.dict_set id length active;
                     te_id := id + 1 |};
      do tes <- Py.repeat (Te id) length;
      do _ <- put {| nucleotide := Py.slice_insert (nucleotide self) pos tes;
                     active_TE := Py.dict_set id length active;
                     te_id := id + 1 |};
      ret id
  end.

Definition is_te (i : Z) (a : nucl) : bool :=
  match a with
  | Dash => false
  | Te j => j =? i
  end.

Definition copy_te (te offset : Z) : M t (option Z) :=
  do self <- get;
  if negb (Py.dict_mem te (active_TE self)) then ret None
  else
    match Py.index (is_te te) (nucleotide self) with
    | None => raise ValueError
    | Some pos =>
        match Py.dict_get te (active_TE self) with
        | None => raise KeyError
        | Some length =>
            do dst <- Py.mod_ (pos + offset)
                        (Z.of_nat (List.length (nucleotide self)));
            do id <- insert_te dst length;
            ret (Some id)
        end
    end.

Definition disable_te (te : Z) : M t unit :=
  fun self =>
    if Py.dict_mem te (active_TE self)
    then (Ret tt,
          {| nucleotide := nucleotide self;
             active_TE := Py.dict_del te (active_TE self);
             te_id := te_id self |})
    else (Ret tt, self).

Definition active_tes : M t (list Z) :=
  do self <- get; ret (Py.dict_keys (active_TE self)).

(** [__len__] *)
Definition len : M t Z :=
  do self <- get; ret (Z.of_nat (List.length (nucleotide self))).

Definition char_of (d : Py.dict Z) (a : nucl) : ascii :=
  match a with
  | Dash => "-"%char
  | Te i => if Py.dict_mem i d then "A"%char else "x"%char
  end.

(** [__str__] *)
Definition str : M t string :=
  do self <- get;
  ret (string_of_list_ascii (map (char_of (active_TE self)) (nucleotide self))).

End ListGenome.

(** ** [class Node] and [class LinkedListGenome] *)

Module LinkedListGenome.

(** A [Node] object.  [next] is a reference to another node, or [None]. *)
Record Node : Type := mkNode {
  te : Z;
  next : option nat;
  te_id : Z
}.

(** The genome object together with the store of the [Node] objects it has
    allocated; a reference is the index of a node in the store.  The values
    of [active_TE] are the lists [[node, length]]. *)
Record t : Type := mk {
  store : list Node;
  head : nat;
  length : Z;
  active_TE : Py.dict (nat * Z);
  next_TE_id : Z
}.

Definition with_store (f : list Node -> list Node) (self : t) : t :=
  mk (f (store self)) (head self) (length self) (active_TE self)
     (next_TE_id self).

Definition with_active_TE
    (f : Py.dict (nat * Z) -> Py.dict (nat * Z)) (self : t) : t :=
  mk (store self) (head self) (length self) (f (active_TE self))
     (next_TE_id self).

Definition modify (f : t -> t) : M t unit := fun self => (Ret tt, f self).

(** [Node(te)]: a fresh object, [next = None], [te_id = 0]. *)
Definition new_node (te : Z) : M t nat :=
  fun self =>
    (Ret (List.length (store self)),
     with_store (fun h => h ++ [mkNode te None 0]) self).

(** Attribute access through a variable that holds a node or [None]. *)
Definition deref (r : option nat) : M t (nat * Node) :=
  fun self =>
    match r with
    | None => (Raise AttributeError, self)
    | Some a =>
        match store self !! a with
        | Some nd => (Ret (a, nd), self)
        | None => (Raise DanglingRef, self)
        end
    end.

Definition get_next (r : option nat) : M t (option nat) :=
  do '(_, nd) <- deref r; ret (next nd).

Definition get_te (r : option nat) : M t Z :=
  do '(_, nd) <- deref r; ret (te nd).

Definition get_te_id (r : option nat) : M t Z :=
  do '(_, nd) <- deref r; ret (te_id nd).

Definition put_next (v : option nat) (nd : Node) : Node :=
  mkNode (te nd) v (te_id nd).

Definition put_te (v : Z) (nd : Node) : Node :=
  mkNode v (next nd) (te_id nd).

Definition put_te_id (v : Z) (nd : Node) : Node :=
  mkNode (te nd) (next nd) v.

Definition set_attr (r : option nat) (f : Node -> Node) : M t unit :=
  do '(a, _) <- deref r; modify (with_store (alter f a)).

(** [while current.next: current = current.next].  The fuel is the number of
    objects in the store: a chain that has not ended after that many steps
    has come back to a node, and the Python loop never ends. *)
Fixpoint to_tail (fuel : nat) (current : option nat) : M t (option nat) :=
  match fuel with
  | O => diverge
  | S fuel' =>
      do nx <- get_next current;
      match nx with
      | None => ret current
      | Some _ => to_tail fuel' nx
      end
  end.

Definition insert (te : Z) : M t unit :=
  do ins <- new_node te;
  do self <- get;
  do current <- to_tail (List.length (store self)) (Some (head self));
  set_attr current (put_next (Some ins)).

(** Inserts after the given node. *)
Definition insert_in (node : option nat) (te : Z) : M t (option nat) :=
  do ins <- new_node te;
  do nx <- get_next node;
  do _ <- set_attr (Some ins) (put_next nx);
  do _ <- set_attr node (put_next (Some ins));
  ret (Some ins).

(** The object before [__init__] has run. *)
Definition blank : t := mk [] 0 0 [] 0.

(** [__init__] *)
Definition init (n : Z) : M t unit :=
  do _ <- modify (with_active_TE (fun _ => []));
  do _ <- modify (fun self =>
            mk (store self) (head self) (length self) (active_TE self) 1);
  do hd <- new_node 0;
  do _ <- modify (fun self =>
            mk (store self) hd (length self) (active_TE self)
               (next_TE_id self));
  do _ <- repeatM (Py.range_len 0 n) (insert 0);
  modify (fun self =>
    mk (store self) (head self) n (active_TE self) (next_TE_id self)).

(** [for _ in range(k): currentNode = currentNode.next] *)
Fixpoint walk (k : nat) (currentNode : option nat) : M t (option nat) :=
  match k with
  | O => ret currentNode
  | S k' => do nx <- get_next currentNode; walk k' nx
  end.

(** The loop of [disable_te]. *)
Fixpoint retag (k : nat) (currentNode : option nat) : M t unit :=
  match k with
  | O => ret tt
  | S k' =>
      do _ <- set_attr currentNode (put_te 2);
      do nx <- get_next currentNode;
      retag k' nx
  end.

Definition disable_te (te : Z) : M t unit :=
  do self <- get;
  match Py.dict_get te (active_TE self) with
  | None => raise KeyError
  | Some (currentNode, length') =>
      do _ <- retag (Py.range_len 0 length') (Some currentNode);
      modify (with_active_TE (Py.dict_del te))
  end.

(** The loop that writes the new TE: [k] rounds are left, [i] is the loop
    variable. *)
Fixpoint write_te (k : nat) (i : Z) (currentNode : option nat)
    (TE_ID length' : Z) : M t unit :=
  match k with
  | O => ret tt
  | S k' =>
      do currentNode <- insert_in currentNode 1;
      do _ <- set_attr currentNode (put_te_id TE_ID);
      do _ <- (if i =? 0
               then
                 match currentNode with
                 | Some a =>
                     modify (with_active_TE (Py.dict_set TE_ID (a, length')))
                 | None => raise AttributeError
                 end
               else ret tt);
      write_te k' (i + 1) currentNode TE_ID length'
  end.

Definition bump (length' : Z) : M t unit :=
  do _ <- modify (fun self =>
            mk (store self) (head self) (length self) (active_TE self)
               (next_TE_id self + 1));
  modify (fun self =>
    mk (store self) (head self) (length self + length') (active_TE self)
       (next_TE_id self)).

Definition insert_te (position length' : Z) : M t Z :=
  do self <- get;
  let currentNode := Some (head self) in
  do position <- Py.mod_ position (length self);
  let TE_ID := next_TE_id self in
  do currentNode <- walk (Py.range_len 0 (position - 1)) currentNode;
  let insertionNode := currentNode in
  do currentNode <- get_next currentNode;
  do tag <- get_te currentNode;
  do _ <- (if tag =? 1
           then do i <- get_te_id currentNode; disable_te i
           else ret tt);
  let currentNode := insertionNode in
  do _ <- write_te (Py.range_len 0 length') 0 currentNode TE_ID length';
  do _ <- bump length';
  ret TE_ID.

(** The search loop of [copy_te]: [k] rounds are left. *)
Fixpoint find_te (k : nat) (te : Z) (currentNode : option nat) (pos : Z)
    : M t Z :=
  match k with
  | O => ret pos
  | S k' =>
      do i <- get_te_id currentNode;
      if i =? te then ret pos
      else do nx <- get_next currentNode; find_te k' te nx (pos + 1)
  end.

Definition copy_te (te offset : Z) : M t (option Z) :=
  do self <- get;
  if negb (Py.dict_mem te (active_TE self)) then ret None
  else
    do pos <- find_te (Py.range_len 0 (length self)) te (Some (head self)) 0;
    let TE_ID := next_TE_id self in
    do off <- Py.mod_ offset (length self);
    let pos := pos + off in
    let currentNode := Some (head self) in
    do currentNode <- walk (Py.range_len 0 (pos - 1)) currentNode;
    let insertionNode := currentNode in
    match Py.dict_get te (active_TE self) with
    | None => raise KeyError
    | Some (_, length') =>
        do currentNode <- get_next currentNode;
        do tag <- get_te currentNode;
        do _ <- (if tag =? 1
                 then do i <- get_te_id currentNode; disable_te i
                 else ret tt);
        let currentNode := insertionNode in
        do _ <- write_te (Py.range_len 0 length') 0 currentNode TE_ID length';
        do _ <- bump length';
        ret (Some TE_ID)
    end.

Definition active_tes : M t (list Z) :=
  do self <- get; ret (Py.dict_keys (active_TE self)).

(** The loop of [__len__]. *)
Fixpoint count (fuel : nat) (last : option nat) (i : Z) : M t Z :=
  match fuel with
  | O => diverge
  | S fuel' =>
      do nx <- get_next last;
      match nx with
      | None => ret i
      | Some _ => count fuel' nx (i + 1)
      end
  end.

(** [__len__] *)
Definition len : M t Z :=
  do self <- get;
  count (List.length (store self)) (Some (head self)) 0.

Definition char_of (tag : Z) : ascii :=
  if tag =? 1 then "A"%char else if tag =? 2 then "x"%char else "-"%char.

(** The loop of [__str__]. *)
Fixpoint render (fuel : nat) (last : option nat) (returnString : string)
    : M t string :=
  match fuel with
  | O => diverge
  | S fuel' =>
      do nx <- get_next last;
      match nx with
      | None => ret returnString
      | Some _ =>
          do tag <- get_te last;
          render fuel' nx
            (returnString ++ String (char_of tag) EmptyString)%string
      end
  end.

(** [__str__] *)
Definition str : M t string :=
  do self <- get;
  render (List.length (store self)) (Some (head self)) EmptyString.

End LinkedListGenome.

(** ** [class Genome]: the contract both classes implement *)

Class Genome (G : Type) : Type := {
  create : Z -> G;
  insert_te : Z -> Z -> M G Z;
  copy_te : Z -> Z -> M G (option Z);
  disable_te : Z -> M G unit;
  active_tes : M G (list Z);
  len : M G Z;
  str : M G string
}.

(** [create n] is the object that [__init__] has worked on.  Where
    [ListGenome(n)] raises, Python hands no object to the caller; [create n]
    is then the [blank] one, which has no position: [insert_te] raises on it
    and [copy_te] finds no TE to copy. *)
#[export] Instance ListGenome_Genome : Genome ListGenome.t := {|
  create := fun n => snd (ListGenome.init n ListGenome.blank);
  insert_te := ListGenome.insert_te;
  copy_te := ListGenome.copy_te;
  disable_te := ListGenome.disable_te;
  active_tes := ListGenome.active_tes;
  len := ListGenome.len;
  str := ListGenome.str
|}.

#[export] Instance LinkedListGenome_Genome : Genome LinkedListGenome.t := {|
  create := fun n => snd (LinkedListGenome.init n LinkedListGenome.blank);
  insert_te := LinkedListGenome.insert_te;
  copy_te := LinkedListGenome.copy_te;
  disable_te := LinkedListGenome.disable_te;
  active_tes := LinkedListGenome.active_tes;
  len := LinkedListGenome.len;
  str := LinkedListGenome.str
|}.

(** A call of one method of the contract, and what the caller observes. *)
Inductive op : Set :=
  | Insert_te (pos length : Z)
  | Copy_te (te offset : Z)
  | Disable_te (te : Z)
  | Active_tes
  | Len
  | Str.

Inductive value : Set :=
  | VId (id : Z)
  | VNone
  | VUnit
  | VList (ids : list Z)
  | VInt (n : Z)
  | VStr (s : string).

Definition call {G} `{Genome G} (o : op) : M G value :=
  match o with
  | Insert_te pos length => do id <- insert_te pos length; ret (VId id)
  | Copy_te te offset =>
      do r <- copy_te te offset;
      ret (match r with Some id => VId id | None => VNone end)
  | Disable_te te => do _ <- disable_te te; ret VUnit
  | Active_tes => do l <- active_tes; ret (VList l)
  | Len => do n <- len; ret (VInt n)
  | Str => do s <- str; ret (VStr s)
  end.

(** A caller that goes on after an exception: the outcomes of the calls in
    order, and the genome at the end. *)
Fixpoint run {G} `{Genome G} (ops : list op) (g : G)
    : list (outcome value) * G :=
  match ops with
  | [] => ([], g)
  | o :: ops' =>
      let (r, g') := call o g in
      let (rs, g'') := run ops' g' in
      (r :: rs, g'')
  end.

Definition observe {G} `{Genome G} (n : Z) (ops : list op)
    : list (outcome value) :=
  fst (run ops (create n)).

(** The two realizations, as one family of implementations. *)
Inductive realization : Set :=
  | Contiguous   (* ListGenome *)
  | Linked.      (* LinkedListGenome *)

Definition carrier (r : realization) : Type :=
  match r with
  | Contiguous => ListGenome.t
  | Linked => LinkedListGenome.t
  end.

#[export] Instance carrier_Genome (r : realization) : Genome (carrier r) :=
  match r with
  | Contiguous => ListGenome_Genome
  | Linked => LinkedListGenome_Genome
  end.

(** The ids that the successful [insert_te] and [copy_te] calls returned. *)
Fixpoint returned_ids (rs : list (outcome value)) : list Z :=
  match rs with
  | [] => []
  | Ret (VId id) :: rs' => id :: returned_ids rs'
  | _ :: rs' => returned_ids rs'
  end.

(** [x] is not in [active_tes()]. *)
Definition inactive {G} `{Genome G} (g : G) (x : Z) : Prop :=
  exists l, fst (active_tes g) = Ret l /\ x ∉ l.

(** What a caller can see of a genome without changing it. *)
Definition snapshot {G} `{Genome G} (g : G) : list (outcome value) :=
  fst (run [Len; Active_tes; Str] g).

(** [1, 2, ..., k] *)
Definition ids_upto (k : nat) : list Z := map Z.of_nat (seq 1 k).

(** A relation between the state before and the state after that a
    computation maintains, whatever its outcome. *)
Definition keeps {S A} (R : S -> S -> Prop) (m : M S A) : Prop :=
  forall s, R s (snd (m s)).

(** The id counter of a genome. *)
Definition counter {r : realization} : carrier r -> Z :=
  match r with
  | Contiguous => ListGenome.te_id
  | Linked => LinkedListGenome.next_TE_id
  end.

Definition same_counter {r : realization} (s s' : carrier r) : Prop :=
  counter s' = counter s.

(** The id a call hands out, if it hands out one. *)
Definition id_of (v : value) : option Z :=
  match v with
  | VId id => Some id
  | _ => None
  end.

(** A computation that hands out the id [c] and advances the counter when
    it does, and leaves the counter alone otherwise. *)
Definition issues {r : realization} {A} (idof : A -> option Z) (c : Z)
    (m : M (carrier r) A) : Prop :=
  forall s, counter s = c ->
    match m s with
    | (Ret a, s') =>
        (idof a = Some c /\ counter s' = c + 1)
        \/ (idof a = None /\ counter s' = c)
    | (_, s') => counter s' = c
    end.

(** A computation that never sets the counter back, and that hands out the
    value the counter has, and advances it by one, when it hands out an
    id. *)
Definition advances {r : realization} {A} (idof : A -> option Z)
    (m : M (carrier r) A) : Prop :=
  forall s,
    counter s <= counter (snd (m s))
    /\ forall a id,
         fst (m s) = Ret a -> idof a = Some id ->
         id = counter s /\ counter (snd (m s)) = counter s + 1.

(** ** The chain of a [LinkedListGenome] *)

(** [seg h r l r']: following [next] from the reference [r] in the store [h]
    visits the nodes [l] in this order and ends with the reference [r']. *)
Fixpoint seg (h : list LinkedListGenome.Node) (r : option nat)
    (l : list nat) (r' : option nat) : Prop :=
  match l with
  | [] => r = r'
  | a :: l' =>
      r = Some a
      /\ exists nd, h !! a = Some nd /\ seg h (LinkedListGenome.next nd) l' r'
  end.

(** The node at place [i] of the chain [l]. *)
Definition node_at (h : list LinkedListGenome.Node) (l : list nat) (i : nat)
    : option LinkedListGenome.Node :=
  l !! i ≫= fun a => h !! a.

(** The result of [k] steps along a chain [l] that ends with [None]: the
    reference reached, and [AttributeError] past the end. *)
Definition steps (l : list nat) (k : nat) : outcome (option nat) :=
  if decide (k <= length l)%nat then Ret (l !! k) else Raise AttributeError.

(** The store after the loop of [disable_te] has gone through the nodes
    [l]. *)
Definition retagged (l : list nat) (h : list LinkedListGenome.Node)
    : list LinkedListGenome.Node :=
  foldl (fun h a => alter (LinkedListGenome.put_te 2) a h) h l.

(** What a node says about its position: the tag and the owning TE. *)
Definition tag (nd : LinkedListGenome.Node) : Z * Z :=
  (LinkedListGenome.te nd, LinkedListGenome.te_id nd).

(** The store after [insert_in] has put a new node with tag [k] behind the
    node [x]. *)
Definition linked_in (x : nat) (k : Z) (h : list LinkedListGenome.Node)
    : list LinkedListGenome.Node :=
  match h !! x with
  | Some nd =>
      <[x := LinkedListGenome.put_next (Some (List.length h)) nd]>
        (h ++ [LinkedListGenome.mkNode k (LinkedListGenome.next nd) 0])
  | None => h
  end.

(** The tag and owner at place [i] of the chain [l]. *)
Definition tag_at (h : list LinkedListGenome.Node) (l : list nat) (i : nat)
    : option (Z * Z) :=
  tag <$> node_at h l i.

(** The active index and the tags of the chain agree (I2, I3): an active TE
    [t] with anchor [a] and length [len] owns the [len] places from the
    place of [a], all tagged active for [t], none of them the head or the
    last node; every place tagged active lies in the run of its TE; and a
    place that is not tagged active is either untagged, with owner 0, or
    tagged disabled, with an owner that was issued and is no longer in the
    index. *)
Definition owned (l : list nat) (T : nat -> option (Z * Z))
    (d : Py.dict (nat * Z)) (nx : Z) : Prop :=
  0 < nx
  /\ (forall t a len, Py.dict_get t d = Some (a, len) ->
       0 < t < nx /\ 0 < len
       /\ exists k, (1 <= k)%nat /\ (k + Z.to_nat len < List.length l)%nat
            /\ l !! k = Some a
            /\ forall j, (k <= j < k + Z.to_nat len)%nat -> T j = Some (1, t))
  /\ (forall i t, T i = Some (1, t) ->
       exists a len k, Py.dict_get t d = Some (a, len) /\ l !! k = Some a
         /\ (k <= i < k + Z.to_nat len)%nat)
  /\ (forall i tg t, T i = Some (tg, t) ->
       tg = 1 \/ (tg = 0 /\ t = 0)
       \/ (tg = 2 /\ 0 < t < nx /\ Py.dict_get t d = None)).

(** The invariant of a [LinkedListGenome] whose chain is [l]. *)
Definition linked_inv (s : LinkedListGenome.t) (l : list nat) : Prop :=
  seg (LinkedListGenome.store s) (Some (LinkedListGenome.head s)) l None
  /\ NoDup l
  /\ owned l (tag_at (LinkedListGenome.store s) l)
        (LinkedListGenome.active_TE s) (LinkedListGenome.next_TE_id s).

Definition linked_wf (s : LinkedListGenome.t) : Prop :=
  exists l, linked_inv s l.

(** The part that [insert_te] and [copy_te] share, from the collision check
    to the update of the counters: the new TE goes behind
    [insertionNode]. *)
Definition splice (insertionNode : option nat) (TE_ID length' : Z)
    : M LinkedListGenome.t unit :=
  do currentNode <- LinkedListGenome.get_next insertionNode;
  do tag <- LinkedListGenome.get_te currentNode;
  do _ <- (if tag =? 1
           then do i <- LinkedListGenome.get_te_id currentNode;
                LinkedListGenome.disable_te i
           else ret tt);
  do _ <- LinkedListGenome.write_te (Py.range_len 0 length') 0 insertionNode
            TE_ID length';
  LinkedListGenome.bump length'.

(** The active index after the collision check at a place with tags [o]. *)
Definition collided (o : option (Z * Z)) (d : Py.dict (nat * Z))
    : Py.dict (nat * Z) :=
  match o with
  | Some (tg, t) => if tg =? 1 then Py.dict_del t d else d
  | None => d
  end.

(** [s'], with chain [l'], is [s], with chain [l], after a new TE of length
    [length'] has been written in front of the place [p]. *)
Definition spliced (s : LinkedListGenome.t) (l : list nat) (p : nat)
    (length' : Z) (s' : LinkedListGenome.t) (l' : list nat) : Prop :=
  linked_inv s' l'
  /\ LinkedListGenome.head s' = LinkedListGenome.head s
  /\ LinkedListGenome.length s' = LinkedListGenome.length s + length'
  /\ LinkedListGenome.next_TE_id s' = LinkedListGenome.next_TE_id s + 1
  /\ List.length l' = (List.length l + Z.to_nat length')%nat
  /\ LinkedListGenome.active_TE s'
      = (let d := collided (tag_at (LinkedListGenome.store s) l p)
                    (LinkedListGenome.active_TE s) in
         if decide (Z.to_nat length' <> 0%nat)
         then Py.dict_set (LinkedListGenome.next_TE_id s)
                (List.length (LinkedListGenome.store s), length') d
         else d).

(** The invariant of a [LinkedListGenome] whose [length] field counts the
    nodes behind the head. *)
Definition linked_sync (s : LinkedListGenome.t) : Prop :=
  exists l, linked_inv s l
    /\ Z.of_nat (List.length l) = LinkedListGenome.length s + 1.

(** The calls the contract allows: a TE has a length of 0 or more. *)
Definition valid_op (o : op) : Prop :=
  match o with
  | Insert_te _ length => 0 <= length
  | _ => True
  end.

(** The tag of the node [a], for the rendering. *)
Definition te_at (h : list LinkedListGenome.Node) (a : nat) : Z :=
  match h !! a with
  | Some nd => LinkedListGenome.te nd
  | None => 0
  end.

(** The invariant of a [ListGenome]: the ids in the sequence and in the
    active index are below the counter. *)
Definition list_wf (g : ListGenome.t) : Prop :=
  (forall i, ListGenome.Te i ∈ ListGenome.nucleotide g -> i < ListGenome.te_id g)
  /\ (forall k, k ∈ Py.dict_keys (ListGenome.active_TE g) ->
        k < ListGenome.te_id g).

(** ** Positions *)

(** The three tags of a position of the data model. *)
Inductive position_tag : Set :=
  | Empty
  | ActiveTE
  | DisabledTE.

Definition tag_char (p : position_tag) : ascii :=
  match p with
  | Empty => "-"%char
  | ActiveTE => "A"%char
  | DisabledTE => "x"%char
  end.

(** The tag of an element of [ListGenome.nucleotide]: a TE is active when
    its id is in the active index. *)
Definition list_position (d : Py.dict Z) (a : ListGenome.nucl)
    : position_tag :=
  match a with
  | ListGenome.Dash => Empty
  | ListGenome.Te i => if Py.dict_mem i d then ActiveTE else DisabledTE
  end.

(** The owner of the node [a]; 0 is the owner of a node that no TE wrote. *)
Definition owner_at (h : list LinkedListGenome.Node) (a : nat) : Z :=
  match h !! a with
  | Some nd => LinkedListGenome.te_id nd
  | None => 0
  end.

(** The tag of a node of a [LinkedListGenome], from its owner: a TE is
    active when its id is in the active index. *)
Definition linked_position (d : Py.dict (nat * Z))
    (h : list LinkedListGenome.Node) (a : nat) : position_tag :=
  if owner_at h a =? 0 then Empty
  else if Py.dict_mem (owner_at h a) d then ActiveTE
  else DisabledTE.

(** The tags of the positions of a genome, from position 0 on.  In a
    [ListGenome] the positions are the elements of [nucleotide].  In a
    [LinkedListGenome] they are the nodes of the chain from the head, which
    stands at position 0, without the last node: [__len__] and [__str__]
    stop in front of it. *)
Definition positions {r : realization} : carrier r -> list position_tag -> Prop :=
  match r with
  | Contiguous => fun g ps =>
      ps = map (list_position (ListGenome.active_TE g))
             (ListGenome.nucleotide g)
  | Linked => fun g ps =>
      exists l z,
        seg (LinkedListGenome.store g) (Some (LinkedListGenome.head g))
          (l ++ [z]) None
        /\ ps = map (linked_position (LinkedListGenome.active_TE g)
                       (LinkedListGenome.store g)) l
  end.

(** [x] is in [active_tes()]. *)
Definition active {G} `{Genome G} (g : G) (x : Z) : Prop :=
  exists l, fst (active_tes g) = Ret l /\ x ∈ l.

(** The positions [insert_te] accepts without an exception of the list:
    the valid indices of [nucleotide], counted from either end.  The
    [LinkedListGenome] reduces every position modulo its length. *)
Definition valid_index {r : realization} : carrier r -> Z -> Prop :=
  match r with
  | Contiguous => fun g pos =>
      - Z.of_nat (List.length (ListGenome.nucleotide g)) <= pos
      < Z.of_nat (List.length (ListGenome.nucleotide g))
  | Linked => fun _ _ => True
  end.

(** The runs on which [insert_te(pos, 0)] is described: every run of a
    [ListGenome]; of a [LinkedListGenome], the runs on a genome made with
    one position or more whose insertions have a length of 0 or more, which
    keep its [length] field at 1 or more. *)
Definition zero_length_run (r : realization) (n : Z) (ops : list op) : Prop :=
  match r with
  | Contiguous => True
  | Linked => 1 <= n /\ Forall valid_op ops
  end.

(** What [insert_te(pos, 0)] leaves behind, from [g] to [g'], for the id
    [id] it returned: the two classes part here.  In a [ListGenome] the id
    is active and owns no position, the sequence is as it was, and so is
    the rendering, unless the position belongs to an active TE [t]: then
    [t] is active no more and its characters are ['x'].  In a
    [LinkedListGenome] the id is not active. *)
Definition zero_length_effect {r : realization}
    : carrier r -> carrier r -> Z -> Z -> Prop :=
  match r with
  | Contiguous => fun g g' pos id =>
      active g' id
      /\ ListGenome.nucleotide g' = ListGenome.nucleotide g
      /\ (ListGenome.Te id ∉ ListGenome.nucleotide g')
      /\ exists a,
           Py.getitem (ListGenome.nucleotide g) pos = Some a
           /\ if ListGenome.in_active a (ListGenome.active_TE g)
              then exists t,
                     a = ListGenome.Te t /\ active g t /\ inactive g' t
                     /\ fst (str g')
                        = Ret (string_of_list_ascii
                                 (map (fun b =>
                                         if ListGenome.is_te t b then "x"%char
                                         else ListGenome.char_of
                                                (ListGenome.active_TE g) b)
                                    (ListGenome.nucleotide g)))
              else fst (str g') = fst (str g)
  | Linked => fun g g' pos id => inactive g' id
  end.

(** ** The places of a TE in a [ListGenome] *)

(** The elements [Te t] of [l] are [k] neighbours: [l] is a list without
    [Te t], then [k] times [Te t], then a list without [Te t]. *)
Definition block (l : list ListGenome.nucl) (t : Z) (k : nat) : Prop :=
  exists l1 l2,
    l = l1 ++ replicate k (ListGenome.Te t) ++ l2
    /\ (ListGenome.Te t ∉ l1) /\ (ListGenome.Te t ∉ l2).

(** Every active TE of a [ListGenome] owns no position at all, or a block
    of the length on record for it, a length of which a list can be made.
    The first is left behind by an [insert_te] that raises at line 123. *)
Definition list_blocks (g : ListGenome.t) : Prop :=
  forall t len, Py.dict_get t (ListGenome.active_TE g) = Some len ->
    ListGenome.Te t ∉ ListGenome.nucleotide g
    \/ (Py.repeat_error len = None
        /\ block (ListGenome.nucleotide g) t (Z.to_nat len)).

(** ** A [LinkedListGenome] as a [ListGenome] *)







(** The head node of a [LinkedListGenome] belongs to no TE. *)
Definition head_free (s : LinkedListGenome.t) : Prop :=
  owner_at (LinkedListGenome.store s) (LinkedListGenome.head s) = 0.

(** From [s] to [s'] the head is the same node and the nodes of [s] have
    kept their owners. *)
Definition same_owners (s s' : LinkedListGenome.t) : Prop :=
  LinkedListGenome.head s' = LinkedListGenome.head s
  /\ forall b, (b < List.length (LinkedListGenome.store s))%nat ->
       owner_at (LinkedListGenome.store s') b
       = owner_at (LinkedListGenome.store s) b.

(** ** Where a call raises *)


(** The exceptions of [[x] * n], in the class that makes a list. *)
Definition at_repeat (r : realization) (e : exn) : bool :=
  match r, e with
  | Contiguous, OverflowError | Contiguous, MemoryError => true
  | _, _ => false
  end.

(** What [ListGenome.insert_te] leaves behind when it raises where the list
    of the new positions is made, from [g] to [g']: the id is used up and
    active, and the sequence is as it was. *)
Definition used_up {G} `{Genome G} (count : G -> Z) (g g' : G) : Prop :=
  count g' = count g + 1
  /\ active g' (count g)
  /\ fst (len g') = fst (len g).

(** * Properties *)

(** ** The dictionary *)

Section dict_facts.
Context {V : Type}.
Implicit Types (d : Py.dict V) (k : Z) (v : V).

Lemma dict_mem_get k d :
  Py.dict_mem k d = true <-> is_Some (Py.dict_get k d).
Proof.
  unfold Py.dict_mem. destruct (Py.dict_get k d); split;
    first [done | by eauto | by intros [? ?]].
Qed.

Lemma dict_get_keys k d :
  is_Some (Py.dict_get k d) <-> k ∈ Py.dict_keys d.
Proof.
  induction d as [|[k' v'] d IH]; simpl.
  - split; [by intros [? ?] | by intros ?%elem_of_nil].
  - destruct (Z.eqb_spec k' k) as [->|Hne].
    + split; [intros _; apply list_elem_of_here | by eauto].
    + rewrite IH. split; [apply list_elem_of_further |].
      intros [?|?]%elem_of_cons; [congruence | done].
Qed.

Lemma dict_mem_keys k d : Py.dict_mem k d = true <-> k ∈ Py.dict_keys d.
Proof. by rewrite dict_mem_get, dict_get_keys. Qed.

Lemma dict_mem_false k d : Py.dict_mem k d = false <-> k ∉ Py.dict_keys d.
Proof.
  rewrite <- dict_mem_keys. destruct (Py.dict_mem k d); split; congruence.
Qed.

Lemma dict_get_set k k' v d :
  Py.dict_get k' (Py.dict_set k v d)
  = if k =? k' then Some v else Py.dict_get k' d.
Proof.
  induction d as [|[k0 v0] d IH]; simpl.
  - done.
  - destruct (Z.eqb_spec k0 k) as [->|Hne]; simpl.
    + by destruct (Z.eqb_spec k k').
    + destruct (Z.eqb_spec k0 k') as [->|Hne'].
      * by destruct (Z.eqb_spec k k'); [congruence|].
      * done.
Qed.

Lemma dict_get_del k k' d :
  Py.dict_get k' (Py.dict_del k d)
  = if k =? k' then None else Py.dict_get k' d.
Proof.
  induction d as [|[k0 v0] d IH]; simpl.
  - by destruct (k =? k').
  - destruct (Z.eqb_spec k0 k) as [->|Hne]; simpl.
    + rewrite IH. destruct (Z.eqb_spec k k') as [->|?]; [done|].
      by destruct (Z.eqb_spec k k'); [congruence|].
    + rewrite IH. destruct (Z.eqb_spec k0 k') as [->|?]; [|done].
      by destruct (Z.eqb_spec k k'); [congruence|].
Qed.

Lemma dict_keys_del k d :
  Py.dict_keys (Py.dict_del k d)
  = List.filter (fun k' => negb (k' =? k)) (Py.dict_keys d).
Proof.
  induction d as [|[k0 v0] d IH]; simpl; [done|].
  destruct (k0 =? k); simpl; by rewrite IH.
Qed.

Lemma dict_del_absent k d : k ∉ Py.dict_keys d -> Py.dict_del k d = d.
Proof.
  induction d as [|[k0 v0] d IH]; simpl; [done|].
  intros Hk. apply not_elem_of_cons in Hk as [Hne Hk].
  destruct (Z.eqb_spec k0 k); [congruence|]. simpl. by rewrite IH.
Qed.

Lemma dict_keys_set_new k v d :
  k ∉ Py.dict_keys d -> Py.dict_keys (Py.dict_set k v d) = Py.dict_keys d ++ [k].
Proof.
  induction d as [|[k0 v0] d IH]; simpl; [done|].
  intros Hk. apply not_elem_of_cons in Hk as [Hne Hk].
  destruct (Z.eqb_spec k0 k); [congruence|]. simpl. by rewrite IH.
Qed.

Lemma dict_keys_set_elem k k' v d :
  k' ∈ Py.dict_keys (Py.dict_set k v d) <-> k' = k \/ k' ∈ Py.dict_keys d.
Proof.
  rewrite <- !dict_get_keys, dict_get_set.
  destruct (Z.eqb_spec k k') as [->|?]; [split; eauto|].
  split; [by eauto | by intros [?|?]; [congruence|]].
Qed.

Lemma dict_keys_del_elem k k' d :
  k' ∈ Py.dict_keys (Py.dict_del k d) <-> k' <> k /\ k' ∈ Py.dict_keys d.
Proof.
  rewrite <- !dict_get_keys, dict_get_del.
  destruct (Z.eqb_spec k k') as [->|?].
  - split; [by intros [? ?] | by intros [? ?]].
  - split; [by split; [congruence|] | by intros [? ?]].
Qed.
End dict_facts.

(** ** Relations that computations maintain *)

Section keeps_facts.
Context {S : Type} (R : S -> S -> Prop) `{!PreOrder R}.

Lemma keeps_ret {A} (a : A) : keeps R (ret a).
Proof. intros s. simpl. reflexivity. Qed.

Lemma keeps_raise {A} e : keeps R (raise (A := A) e).
Proof. intros s. simpl. reflexivity. Qed.

Lemma keeps_diverge {A} : keeps R (diverge (A := A)).
Proof. intros s. simpl. reflexivity. Qed.

Lemma keeps_get : keeps R get.
Proof. intros s. simpl. reflexivity. Qed.

Lemma keeps_mod a b : keeps R (Py.mod_ a b).
Proof. unfold Py.mod_. destruct (b =? 0); [apply keeps_raise | apply keeps_ret]. Qed.

Lemma keeps_bind {A B} (m : M S A) (k : A -> M S B) :
  keeps R m -> (forall a, keeps R (k a)) -> keeps R (bind m k).
Proof.
  intros Hm Hk s. unfold bind. specialize (Hm s).
  destruct (m s) as [[a|e|] s']; simpl in *; [|done..].
  etrans; [exact Hm | apply Hk].
Qed.

Lemma keeps_repeatM k (body : M S unit) :
  keeps R body -> keeps R (repeatM k body).
Proof.
  intros Hb. induction k as [|k IH]; simpl.
  - apply keeps_ret.
  - apply keeps_bind; [done | by intros _].
Qed.
End keeps_facts.

(** One step of a proof that a computation maintains a relation. *)
Ltac keeps_step :=
  match goal with
  | |- keeps ?R (ret _) => apply (keeps_ret R)
  | |- keeps ?R (raise _) => apply (keeps_raise R)
  | |- keeps ?R diverge => apply (keeps_diverge R)
  | |- keeps ?R get => apply (keeps_get R)
  | |- keeps ?R (Py.mod_ _ _) => apply (keeps_mod R)
  | |- keeps ?R (bind _ _) => apply (keeps_bind R); [|intros ?]
  | |- keeps ?R (repeatM _ _) => apply (keeps_repeatM R)
  | |- keeps _ (let (_, _) := ?x in _) => destruct x
  | |- keeps _ (if ?b then _ else _) => destruct b
  | |- keeps _ (match ?x with _ => _ end) => destruct x
  end.

Tactic Notation "keeps_by" tactic3(tac) := repeat first [tac | keeps_step].

(** ** The helpers of [LinkedListGenome] that only read *)

Section linked_reads.
Import LinkedListGenome.
Context (R : t -> t -> Prop) `{!PreOrder R}.

Lemma keeps_deref r : keeps R (deref r).
Proof.
  intros s. unfold deref. destruct r as [a|]; [|done].
  by destruct (store s !! a).
Qed.

Lemma keeps_get_next r : keeps R (get_next r).
Proof. unfold get_next. keeps_by (first [apply keeps_deref]). Qed.

Lemma keeps_get_te r : keeps R (get_te r).
Proof. unfold get_te. keeps_by (first [apply keeps_deref]). Qed.

Lemma keeps_get_te_id r : keeps R (get_te_id r).
Proof. unfold get_te_id. keeps_by (first [apply keeps_deref]). Qed.

Lemma keeps_to_tail fuel r : keeps R (to_tail fuel r).
Proof.
  revert r. induction fuel as [|fuel IH]; intros r; simpl.
  - keeps_step.
  - keeps_by (first [apply keeps_get_next | apply IH]).
Qed.

Lemma keeps_walk k r : keeps R (walk k r).
Proof.
  revert r. induction k as [|k IH]; intros r; simpl.
  - keeps_step.
  - keeps_by (first [apply keeps_get_next | apply IH]).
Qed.

Lemma keeps_find_te k te r pos : keeps R (find_te k te r pos).
Proof.
  revert r pos. induction k as [|k IH]; intros r pos; simpl.
  - keeps_step.
  - keeps_by (first [apply keeps_get_next | apply keeps_get_te_id | apply IH]).
Qed.

Lemma keeps_count fuel r i : keeps R (count fuel r i).
Proof.
  revert r i. induction fuel as [|fuel IH]; intros r i; simpl.
  - keeps_step.
  - keeps_by (first [apply keeps_get_next | apply IH]).
Qed.

Lemma keeps_render fuel r acc : keeps R (render fuel r acc).
Proof.
  revert r acc. induction fuel as [|fuel IH]; intros r acc; simpl.
  - keeps_step.
  - keeps_by (first [apply keeps_get_next | apply keeps_get_te | apply IH]).
Qed.

Lemma keeps_len : keeps R len.
Proof. unfold len. keeps_by (first [apply keeps_count]). Qed.

Lemma keeps_str : keeps R str.
Proof. unfold str. keeps_by (first [apply keeps_render]). Qed.

Lemma keeps_active_tes : keeps R active_tes.
Proof. unfold active_tes. keeps_by fail. Qed.
End linked_reads.

(** ** Fields of a [LinkedListGenome] that the helpers leave alone *)

Section linked_keeps.
Import LinkedListGenome.
Context (R : t -> t -> Prop) `{!PreOrder R}.
Hypothesis R_store : forall f s, R s (with_store f s).
Hypothesis R_active : forall f s, R s (with_active_TE f s).

Lemma keeps_new_node k : keeps R (new_node k).
Proof. intros s. apply R_store. Qed.

Lemma keeps_set_attr r f : keeps R (set_attr r f).
Proof.
  unfold set_attr. keeps_by (first [apply (keeps_deref R)]).
  intros s. apply R_store.
Qed.

Lemma keeps_insert k : keeps R (insert k).
Proof.
  unfold insert.
  keeps_by (first [apply keeps_new_node | apply (keeps_to_tail R) | apply keeps_set_attr]).
Qed.

Lemma keeps_insert_in r k : keeps R (insert_in r k).
Proof.
  unfold insert_in.
  keeps_by (first [apply keeps_new_node | apply (keeps_get_next R) | apply keeps_set_attr]).
Qed.

Lemma keeps_retag k r : keeps R (retag k r).
Proof.
  revert r. induction k as [|k IH]; intros r; simpl.
  - keeps_step.
  - keeps_by (first [apply (keeps_get_next R) | apply keeps_set_attr | apply IH]).
Qed.

Lemma keeps_disable_te te : keeps R (disable_te te).
Proof.
  unfold disable_te. keeps_step; [keeps_step|].
  destruct (Py.dict_get te (active_TE a)) as [[c l]|]; [|keeps_step].
  keeps_step; [apply keeps_retag|]. intros s. apply R_active.
Qed.

Lemma keeps_write_te k i r id l : keeps R (write_te k i r id l).
Proof.
  revert i r. induction k as [|k IH]; intros i r; simpl.
  - keeps_step.
  - keeps_step; [apply keeps_insert_in|].
    keeps_step; [apply keeps_set_attr|].
    keeps_step; [|apply IH].
    destruct (i =? 0); [|keeps_step].
    destruct a; [|keeps_step]. intros s. apply R_active.
Qed.

Lemma keeps_collide r :
  keeps R (do tag <- get_te r;
           if tag =? 1 then do i <- get_te_id r; disable_te i else ret tt).
Proof.
  keeps_step; [apply (keeps_get_te R)|].
  destruct (a =? 1); [|keeps_step].
  keeps_step; [apply (keeps_get_te_id R) | apply keeps_disable_te].
Qed.
End linked_keeps.

(** ** The id counter *)

#[export] Instance same_counter_preorder r : PreOrder (@same_counter r).
Proof.
  split; [by intros s | intros s1 s2 s3; unfold same_counter; congruence].
Qed.

#[export] Instance linked_same_counter_preorder :
  @PreOrder LinkedListGenome.t (@same_counter Linked) :=
  same_counter_preorder Linked.

#[export] Instance list_same_counter_preorder :
  @PreOrder ListGenome.t (@same_counter Contiguous) :=
  same_counter_preorder Contiguous.

Section issues_facts.
Context {r : realization}.

Lemma issues_bind {A B} (idof : B -> option Z) c
    (m : M (carrier r) A) (k : A -> M (carrier r) B) :
  keeps same_counter m -> (forall a, issues idof c (k a)) ->
  issues idof c (bind m k).
Proof.
  intros Hm Hk s Hs. unfold bind. specialize (Hm s). unfold same_counter in Hm.
  destruct (m s) as [[a|e|] s']; simpl in *; [|congruence..].
  apply Hk. congruence.
Qed.

Lemma issues_keeps {A} (idof : A -> option Z) c (m : M (carrier r) A) :
  keeps same_counter m -> (forall a, idof a = None) -> issues idof c m.
Proof.
  intros Hm Hnone s Hs. specialize (Hm s). unfold same_counter in Hm.
  destruct (m s) as [[a|e|] s']; simpl in *; [|congruence..].
  right. split; [done | congruence].
Qed.

Lemma issues_ret {A} (idof : A -> option Z) c (a : A) :
  idof a = None -> issues (r := r) idof c (ret a).
Proof. intros Ha s Hs. simpl. by right. Qed.

Lemma issues_raise {A} (idof : A -> option Z) c e :
  issues (r := r) idof c (raise e).
Proof. by intros s Hs. Qed.

Lemma issues_map {A B} (idof : B -> option Z) (f : A -> B) c
    (m : M (carrier r) A) :
  issues (fun a => idof (f a)) c m ->
  issues idof c (do a <- m; ret (f a)).
Proof.
  intros Hm s Hs. unfold bind. specialize (Hm s Hs).
  by destruct (m s) as [[a|e|] s'].
Qed.
End issues_facts.

Lemma list_disable_te_keeps (R : ListGenome.t -> ListGenome.t -> Prop)
    `{!PreOrder R} te :
  (forall s d, R s (ListGenome.mk (ListGenome.nucleotide s) d
                      (ListGenome.te_id s))) ->
  keeps R (ListGenome.disable_te te).
Proof.
  intros HR s. unfold ListGenome.disable_te.
  destruct (Py.dict_mem _ _); simpl; [apply HR | done].
Qed.

Section linked_counter.
Import LinkedListGenome.

Lemma linked_bump_issues {A} (idof : A -> option Z) c length' (a : A) :
  idof a = Some c ->
  issues (r := Linked) idof c (do _ <- bump length'; ret a).
Proof. intros Ha s Hs. simpl in *. left. split; [done | congruence]. Qed.

Local Abbreviation R := (@same_counter Linked).

Lemma linked_store_counter f s : R s (with_store f s).
Proof. done. Qed.

Lemma linked_active_counter f s : R s (with_active_TE f s).
Proof. done. Qed.

Lemma linked_insert_te_issues c position length' :
  issues (r := Linked) Some c (insert_te position length').
Proof.
  intros s Hs. unfold insert_te.
  match goal with
  | |- context [bind get ?k s] => change (bind get k s) with (k s s)
  end.
  cbv beta.
  match goal with
  | |- match ?m s with _ => _ end =>
      cut (issues (r := Linked) Some c m); [intros H; exact (H s Hs)|]
  end.
  apply (issues_bind (r := Linked)); [apply (keeps_mod R)|intros pos].
  apply (issues_bind (r := Linked)); [apply (keeps_walk R)|intros cur].
  apply (issues_bind (r := Linked)); [apply (keeps_get_next R)|intros nx].
  apply (issues_bind (r := Linked)); [apply (keeps_get_te R)|intros tag].
  apply (issues_bind (r := Linked)).
  { destruct (tag =? 1); [|apply (keeps_ret R)].
    apply (keeps_bind R); [apply (keeps_get_te_id R)|intros i].
    apply (keeps_disable_te R); [apply linked_store_counter
                                |apply linked_active_counter]. }
  intros _.
  apply (issues_bind (r := Linked)).
  { apply (keeps_write_te R); [apply linked_store_counter
                              |apply linked_active_counter]. }
  intros _. apply linked_bump_issues. simpl in Hs. by rewrite Hs.
Qed.

Lemma linked_copy_te_issues c te offset :
  issues (r := Linked) id c (copy_te te offset).
Proof.
  intros s Hs. unfold copy_te.
  match goal with
  | |- context [bind get ?k s] => change (bind get k s) with (k s s)
  end.
  cbv beta.
  match goal with
  | |- match ?m s with _ => _ end =>
      cut (issues (r := Linked) id c m); [intros H; exact (H s Hs)|]
  end.
  destruct (negb _); [by apply (issues_ret (r := Linked))|].
  apply (issues_bind (r := Linked)); [apply (keeps_find_te R)|intros pos].
  apply (issues_bind (r := Linked)); [apply (keeps_mod R)|intros off].
  apply (issues_bind (r := Linked)); [apply (keeps_walk R)|intros cur].
  destruct (Py.dict_get te (active_TE s)) as [[anchor len]|];
    [|apply (issues_raise (r := Linked))].
  apply (issues_bind (r := Linked)); [apply (keeps_get_next R)|intros nx].
  apply (issues_bind (r := Linked)); [apply (keeps_get_te R)|intros tag].
  apply (issues_bind (r := Linked)).
  { destruct (tag =? 1); [|apply (keeps_ret R)].
    apply (keeps_bind R); [apply (keeps_get_te_id R)|intros i].
    apply (keeps_disable_te R); [apply linked_store_counter
                                |apply linked_active_counter]. }
  intros _.
  apply (issues_bind (r := Linked)).
  { apply (keeps_write_te R); [apply linked_store_counter
                              |apply linked_active_counter]. }
  intros _. apply linked_bump_issues. simpl in Hs. by rewrite Hs.
Qed.

Lemma linked_disable_te_counter te : keeps R (disable_te te).
Proof.
  apply (keeps_disable_te R); [apply linked_store_counter
                              |apply linked_active_counter].
Qed.

Lemma linked_init_counter n : next_TE_id (snd (init n blank)) = 1.
Proof.
  unfold init, bind at 1 2 3 4. simpl.
  pose proof (keeps_repeatM R (Py.range_len 0 n) (insert 0)
    (keeps_insert R linked_store_counter 0)
    (mk [mkNode 0 None 0] 0 0 [] 1)) as H.
  unfold bind.
  destruct (repeatM _ _ _) as [[[]|e|] s']; simpl in *; exact H.
Qed.
End linked_counter.

(** Every call on a [LinkedListGenome] hands out the current value of the
    counter, or none, and the counter moves only with an id. *)
Lemma call_issues (o : op) (c : Z) :
  issues (r := Linked) id_of c (call o).
Proof.
  destruct o; unfold call; cbn [insert_te copy_te disable_te active_tes
    len str carrier_Genome LinkedListGenome_Genome].
  - apply (issues_map (r := Linked) id_of VId), linked_insert_te_issues.
  - apply (issues_map (r := Linked) id_of
             (fun r => match r with Some id => VId id | None => VNone end)).
    intros s Hs.
    pose proof (linked_copy_te_issues c te offset s Hs) as H.
    by destruct (LinkedListGenome.copy_te te offset s) as [[[a|]|e|] s'].
  - apply (issues_bind (r := Linked));
      [|by intros _; apply (issues_ret (r := Linked))].
    apply linked_disable_te_counter.
  - apply (issues_bind (r := Linked));
      [|by intros ?; apply (issues_ret (r := Linked))].
    apply (keeps_active_tes (@same_counter Linked)).
  - apply (issues_bind (r := Linked));
      [|by intros ?; apply (issues_ret (r := Linked))].
    apply (keeps_len (@same_counter Linked)).
  - apply (issues_bind (r := Linked));
      [|by intros ?; apply (issues_ret (r := Linked))].
    apply (keeps_str (@same_counter Linked)).
Qed.

Lemma create_counter n : counter (create (G := carrier Linked) n) = 1.
Proof. apply linked_init_counter. Qed.

Lemma ids_upto_S k : ids_upto (S k) = ids_upto k ++ [Z.of_nat (S k)].
Proof. unfold ids_upto. by rewrite seq_S, map_app. Qed.

(** A run of calls that hand out the current value of the counter, from a
    genome whose counter is [c], hands out [c, c+1, ...]. *)
Lemma issues_run r (ops : list op) (g : carrier r) :
  (forall o c, issues (r := r) id_of c (call o)) ->
  returned_ids (fst (run ops g))
  = map (fun i => counter g + Z.of_nat i)
        (seq 0 (length (returned_ids (fst (run ops g))))).
Proof.
  intros Hcall. revert g.
  induction ops as [|o ops IH]; intros g; simpl; [done|].
  pose proof (Hcall o (counter g) g eq_refl) as Ho.
  destruct (call o g) as [res g'] eqn:Hcall'.
  specialize (IH g'). destruct (run ops g') as [rs g''] eqn:Hrun. simpl in *.
  destruct res as [v|e|].
  - destruct Ho as [[Hv Hc]|[Hv Hc]].
    + destruct v; simpl in Hv; try done. injection Hv as ->. simpl.
      f_equal; [lia|]. rewrite IH at 1. rewrite <- seq_shift, map_map.
      apply map_ext. intros i. rewrite Hc. lia.
    + destruct v; simpl in Hv; try done; by rewrite <- Hc.
  - by rewrite <- Ho.
  - by rewrite <- Ho.
Qed.

(** A run from a [LinkedListGenome] whose counter is [c] hands out
    [c, c+1, ...]. *)
Lemma run_ids (ops : list op) (g : carrier Linked) :
  returned_ids (fst (run ops g))
  = map (fun i => counter g + Z.of_nat i)
        (seq 0 (length (returned_ids (fst (run ops g))))).
Proof. apply issues_run, call_issues. Qed.

Lemma ids_from_sorted c a k :
  StronglySorted Z.lt (map (fun i => c + Z.of_nat i) (seq a k)).
Proof.
  revert a. induction k as [|k IH]; intros a; simpl; constructor; [apply IH|].
  apply Forall_forall. intros z Hz.
  apply list_elem_of_In, in_map_iff in Hz as (i & <- & Hi).
  apply in_seq in Hi. lia.
Qed.

Lemma StronglySorted_lt_NoDup (l : list Z) : StronglySorted Z.lt l -> NoDup l.
Proof.
  induction 1 as [|z l Hl IH Hz]; constructor; [|done].
  intros Hin. rewrite Forall_forall in Hz. specialize (Hz z Hin). lia.
Qed.

(** ** The chain of a [LinkedListGenome]: lemmas *)

Section seg_facts.
Import LinkedListGenome.
Implicit Types (h : list Node) (l : list nat) (r : option nat).

Lemma seg_app h r l1 l2 r' :
  seg h r (l1 ++ l2) r' <-> exists m, seg h r l1 m /\ seg h m l2 r'.
Proof.
  revert r. induction l1 as [|a l1 IH]; intros r; simpl.
  - split; [by eauto | by intros (m & -> & ?)].
  - split.
    + intros (-> & nd & Hnd & Hseg). apply IH in Hseg as (m & ? & ?).
      exists m. split; [|done]. split; [done|]. by exists nd.
    + intros (m & (-> & nd & Hnd & Hseg) & Hm). split; [done|].
      exists nd. split; [done|]. apply IH. by exists m.
Qed.

Lemma seg_lookup h r l r' a : seg h r l r' -> a ∈ l -> is_Some (h !! a).
Proof.
  revert r. induction l as [|b l IH]; intros r; simpl.
  - by intros _ ?%elem_of_nil.
  - intros (-> & nd & Hnd & Hseg) [->|Hin]%elem_of_cons; [by eauto|].
    by eapply IH.
Qed.

Lemma seg_bound h r l r' a :
  seg h r l r' -> a ∈ l -> (a < List.length h)%nat.
Proof. intros Hs Hin. eapply lookup_lt_is_Some, seg_lookup; eauto. Qed.

(** Only the [next] fields of the nodes on the segment matter. *)
Lemma seg_ext h h' r l r' :
  (forall a, a ∈ l -> next <$> h' !! a = next <$> h !! a) ->
  seg h r l r' -> seg h' r l r'.
Proof.
  revert r. induction l as [|b l IH]; intros r Hext; simpl; [done|].
  intros (-> & nd & Hnd & Hseg). split; [done|].
  pose proof (Hext b (list_elem_of_here _ _)) as Hb. rewrite Hnd in Hb.
  destruct (h' !! b) as [nd'|] eqn:Hnd'; [|done]. simpl in Hb.
  injection Hb as Hb. exists nd'. split; [done|]. rewrite Hb.
  apply IH; [|done]. intros a Ha. apply Hext. by apply list_elem_of_further.
Qed.

(** A chain without repetition is no longer than the store. *)
Lemma seg_length_le h r l r' :
  seg h r l r' -> NoDup l -> (List.length l <= List.length h)%nat.
Proof.
  intros Hs Hnd. rewrite <- (length_seq (List.length h) 0).
  apply submseteq_length, NoDup_submseteq; [done|].
  intros a Ha. apply elem_of_seq. pose proof (seg_bound _ _ _ _ _ Hs Ha). lia.
Qed.

(** A segment is a function of its start and its length. *)
Lemma seg_inj h r l1 l2 r1 r2 :
  seg h r l1 r1 -> seg h r l2 r2 -> List.length l1 = List.length l2 ->
  l1 = l2 /\ r1 = r2.
Proof.
  revert r l2. induction l1 as [|a l1 IH]; intros r [|b l2]; simpl; try done.
  - by intros <- <-.
  - intros (-> & nd & Hnd & H1) (Hb & nd' & Hnd' & H2) [= Hlen].
    simplify_eq. by destruct (IH _ _ H1 H2 Hlen) as [-> ->].
Qed.

(** Reading along a chain. *)
Lemma seg_head h r l : seg h r l None -> r = l !! 0%nat.
Proof. destruct l as [|a l]; simpl; [done | by intros [-> _]]. Qed.

Lemma seg_next h r l i a nd :
  seg h r l None -> l !! i = Some a -> h !! a = Some nd ->
  next nd = l !! S i.
Proof.
  revert r i. induction l as [|b l IH]; intros r i; simpl; [done|].
  intros (_ & nd' & Hnd' & Hseg). destruct i as [|i]; simpl.
  - intros ? Hnd. simplify_eq. by apply seg_head in Hseg.
  - intros Hi Hnd. by apply (IH _ i Hseg).
Qed.

Lemma seg_node_at h r l r' i :
  seg h r l r' -> (i < List.length l)%nat -> is_Some (node_at h l i).
Proof.
  intros Hs Hi. unfold node_at.
  destruct (lookup_lt_is_Some_2 l i Hi) as [a Ha]. rewrite Ha. simpl.
  eapply seg_lookup; [done|]. by eapply list_elem_of_lookup_2.
Qed.

End seg_facts.

Lemma bind_assoc {S A B C} (m : M S A) (k : A -> M S B) (k' : B -> M S C) (st : S) :
  bind (bind m k) k' st = bind m (fun a => bind (k a) k') st.
Proof. unfold bind. by destruct (m st) as [[a|e|] s']. Qed.

Lemma bind_ext {S A B} (m : M S A) (k k' : A -> M S B) (st : S) :
  (forall a st', k a st' = k' a st') -> bind m k st = bind m k' st.
Proof. intros H. unfold bind. by destruct (m st) as [[a|e|] st']. Qed.

Section linked_steps.
Import LinkedListGenome.
Implicit Types (s : t) (h : list Node) (l : list nat) (r : option nat).

Lemma deref_Some s a nd :
  store s !! a = Some nd -> deref (Some a) s = (Ret (a, nd), s).
Proof. intros H. unfold deref. by rewrite H. Qed.

Lemma get_next_Some s a nd :
  store s !! a = Some nd -> get_next (Some a) s = (Ret (next nd), s).
Proof. intros H. unfold get_next, bind. by rewrite (deref_Some _ _ _ H). Qed.

Lemma get_te_Some s a nd :
  store s !! a = Some nd -> get_te (Some a) s = (Ret (te nd), s).
Proof. intros H. unfold get_te, bind. by rewrite (deref_Some _ _ _ H). Qed.

Lemma get_te_id_Some s a nd :
  store s !! a = Some nd -> get_te_id (Some a) s = (Ret (te_id nd), s).
Proof. intros H. unfold get_te_id, bind. by rewrite (deref_Some _ _ _ H). Qed.

Lemma set_attr_Some s a nd f :
  store s !! a = Some nd ->
  set_attr (Some a) f s = (Ret tt, with_store (alter f a) s).
Proof. intros H. unfold set_attr, bind. by rewrite (deref_Some _ _ _ H). Qed.

Lemma get_next_None s : get_next None s = (Raise AttributeError, s).
Proof. done. Qed.

Lemma get_te_None s : get_te None s = (Raise AttributeError, s).
Proof. done. Qed.

Lemma steps_cons a l k : steps (a :: l) (S k) = steps l k.
Proof.
  unfold steps. simpl.
  destruct (decide (S k <= S (List.length l))%nat),
    (decide (k <= List.length l)%nat); try done; lia.
Qed.

(** Walking along the chain. *)
Lemma walk_steps s r l k :
  seg (store s) r l None -> walk k r s = (steps l k, s).
Proof.
  revert r l. induction k as [|k IH]; intros r l Hseg; simpl.
  - unfold steps. rewrite decide_True by lia. by rewrite <- (seg_head _ _ _ Hseg).
  - destruct l as [|a l]; simpl in Hseg.
    + subst r. done.
    + destruct Hseg as (-> & nd & Hnd & Hseg). unfold bind.
      rewrite (get_next_Some _ _ _ Hnd), steps_cons. by apply IH.
Qed.

Lemma lookup_retagged l h a :
  retagged l h !! a
  = if decide (a ∈ l) then put_te 2 <$> h !! a else h !! a.
Proof.
  revert h. unfold retagged. induction l as [|b l IH]; intros h; cbn [foldl].
  - by destruct (decide (a ∈ [])) as [?%elem_of_nil|].
  - rewrite IH. destruct (decide (a = b)) as [->|Hne].
    + rewrite list_lookup_alter_eq.
      destruct (decide (b ∈ b :: l)) as [_|Hn];
        [|by destruct Hn; apply list_elem_of_here].
      destruct (decide (b ∈ l)); [|done]. by destruct (h !! b).
    + rewrite list_lookup_alter_ne by done.
      destruct (decide (a ∈ l)) as [Hin|Hin], (decide (a ∈ b :: l)) as [Hin'|Hin'];
        try done.
      * destruct Hin'. by apply list_elem_of_further.
      * by apply elem_of_cons in Hin' as [?|?].
Qed.

Lemma length_retagged l h : List.length (retagged l h) = List.length h.
Proof.
  revert h. unfold retagged. induction l as [|b l IH]; intros h; cbn [foldl];
    [done|].
  by rewrite IH, length_alter.
Qed.

Lemma retagged_next l h a :
  next <$> retagged l h !! a = next <$> h !! a.
Proof.
  rewrite lookup_retagged. destruct (decide (a ∈ l)); [|done].
  by destruct (h !! a).
Qed.

Lemma seg_retagged l' h r l r' : seg h r l r' -> seg (retagged l' h) r l r'.
Proof. apply seg_ext. intros a _. apply retagged_next. Qed.

Lemma with_store_with_store f g s :
  with_store f (with_store g s) = with_store (fun h => f (g h)) s.
Proof. done. Qed.

(** The loop of [disable_te] over [n] nodes of the chain from place [i]. *)
Lemma retag_chain s r l i n :
  seg (store s) r l None -> (i + n <= List.length l)%nat ->
  retag n (l !! i) s = (Ret tt, with_store (retagged (take n (drop i l))) s).
Proof.
  revert s i. induction n as [|n IH]; intros s i Hseg Hlen; simpl.
  - by destruct s.
  - destruct (lookup_lt_is_Some_2 l i) as [a Ha]; [lia|].
    destruct (seg_lookup _ _ _ _ a Hseg) as [nd Hnd];
      [by eapply list_elem_of_lookup_2|].
    rewrite Ha. unfold bind. rewrite (set_attr_Some _ _ _ _ Hnd).
    assert (store (with_store (alter (put_te 2) a) s) !! a
            = Some (put_te 2 nd)) as Hnd'.
    { simpl. by rewrite list_lookup_alter_eq, Hnd. }
    rewrite (get_next_Some _ _ _ Hnd'). simpl next.
    rewrite (seg_next _ _ _ _ _ _ Hseg Ha Hnd).
    rewrite (IH _ (S i)); [| |lia].
    + rewrite with_store_with_store. f_equal.
      rewrite (drop_S _ _ _ Ha). done.
    + simpl. eapply seg_ext; [|done]. intros b _.
      destruct (decide (b = a)) as [->|Hne].
      * rewrite list_lookup_alter_eq. by destruct (store s !! a).
      * by rewrite list_lookup_alter_ne.
Qed.

Lemma linked_in_alter x k h nd :
  h !! x = Some nd ->
  alter (put_next (Some (List.length h))) x
    (alter (put_next (next nd)) (List.length h) (h ++ [mkNode k None 0]))
  = linked_in x k h.
Proof.
  intros Hx. pose proof (lookup_lt_Some _ _ _ Hx) as Hlt.
  unfold linked_in. rewrite Hx. apply list_eq. intros i.
  destruct (decide (i = x)) as [->|Hix].
  - rewrite list_lookup_alter_eq, list_lookup_alter_ne by lia.
    rewrite list_lookup_insert_eq by (rewrite length_app; lia).
    by rewrite lookup_app_l, Hx.
  - rewrite list_lookup_alter_ne, list_lookup_insert_ne by done.
    destruct (decide (i = List.length h)) as [->|Hin].
    + rewrite list_lookup_alter_eq, !lookup_app_r by lia.
      by rewrite Nat.sub_diag.
    + rewrite list_lookup_alter_ne by done.
      destruct (decide (i < List.length h)%nat).
      * by rewrite !lookup_app_l.
      * rewrite !lookup_app_r by lia.
        by destruct (i - List.length h)%nat as [|[|?]] eqn:?; [lia|..].
Qed.

Lemma insert_in_Some s x nd k :
  store s !! x = Some nd ->
  insert_in (Some x) k s
  = (Ret (Some (List.length (store s))), with_store (linked_in x k) s).
Proof.
  intros Hx. pose proof (lookup_lt_Some _ _ _ Hx) as Hlt.
  unfold insert_in, bind, new_node.
  assert (store (with_store (fun h => h ++ [mkNode k None 0]) s) !! x = Some nd)
    as Hx1 by (simpl; by rewrite lookup_app_l).
  rewrite (get_next_Some _ _ _ Hx1).
  assert (store (with_store (fun h => h ++ [mkNode k None 0]) s)
            !! List.length (store s) = Some (mkNode k None 0)) as Hn1.
  { simpl. rewrite lookup_app_r by lia. by rewrite Nat.sub_diag. }
  rewrite (set_attr_Some _ _ _ _ Hn1), with_store_with_store.
  rewrite (set_attr_Some _ x nd).
  2:{ simpl. rewrite list_lookup_alter_ne by lia. by rewrite lookup_app_l. }
  rewrite with_store_with_store. unfold with_store. simpl.
  by rewrite (linked_in_alter _ _ _ _ Hx).
Qed.

Lemma lookup_linked_in x k h nd a :
  h !! x = Some nd ->
  linked_in x k h !! a
  = if decide (a = x) then Some (put_next (Some (List.length h)) nd)
    else if decide (a = List.length h) then Some (mkNode k (next nd) 0)
    else h !! a.
Proof.
  intros Hx. pose proof (lookup_lt_Some _ _ _ Hx) as Hlt.
  unfold linked_in. rewrite Hx.
  destruct (decide (a = x)) as [->|Hax].
  - by rewrite list_lookup_insert_eq by (rewrite length_app; lia).
  - rewrite list_lookup_insert_ne by done.
    destruct (decide (a = List.length h)) as [->|Han].
    + rewrite lookup_app_r by lia. by rewrite Nat.sub_diag.
    + destruct (decide (a < List.length h)%nat).
      * by rewrite lookup_app_l.
      * rewrite lookup_app_r, (lookup_ge_None_2 h) by lia.
        by destruct (a - List.length h)%nat as [|[|?]] eqn:?; [lia|..].
Qed.

Lemma length_linked_in x k h nd :
  h !! x = Some nd -> List.length (linked_in x k h) = S (List.length h).
Proof.
  intros Hx. unfold linked_in. rewrite Hx, length_insert, length_app. simpl. lia.
Qed.

(** [insert_in] splices the new node into the chain, right behind [x]. *)
Lemma seg_linked_in x k h nd r l1 l2 :
  h !! x = Some nd ->
  seg h r (l1 ++ x :: l2) None -> NoDup (l1 ++ x :: l2) ->
  seg (linked_in x k h) r (l1 ++ x :: List.length h :: l2) None.
Proof.
  intros Hx Hseg Hnd.
  assert (forall a, a ∈ l1 ++ x :: l2 -> a <> x ->
            linked_in x k h !! a = h !! a) as Hsame.
  { intros a Ha Hax. rewrite (lookup_linked_in _ _ _ _ _ Hx).
    rewrite decide_False by done.
    pose proof (seg_bound _ _ _ _ _ Hseg Ha). by rewrite decide_False by lia. }
  apply NoDup_app in Hnd as (Hnd1 & Hnd12 & Hnd2).
  apply NoDup_cons in Hnd2 as [Hx2 Hnd2].
  apply seg_app in Hseg as (m & Hseg1 & Hseg2).
  destruct Hseg2 as (-> & nd' & Hx' & Hseg2). simplify_eq.
  apply seg_app. exists (Some x). split.
  - eapply seg_ext; [|done]. intros a Ha. rewrite Hsame; [done| |].
    + apply elem_of_app. by left.
    + intros ->. eapply Hnd12; [done | apply list_elem_of_here].
  - split; [done|]. exists (put_next (Some (List.length h)) nd).
    split; [by rewrite (lookup_linked_in _ _ _ _ _ Hx), decide_True|].
    simpl. split; [done|]. exists (mkNode k (next nd) 0). split.
    + rewrite (lookup_linked_in _ _ _ _ _ Hx).
      pose proof (lookup_lt_Some _ _ _ Hx).
      rewrite decide_False by lia. by rewrite decide_True.
    + simpl. eapply seg_ext; [|done]. intros a Ha. rewrite Hsame; [done| |].
      * apply elem_of_app. right. by apply list_elem_of_further.
      * by intros ->.
Qed.

Lemma tag_put_next v nd : tag (put_next v nd) = tag nd.
Proof. done. Qed.

Lemma seg_alter_tag f h r l r' a :
  (forall nd, next (f nd) = next nd) ->
  seg h r l r' -> seg (alter f a h) r l r'.
Proof.
  intros Hf. apply seg_ext. intros b _.
  destruct (decide (b = a)) as [->|Hne].
  - rewrite list_lookup_alter_eq. destruct (h !! a); simpl; [|done].
    by rewrite Hf.
  - by rewrite list_lookup_alter_ne.
Qed.

(** The loop that writes a TE of [m] nodes behind the node [x] of the
    chain. *)
Lemma write_te_chain TE length' m :
  forall s i x l1 l2 r,
  0 <= i ->
  seg (store s) r (l1 ++ x :: l2) None -> NoDup (l1 ++ x :: l2) ->
  exists s',
    write_te m i (Some x) TE length' s = (Ret tt, s')
    /\ head s' = head s /\ length s' = length s
    /\ next_TE_id s' = next_TE_id s
    /\ active_TE s'
        = (if decide (i = 0 /\ m <> 0%nat)
           then Py.dict_set TE (List.length (store s), length') (active_TE s)
           else active_TE s)
    /\ List.length (store s') = (List.length (store s) + m)%nat
    /\ (forall a, (a < List.length (store s))%nat ->
          tag <$> store s' !! a = tag <$> store s !! a)
    /\ (forall j, (j < m)%nat ->
          tag <$> store s' !! (List.length (store s) + j)%nat = Some (1, TE))
    /\ seg (store s') r (l1 ++ x :: seq (List.length (store s)) m ++ l2) None.
Proof.
  induction m as [|m IH]; intros s i x l1 l2 r Hi Hseg Hnd.
  { exists s. simpl. rewrite decide_False by (intros [_ ?]; done).
    repeat split; try done; try lia. }
  assert (x ∈ l1 ++ x :: l2) as Hxin
    by (apply elem_of_app; right; apply list_elem_of_here).
  destruct (seg_lookup _ _ _ _ _ Hseg Hxin) as [nd Hx].
  pose proof (lookup_lt_Some _ _ _ Hx) as Hxlt.
  set (n := List.length (store s)) in *.
  set (s1 := with_store (linked_in x 1) s).
  set (s2 := with_store (alter (put_te_id TE) n) s1).
  set (s3 := if i =? 0
             then with_active_TE (Py.dict_set TE (n, length')) s2 else s2).
  assert (store s3 = alter (put_te_id TE) n (linked_in x 1 (store s))) as Hst3
    by (unfold s3; by destruct (i =? 0)).
  assert (store s1 !! n = Some (mkNode 1 (next nd) 0)) as Hn1.
  { simpl. rewrite (lookup_linked_in _ _ _ _ _ Hx).
    rewrite decide_False by lia. by rewrite decide_True. }
  assert (List.length (store s3) = S n) as Hlen3.
  { rewrite Hst3, length_alter. by apply (length_linked_in _ _ _ nd). }
  destruct (IH s3 (i + 1) n (l1 ++ [x]) l2 r) as
    (s' & Hrun & Hhd & Hlen & Hnext & Hact & Hsz & Hold & Hnew & Hseg');
    [lia| | |].
  { rewrite Hst3, <- app_assoc. simpl. apply seg_alter_tag; [done|].
    by apply (seg_linked_in _ _ _ nd). }
  { rewrite <- app_assoc. simpl. apply NoDup_app in Hnd as (H1 & H12 & H2).
    apply NoDup_cons in H2 as [Hx2 H2]. apply NoDup_app. split; [done|].
    split.
    - intros a Ha [->|[->|Ha2]%elem_of_cons]%elem_of_cons.
      + eapply H12; [done | apply list_elem_of_here].
      + assert (n ∈ l1 ++ x :: l2) as Hin by (apply elem_of_app; by left).
        pose proof (seg_bound _ _ _ _ _ Hseg Hin). lia.
      + eapply H12; [done | by apply list_elem_of_further].
    - apply NoDup_cons. split.
      + intros [->|Ha2]%elem_of_cons; [lia|].
        assert (x ∈ l2) by done. done.
      + apply NoDup_cons. split; [|done]. intros Hin2.
        assert (n ∈ l1 ++ x :: l2) as Hin
          by (apply elem_of_app; right; by apply list_elem_of_further).
        pose proof (seg_bound _ _ _ _ _ Hseg Hin). lia. }
  exists s'. split.
  { cbn [write_te]. unfold bind at 1.
    rewrite (insert_in_Some _ _ _ _ Hx). fold n s1.
    unfold bind at 1. rewrite (set_attr_Some _ _ _ _ Hn1). fold s2.
    unfold bind at 1.
    replace ((if i =? 0
              then modify (with_active_TE (Py.dict_set TE (n, length')))
              else ret tt) s2) with (Ret tt, s3)
      by (unfold s3; by destruct (i =? 0)).
    exact Hrun. }
  assert (head s3 = head s /\ length s3 = length s
          /\ next_TE_id s3 = next_TE_id s) as (Hhd3 & Hl3 & Hn3)
    by (unfold s3; by destruct (i =? 0)).
  split; [congruence|]. split; [congruence|]. split; [congruence|].
  split.
  { rewrite Hact, decide_False by lia.
    destruct (decide (i = 0 /\ S m <> 0%nat)) as [[-> _]|Hni].
    - done.
    - unfold s3. destruct (Z.eqb_spec i 0) as [->|?]; [|done].
      by destruct Hni. }
  split; [rewrite Hsz, Hlen3; lia|].
  assert (forall a, (a < n)%nat ->
            tag <$> store s3 !! a = tag <$> store s !! a) as Htag3.
  { intros a Ha. rewrite Hst3, list_lookup_alter_ne by lia.
    rewrite (lookup_linked_in _ _ _ _ _ Hx).
    destruct (decide (a = x)) as [->|?]; [by rewrite Hx|].
    by rewrite decide_False by lia. }
  split.
  { intros a Ha. rewrite Hold by lia. by apply Htag3. }
  split.
  { intros [|j] Hj.
    - rewrite Nat.add_0_r, Hold by lia.
      rewrite Hst3, list_lookup_alter_eq. simpl in Hn1. by rewrite Hn1.
    - specialize (Hnew j). rewrite Hlen3 in Hnew.
      replace (n + S j)%nat with (S n + j)%nat by lia. apply Hnew. lia. }
  rewrite Hlen3, <- app_assoc in Hseg'. exact Hseg'.
Qed.
End linked_steps.

Section owned_facts.
Implicit Types (l : list nat) (T : nat -> option (Z * Z))
  (d : Py.dict (nat * Z)).

Lemma owned_active l T d nx t a len :
  owned l T d nx -> Py.dict_get t d = Some (a, len) ->
  t < nx /\ 0 < len
  /\ exists k, (1 <= k)%nat /\ (k + Z.to_nat len < List.length l)%nat
       /\ l !! k = Some a
       /\ forall j, (k <= j < k + Z.to_nat len)%nat -> T j = Some (1, t).
Proof.
  intros (_ & Hact & _) Hget.
  destruct (Hact _ _ _ Hget) as ([_ ?] & ? & ?). done.
Qed.

Lemma owned_tagged l T d nx i t :
  owned l T d nx -> T i = Some (1, t) ->
  exists a len k, Py.dict_get t d = Some (a, len) /\ l !! k = Some a
    /\ (k <= i < k + Z.to_nat len)%nat.
Proof. intros (_ & _ & Htag & _). apply Htag. Qed.

(** Disabling the TE [t] retags its run and drops it from the index. *)
Lemma owned_disable l T T' d nx t a len k :
  NoDup l -> owned l T d nx ->
  Py.dict_get t d = Some (a, len) -> l !! k = Some a ->
  (forall j, (k <= j < k + Z.to_nat len)%nat -> T' j = Some (2, t)) ->
  (forall j, ~ (k <= j < k + Z.to_nat len)%nat -> T' j = T j) ->
  owned l T' (Py.dict_del t d) nx.
Proof.
  intros Hnd (Hnx & Hact & Htag & Hkind) Ht Hk Hin Hout.
  split; [done|]. split; [|split].
  - intros t' a' len' Hget. rewrite dict_get_del in Hget.
    destruct (Z.eqb_spec t t') as [->|Hne]; [done|].
    destruct (Hact _ _ _ Hget) as (Hlt & Hpos & k' & Hk1 & Hk2 & Hk' & Hrun).
    split; [done|]. split; [done|]. exists k'. repeat split; try done.
    intros j Hj. rewrite Hout; [by apply Hrun|].
    intros Hj'. destruct (Hact _ _ _ Ht) as (_ & _ & k0 & _ & _ & Hk0 & Hrun0).
    assert (k0 = k) as -> by (eapply NoDup_lookup; eauto).
    pose proof (Hrun j Hj) as E1. pose proof (Hrun0 j Hj') as E2. congruence.
  - intros i t' Hi.
    destruct (decide (k <= i < k + Z.to_nat len)%nat) as [Hr|Hr];
      [by rewrite (Hin i Hr) in Hi|].
    rewrite Hout in Hi by done.
    destruct (Htag _ _ Hi) as (a' & len' & k' & Hget & Hk' & Hrange).
    exists a', len', k'. rewrite dict_get_del.
    destruct (Z.eqb_spec t t') as [->|Hne]; [|done].
    rewrite Ht in Hget. simplify_eq.
    assert (k' = k) as -> by (eapply NoDup_lookup; eauto). done.
  - intros i tg t' Hi.
    destruct (decide (k <= i < k + Z.to_nat len)%nat) as [Hr|Hr].
    + rewrite (Hin i Hr) in Hi. simplify_eq. right. right.
      destruct (Hact _ _ _ Ht) as (? & _). rewrite dict_get_del.
      by rewrite Z.eqb_refl.
    + rewrite Hout in Hi by done.
      destruct (Hkind _ _ _ Hi) as [?|[?|(? & ? & Hnone)]];
        [by left | by right; left |].
      right. right. rewrite dict_get_del. by destruct (t =? t').
Qed.

(** Writing a new TE of [m] nodes in front of the place [p], a place that
    is not tagged active. *)
Lemma owned_splice l l' T T' d nx p m a0 len :
  NoDup l -> owned l T d nx ->
  (1 <= p < List.length l)%nat ->
  (forall u, T p <> Some (1, u)) ->
  m = Z.to_nat len ->
  List.length l' = (List.length l + m)%nat ->
  (forall j, (j < p)%nat -> l' !! j = l !! j /\ T' j = T j) ->
  (forall j, (p <= j < p + m)%nat -> T' j = Some (1, nx)) ->
  (m <> 0%nat -> l' !! p = Some a0) ->
  (forall j, (p + m <= j)%nat -> l' !! j = l !! (j - m)%nat /\ T' j = T (j - m)%nat) ->
  owned l' T' (if decide (m <> 0%nat) then Py.dict_set nx (a0, len) d else d)
    (nx + 1).
Proof.
  intros Hnd (Hnx & Hact & Htag & Hkind) Hp Hfree -> Hlen Hlow Hmid Hfirst
    Hhigh.
  set (m := Z.to_nat len) in *.
  assert (forall t a' len', Py.dict_get t d = Some (a', len') ->
            0 < t < nx /\ 0 < len'
            /\ exists k, (1 <= k)%nat /\ (k + Z.to_nat len' < List.length l')%nat
                 /\ l' !! k = Some a'
                 /\ (forall j, (k <= j < k + Z.to_nat len')%nat ->
                       T' j = Some (1, t))
                 /\ (forall i, (i < p)%nat -> T i = Some (1, t) ->
                       (k <= i < k + Z.to_nat len')%nat)
                 /\ (forall i, (p <= i)%nat -> T i = Some (1, t) ->
                       (k <= i + m < k + Z.to_nat len')%nat)) as Hold.
  { intros t a' len' Hget.
    destruct (Hact _ _ _ Hget) as (Hlt & Hpos & k & Hk1 & Hk2 & Hk & Hrun).
    split; [done|]. split; [done|].
    assert (forall i, T i = Some (1, t) -> (k <= i < k + Z.to_nat len')%nat)
      as Hin.
    { intros i Hi. destruct (Htag _ _ Hi) as (a2 & len2 & k2 & Hg2 & Hk2' & ?).
      rewrite Hget in Hg2. simplify_eq.
      by assert (k2 = k) as -> by (eapply NoDup_lookup; eauto). }
    destruct (decide (k + Z.to_nat len' <= p)%nat) as [Hbefore|Hafter].
    - exists k. split; [done|]. split; [lia|].
      split; [by rewrite (proj1 (Hlow k ltac:(lia)))|].
      split; [|split].
      + intros j Hj. rewrite (proj2 (Hlow j ltac:(lia))). by apply Hrun.
      + intros i _ Hi. by apply Hin.
      + intros i Hpi Hi. specialize (Hin i Hi). lia.
    - assert (p < k)%nat as Hpk.
      { destruct (decide (p < k)%nat); [done|].
        destruct (Hfree t). apply Hrun. lia. }
      exists (k + m)%nat. split; [lia|]. split; [lia|].
      split.
      { rewrite (proj1 (Hhigh (k + m)%nat ltac:(lia))).
        by replace (k + m - m)%nat with k by lia. }
      split; [|split].
      + intros j Hj. rewrite (proj2 (Hhigh j ltac:(lia))). apply Hrun. lia.
      + intros i Hip Hi. specialize (Hin i Hi). lia.
      + intros i _ Hi. specialize (Hin i Hi). lia. }
  assert (forall i, ~ (p <= i < p + m)%nat ->
            exists i0, T' i = T i0
              /\ ((i0 < p)%nat /\ i = i0 \/ (p <= i0)%nat /\ i = (i0 + m)%nat))
    as Hback.
  { intros i Hi. destruct (decide (i < p)%nat).
    - exists i. rewrite (proj2 (Hlow i ltac:(lia))). by eauto.
    - exists (i - m)%nat. rewrite (proj2 (Hhigh i ltac:(lia))).
      split; [done|]. right. lia. }
  split; [lia|]. split; [|split].
  - intros t a' len' Hget.
    assert (Py.dict_get t d = Some (a', len') \/
            (m <> 0%nat /\ t = nx /\ a' = a0 /\ len' = len)) as [Hd|Hnew].
    { destruct (decide (m <> 0%nat)); [|by left].
      rewrite dict_get_set in Hget.
      destruct (Z.eqb_spec nx t) as [->|?]; [|by left].
      right. by simplify_eq. }
    + destruct (Hold _ _ _ Hd) as (? & ? & k & ? & ? & ? & ? & _).
      split; [lia|]. split; [done|]. by exists k.
    + destruct Hnew as (Hm & -> & -> & ->). split; [lia|]. split; [lia|].
      exists p. split; [lia|]. split; [fold m; lia|].
      split; [by apply Hfirst|]. intros j Hj. by apply Hmid.
  - intros i t Hi.
    destruct (decide (p <= i < p + m)%nat) as [Hmidi|Hnmid].
    + rewrite (Hmid _ Hmidi) in Hi. simplify_eq.
      exists a0, len, p. rewrite decide_True by lia.
      rewrite dict_get_set, Z.eqb_refl. split; [done|].
      split; [apply Hfirst; lia | fold m; lia].
    + destruct (Hback i Hnmid) as (i0 & Hi0 & Hcase). rewrite Hi0 in Hi.
      destruct (Htag _ _ Hi) as (a' & len' & k0 & Hget & _ & _).
      destruct (Hold _ _ _ Hget) as (Hlt & _ & k & _ & _ & Hk & _ & Hb & Ha).
      exists a', len', k. split.
      { destruct (decide (m <> 0%nat)); [|done]. rewrite dict_get_set.
        by destruct (Z.eqb_spec nx t) as [->|?]; [lia|]. }
      split; [done|].
      destruct Hcase as [[? ->]|[? ->]]; [by apply Hb | by apply Ha].
  - intros i tg t Hi.
    destruct (decide (p <= i < p + m)%nat) as [Hmidi|Hnmid].
    + rewrite (Hmid _ Hmidi) in Hi. simplify_eq. by left.
    + destruct (Hback i Hnmid) as (i0 & Hi0 & _). rewrite Hi0 in Hi.
      destruct (Hkind _ _ _ Hi) as [?|[?|(? & ? & Hnone)]];
        [by left | by right; left |].
      right. right. split; [done|]. split; [lia|].
      destruct (decide (m <> 0%nat)); [|done]. rewrite dict_get_set.
      by destruct (Z.eqb_spec nx t) as [->|?]; [lia|].
Qed.
End owned_facts.

Section linked_inv_facts.
Import LinkedListGenome.
Implicit Types (s : t) (h : list Node) (l : list nat) (r : option nat).

Lemma elem_of_run l k n j b :
  NoDup l -> l !! j = Some b ->
  b ∈ take n (drop k l) <-> (k <= j < k + n)%nat.
Proof.
  intros Hnd Hj. split.
  - intros (i & Hi)%list_elem_of_lookup_1.
    apply lookup_take_Some in Hi as [Hi Hin]. rewrite lookup_drop in Hi.
    assert (j = (k + i)%nat) as -> by (eapply NoDup_lookup; eauto). lia.
  - intros Hr. apply list_elem_of_lookup. exists (j - k)%nat.
    rewrite lookup_take_lt by lia. rewrite lookup_drop.
    by replace (k + (j - k))%nat with j by lia.
Qed.

Lemma tag_at_retagged h l k n j :
  NoDup l ->
  tag_at (retagged (take n (drop k l)) h) l j
  = if decide (k <= j < k + n)%nat
    then (fun tu => (2, snd tu)) <$> tag_at h l j
    else tag_at h l j.
Proof.
  intros Hnd. unfold tag_at, node_at.
  destruct (l !! j) as [b|] eqn:Hj; simpl; [|by destruct (decide _)].
  rewrite lookup_retagged.
  destruct (decide (b ∈ take n (drop k l))) as [Hin|Hin].
  - rewrite decide_True by (by eapply elem_of_run).
    by destruct (h !! b).
  - rewrite decide_False; [done|]. intros Hr. apply Hin.
    by eapply elem_of_run.
Qed.

(** [disable_te] on an active TE. *)
Lemma disable_te_active s l t a len :
  linked_inv s l -> Py.dict_get t (active_TE s) = Some (a, len) ->
  exists k,
    l !! k = Some a
    /\ disable_te t s
        = (Ret tt,
           mk (retagged (take (Z.to_nat len) (drop k l)) (store s)) (head s)
              (length s) (Py.dict_del t (active_TE s)) (next_TE_id s))
    /\ linked_inv
         (mk (retagged (take (Z.to_nat len) (drop k l)) (store s)) (head s)
             (length s) (Py.dict_del t (active_TE s)) (next_TE_id s)) l.
Proof.
  intros (Hseg & Hnd & Hown) Hget.
  destruct (owned_active _ _ _ _ _ _ _ Hown Hget) as
    (Hlt & Hpos & k & Hk1 & Hk2 & Hk & Hrun).
  exists k. split; [done|]. split.
  - unfold disable_te, bind, get. rewrite Hget. rewrite <- Hk.
    unfold Py.range_len. rewrite Z.sub_0_r.
    rewrite (retag_chain _ _ _ _ _ Hseg) by lia. done.
  - split; [by apply seg_retagged|]. split; [done|]. simpl.
    eapply owned_disable; try done.
    + intros j Hj. rewrite tag_at_retagged, decide_True by done.
      by rewrite (Hrun j Hj).
    + intros j Hj. by rewrite tag_at_retagged, decide_False.
Qed.

Lemma lookup_spliced {A} (l news : list A) p j :
  (p <= List.length l)%nat ->
  (take p l ++ news ++ drop p l) !! j
  = if decide (j < p)%nat then l !! j
    else if decide (j < p + List.length news)%nat then news !! (j - p)%nat
    else l !! (j - List.length news)%nat.
Proof.
  intros Hp. destruct (decide (j < p)%nat).
  - rewrite lookup_app_l by (rewrite length_take; lia).
    by rewrite lookup_take_lt.
  - rewrite lookup_app_r by (rewrite length_take; lia).
    rewrite length_take, Nat.min_l by done.
    destruct (decide (j < p + List.length news)%nat).
    + by rewrite lookup_app_l by lia.
    + rewrite lookup_app_r by lia. rewrite lookup_drop. f_equal. lia.
Qed.

Lemma NoDup_spliced l p n0 m :
  NoDup l -> (forall a, a ∈ l -> (a < n0)%nat) ->
  NoDup (take p l ++ seq n0 m ++ drop p l).
Proof.
  intros Hnd Hlt. rewrite <- (take_drop p l) in Hnd.
  apply NoDup_app in Hnd as (H1 & H12 & H2).
  assert (forall a, a ∈ take p l -> a ∈ l) as Ht
    by (intros a Ha; rewrite <- (take_drop p l); apply elem_of_app; by left).
  assert (forall a, a ∈ drop p l -> a ∈ l) as Hd
    by (intros a Ha; rewrite <- (take_drop p l); apply elem_of_app; by right).
  apply NoDup_app. split; [done|]. split.
  - intros a Ha [Hs|Hb]%elem_of_app; [|by eapply H12].
    apply elem_of_seq in Hs. specialize (Hlt a (Ht a Ha)). lia.
  - apply NoDup_app. split; [apply NoDup_seq|]. split; [|done].
    intros a Hs Hb. apply elem_of_seq in Hs. specialize (Hlt a (Hd a Hb)). lia.
Qed.

(** The collision check at the place [p] of the chain. *)
Lemma collide_inv s l p y :
  linked_inv s l -> l !! p = Some y ->
  exists s_d,
    (do tag <- get_te (Some y);
     if tag =? 1 then do i <- get_te_id (Some y); disable_te i else ret tt) s
    = (Ret tt, s_d)
    /\ linked_inv s_d l
    /\ (forall u, tag_at (store s_d) l p <> Some (1, u))
    /\ head s_d = head s /\ length s_d = length s
    /\ next_TE_id s_d = next_TE_id s
    /\ List.length (store s_d) = List.length (store s)
    /\ active_TE s_d = collided (tag_at (store s) l p) (active_TE s).
Proof.
  intros Hinv Hp. pose proof Hinv as (Hseg & Hnd & Hown).
  destruct (seg_lookup _ _ _ _ y Hseg) as [ndy Hy];
    [by eapply list_elem_of_lookup_2|].
  assert (tag_at (store s) l p = Some (te ndy, te_id ndy)) as Htag
    by (unfold tag_at, node_at; rewrite Hp; simpl; by rewrite Hy).
  unfold bind at 1. rewrite (get_te_Some _ _ _ Hy).
  destruct (Z.eqb_spec (te ndy) 1) as [H1|H1].
  - unfold bind. rewrite (get_te_id_Some _ _ _ Hy).
    rewrite H1 in Htag.
    destruct (owned_tagged _ _ _ _ _ _ Hown Htag) as
      (a & len & k & Hget & Hk & Hr).
    destruct (disable_te_active _ _ _ _ _ Hinv Hget) as (k' & Hk' & Hrun & Hinv').
    assert (k' = k) as -> by (eapply NoDup_lookup; eauto).
    eexists. split; [exact Hrun|]. split; [exact Hinv'|]. simpl.
    split.
    { intros u. rewrite tag_at_retagged, decide_True by done.
      by rewrite Htag. }
    rewrite length_retagged, Htag. simpl. done.
  - exists s. split; [done|]. split; [done|]. split.
    { intros u. rewrite Htag. congruence. }
    rewrite Htag. simpl. by destruct (Z.eqb_spec (te ndy) 1).
Qed.

(** The shared part of [insert_te] and [copy_te], behind the place [i] of the
    chain. *)
Lemma splice_inv s l i x length' :
  linked_inv s l -> l !! i = Some x ->
  match l !! S i with
  | None =>
      splice (Some x) (next_TE_id s) length' s = (Raise AttributeError, s)
  | Some y =>
      exists s' l',
        splice (Some x) (next_TE_id s) length' s = (Ret tt, s')
        /\ spliced s l (S i) length' s' l'
  end.
Proof.
  intros Hinv Hi. pose proof Hinv as (Hseg & Hnd & Hown).
  destruct (seg_lookup _ _ _ _ x Hseg) as [ndx Hx];
    [by eapply list_elem_of_lookup_2|].
  pose proof (seg_next _ _ _ _ _ _ Hseg Hi Hx) as Hnext.
  destruct (l !! S i) as [y|] eqn:Hy.
  2:{ unfold splice, bind. by rewrite (get_next_Some _ _ _ Hx), Hnext. }
  destruct (collide_inv _ _ _ _ Hinv Hy) as
    (s_d & Hrun_d & Hinv_d & Hfree & Hhd_d & Hlen_d & Hnx_d & Hsz_d & Hact_d).
  destruct Hinv_d as (Hseg_d & _ & Hown_d).
  set (m := Z.to_nat length').
  rewrite <- (take_drop_middle _ _ _ Hi) in Hseg_d, Hnd.
  destruct (write_te_chain (next_TE_id s) length' m s_d 0 x (take i l)
              (drop (S i) l) (Some (head s_d)))
    as (s_w & Hrun_w & Hhd_w & Hlen_w & Hnx_w & Hact_w & Hsz_w & Hold & Hnew
        & Hseg_w); [lia|done|done|].
  rewrite (take_drop_middle _ _ _ Hi) in Hnd.
  set (l' := take (S i) l ++ seq (List.length (store s)) m ++ drop (S i) l).
  assert (take i l ++ x :: seq (List.length (store s_d)) m ++ drop (S i) l = l')
    as Hl'.
  { unfold l'. rewrite (take_S_r _ _ _ Hi), <- app_assoc, Hsz_d. done. }
  rewrite Hl' in Hseg_w.
  pose proof (lookup_lt_Some _ _ _ Hy) as Hylt.
  exists (mk (store s_w) (head s_w) (length s_w + length') (active_TE s_w)
            (next_TE_id s_w + 1)), l'.
  split.
  { unfold splice. unfold bind at 1. rewrite (get_next_Some _ _ _ Hx), Hnext.
    rewrite <- (bind_assoc (get_te (Some y))
      (fun tag => if tag =? 1
                  then do i <- get_te_id (Some y); disable_te i
                  else ret tt)
      (fun _ => do _ <- write_te (Py.range_len 0 length') 0 (Some x)
                          (next_TE_id s) length';
                bump length') s).
    unfold bind at 1. rewrite Hrun_d. unfold bind at 1.
    unfold Py.range_len. rewrite Z.sub_0_r. fold m. rewrite Hrun_w. done. }
  split.
  { split; [simpl; by rewrite Hhd_w|]. split.
    { unfold l'. apply NoDup_spliced; [done|]. intros a Ha.
      eapply seg_bound; [apply Hseg | done]. }
    simpl. rewrite Hact_w, Hnx_w, Hnx_d.
    replace (if decide (0 = 0 /\ m <> 0%nat)
             then Py.dict_set (next_TE_id s) (List.length (store s_d), length')
                    (active_TE s_d)
             else active_TE s_d)
      with (if decide (m <> 0%nat)
            then Py.dict_set (next_TE_id s) (List.length (store s), length')
                   (active_TE s_d)
            else active_TE s_d).
    2:{ rewrite Hsz_d. destruct (decide (m <> 0%nat)).
        - by rewrite decide_True.
        - rewrite decide_False; [done | by intros [_ ?]]. }
    rewrite <- Hnx_d.
    assert (forall j b, l !! j = Some b ->
              tag <$> store s_w !! b = tag <$> store s_d !! b) as Hsame.
    { intros j b Hb. apply Hold. rewrite Hsz_d.
      eapply seg_bound; [apply Hseg | by eapply list_elem_of_lookup_2]. }
    eapply (owned_splice l l' (tag_at (store s_d) l) _ _ _ (S i) m);
      try done.
    - lia.
    - unfold l'. rewrite !length_app, length_take, length_drop, length_seq. lia.
    - intros j Hj. unfold tag_at, node_at, l'.
      rewrite lookup_spliced, decide_True by lia. split; [done|].
      destruct (l !! j) as [b|] eqn:Hb; simpl; [|done]. by eapply Hsame.
    - intros j Hj. unfold tag_at, node_at, l'.
      rewrite lookup_spliced, decide_False by lia.
      rewrite length_seq, decide_True by lia.
      rewrite lookup_seq_lt by lia. simpl.
      rewrite <- Hsz_d, Hnx_d. apply Hnew. lia.
    - intros Hm. unfold l'. rewrite lookup_spliced, decide_False by lia.
      rewrite length_seq, decide_True by lia.
      rewrite lookup_seq_lt by lia. f_equal. lia.
    - intros j Hj. unfold tag_at, node_at, l'.
      rewrite lookup_spliced, decide_False by lia.
      rewrite length_seq, decide_False by lia. split; [done|].
      destruct (l !! (j - m)%nat) as [b|] eqn:Hb; simpl; [|done].
      by eapply Hsame. }
  simpl. split; [congruence|]. split; [congruence|]. split; [congruence|].
  split.
  { unfold l'. rewrite !length_app, length_take, length_drop, length_seq. lia. }
  rewrite Hact_w, Hact_d, Hsz_d. fold m. destruct (decide (m <> 0%nat)).
  - by rewrite decide_True.
  - rewrite decide_False; [done | by intros [_ ?]].
Qed.

Lemma insert_te_splice position length' s :
  insert_te position length' s
  = (do position <- Py.mod_ position (length s);
     do currentNode <- walk (Py.range_len 0 (position - 1)) (Some (head s));
     do _ <- splice currentNode (next_TE_id s) length';
     ret (next_TE_id s)) s.
Proof.
  unfold insert_te. unfold bind at 1. unfold get. cbv beta iota.
  apply bind_ext. intros pos s1. apply bind_ext. intros cur s2.
  unfold splice. rewrite bind_assoc. apply bind_ext. intros nx s3.
  rewrite bind_assoc. apply bind_ext. intros tg s4.
  rewrite bind_assoc. apply bind_ext. intros _ s5.
  rewrite bind_assoc. done.
Qed.

Lemma copy_te_splice te offset s :
  copy_te te offset s
  = if negb (Py.dict_mem te (active_TE s)) then (Ret None, s)
    else
      (do pos <- find_te (Py.range_len 0 (length s)) te (Some (head s)) 0;
       do off <- Py.mod_ offset (length s);
       do currentNode <- walk (Py.range_len 0 (pos + off - 1))
                           (Some (head s));
       match Py.dict_get te (active_TE s) with
       | None => raise KeyError
       | Some (_, length') =>
           do _ <- splice currentNode (next_TE_id s) length';
           ret (Some (next_TE_id s))
       end) s.
Proof.
  unfold copy_te. unfold bind at 1. unfold get. cbv beta iota.
  destruct (negb (Py.dict_mem te (active_TE s))); [reflexivity|].
  apply bind_ext. intros pos s1. apply bind_ext. intros off s2.
  apply bind_ext. intros cur s3.
  destruct (Py.dict_get te (active_TE s)) as [[a len]|]; [|done].
  unfold splice. rewrite bind_assoc. apply bind_ext. intros nx s4.
  rewrite bind_assoc. apply bind_ext. intros tg s5.
  rewrite bind_assoc. apply bind_ext. intros _ s6.
  rewrite bind_assoc. done.
Qed.

(** [insert_te]: where the chain is long enough for the walk, the new TE is
    written and the id returned; otherwise the call raises and nothing has
    changed. *)
Lemma walk_splice_inv {A} (v : A) s l k length' :
  linked_inv s l ->
  if decide (S k < List.length l)%nat
  then exists s' l',
         (do currentNode <- walk k (Some (head s));
          do _ <- splice currentNode (next_TE_id s) length';
          ret v) s = (Ret v, s')
         /\ spliced s l (S k) length' s' l'
  else (do currentNode <- walk k (Some (head s));
        do _ <- splice currentNode (next_TE_id s) length';
        ret v) s = (Raise AttributeError, s).
Proof.
  intros Hinv. pose proof Hinv as (Hseg & Hnd & Hown).
  destruct (decide (S k < List.length l)%nat) as [Hk|Hk].
  - destruct (lookup_lt_is_Some_2 l k) as [x Hx]; [lia|].
    destruct (lookup_lt_is_Some_2 l (S k)) as [y Hy]; [lia|].
    pose proof (splice_inv _ _ _ _ length' Hinv Hx) as H. rewrite Hy in H.
    destruct H as (s' & l' & Hrun & Hsp). exists s', l'.
    split; [|done]. unfold bind at 1.
    rewrite (walk_steps _ _ _ _ Hseg). unfold steps.
    rewrite decide_True by lia. rewrite Hx. unfold bind. by rewrite Hrun.
  - unfold bind at 1. rewrite (walk_steps _ _ _ _ Hseg). unfold steps.
    destruct (decide (k <= List.length l)%nat); [|reflexivity].
    destruct (l !! k) as [x|] eqn:Hx.
    + pose proof (splice_inv _ _ _ _ length' Hinv Hx) as H.
      rewrite (lookup_ge_None_2 l (S k)) in H by lia.
      unfold bind. by rewrite H.
    + reflexivity.
Qed.

Lemma insert_te_inv s l position length' :
  linked_inv s l ->
  let k := Py.range_len 0 (position `mod` length s - 1) in
  if decide (length s <> 0 /\ (S k < List.length l)%nat)
  then exists s' l',
         insert_te position length' s = (Ret (next_TE_id s), s')
         /\ spliced s l (S k) length' s' l'
  else exists e, insert_te position length' s = (Raise e, s).
Proof.
  intros Hinv k. rewrite insert_te_splice. unfold bind at 1, Py.mod_.
  destruct (Z.eqb_spec (length s) 0) as [H0|H0].
  { rewrite decide_False by (by intros [? _]). by eexists. }
  simpl ret. cbv beta iota.
  pose proof (walk_splice_inv (next_TE_id s) s l k length' Hinv) as H.
  fold k. destruct (decide (S k < List.length l)%nat).
  - by rewrite decide_True.
  - rewrite decide_False by (by intros [_ ?]). by eexists.
Qed.

Lemma linked_reads_same {A} (m : M t A) :
  (forall R : t -> t -> Prop, PreOrder R -> keeps R m) ->
  forall s, snd (m s) = s.
Proof. intros H s. symmetry. apply (H eq _). Qed.

Lemma copy_te_inv s l te offset :
  linked_inv s l ->
  ((te ∉ Py.dict_keys (active_TE s)) /\ copy_te te offset s = (Ret None, s))
  \/ (exists o, copy_te te offset s = (o, s) /\ forall v, o <> Ret v)
  \/ (exists a length' p s' l',
        Py.dict_get te (active_TE s) = Some (a, length')
        /\ copy_te te offset s = (Ret (Some (next_TE_id s)), s')
        /\ spliced s l p length' s' l').
Proof.
  intros Hinv. rewrite copy_te_splice.
  destruct (Py.dict_mem te (active_TE s)) eqn:Hmem; simpl.
  2:{ left. split; [by apply dict_mem_false | done]. }
  right.
  remember (bind (find_te _ _ _ _) _ s) as c eqn:Hc.
  unfold bind at 1 in Hc.
  pose proof (linked_reads_same _
    (fun R HR => keeps_find_te R (Py.range_len 0 (length s)) te
                   (Some (head s)) 0) s) as Hfind.
  destruct (find_te _ _ _ _ s) as [[pos|e|] s1]; simpl in Hfind; subst s1.
  2:{ left. subst c. by eexists. }
  2:{ left. subst c. by eexists. }
  unfold bind at 1, Py.mod_ in Hc.
  destruct (Z.eqb_spec (length s) 0); [left; subst c; by eexists|].
  unfold ret at 1 in Hc. cbv beta iota in Hc.
  apply dict_mem_get in Hmem as [[a len] Hget].
  rewrite Hget in Hc. cbv beta iota in Hc.
  set (k := Py.range_len 0 (pos + offset `mod` length s - 1)) in *.
  pose proof (walk_splice_inv (Some (next_TE_id s)) s l k len Hinv) as H.
  destruct (decide (S k < List.length l)%nat).
  - right. destruct H as (s' & l' & Hrun & Hsp).
    exists a, len, (S k), s', l'. split; [done|]. split; [congruence|done].
  - left. exists (Raise AttributeError). split; [congruence|done].
Qed.

Lemma disable_te_inv s l te :
  linked_inv s l ->
  ((te ∉ Py.dict_keys (active_TE s)) /\ disable_te te s = (Raise KeyError, s))
  \/ (exists s', disable_te te s = (Ret tt, s') /\ linked_inv s' l
        /\ head s' = head s /\ length s' = length s
        /\ next_TE_id s' = next_TE_id s
        /\ active_TE s' = Py.dict_del te (active_TE s)).
Proof.
  intros Hinv. destruct (Py.dict_get te (active_TE s)) as [[a len]|] eqn:Hget.
  - right. destruct (disable_te_active _ _ _ _ _ Hinv Hget) as (k & _ & Hrun & H).
    eexists. split; [exact Hrun|]. by split.
  - left. split.
    + apply dict_mem_false. unfold Py.dict_mem. by rewrite Hget.
    + unfold disable_te, bind, get. by rewrite Hget.
Qed.

End linked_inv_facts.

(** Every call of the contract maintains the invariant of the chain. *)
Lemma call_linked_wf (o : op) (s : LinkedListGenome.t) :
  linked_wf s -> linked_wf (snd (call o s)).
Proof.
  intros [l Hinv]. destruct o; unfold call;
    cbn [insert_te copy_te disable_te active_tes len str
         LinkedListGenome_Genome].
  - pose proof (insert_te_inv _ _ pos length Hinv) as H. simpl in H.
    unfold bind. destruct (decide _).
    + destruct H as (s' & l' & -> & Hsp & _). by exists l'.
    + destruct H as (e & ->). by exists l.
  - unfold bind.
    destruct (copy_te_inv _ _ te offset Hinv) as
      [[_ ->]|[(o & -> & Ho)|(a & len & p & s' & l' & _ & -> & Hsp & _)]].
    + by exists l.
    + destruct o; simpl; [by destruct (Ho a) | by exists l..].
    + by exists l'.
  - unfold bind.
    destruct (disable_te_inv _ _ te Hinv) as [[_ ->]|(s' & -> & H & _)];
      by exists l.
  - exists l. by rewrite (linked_reads_same _
      (fun R HR => keeps_bind R _ _ (keeps_active_tes R)
                     (fun a => keeps_ret R (VList a)))).
  - exists l. by rewrite (linked_reads_same _
      (fun R HR => keeps_bind R _ _ (keeps_len R)
                     (fun a => keeps_ret R (VInt a)))).
  - exists l. by rewrite (linked_reads_same _
      (fun R HR => keeps_bind R _ _ (keeps_str R)
                     (fun a => keeps_ret R (VStr a)))).
Qed.

Section linked_init.
Import LinkedListGenome.
Implicit Types (s : t) (h : list Node) (l : list nat) (r : option nat).

(** [while current.next: current = current.next] ends on the last node. *)
Lemma to_tail_chain s r l z fuel :
  seg (store s) r (l ++ [z]) None -> (List.length (l ++ [z]) <= fuel)%nat ->
  to_tail fuel r s = (Ret (Some z), s).
Proof.
  revert r fuel. induction l as [|a l IH]; intros r fuel; simpl.
  - intros (-> & nd & Hz & Hn) Hf. destruct fuel as [|fuel]; [lia|]. simpl.
    unfold bind. rewrite (get_next_Some _ _ _ Hz). simpl in Hn. by rewrite Hn.
  - intros (-> & nd & Ha & Hseg) Hf. destruct fuel as [|fuel]; [lia|]. simpl.
    unfold bind. rewrite (get_next_Some _ _ _ Ha).
    pose proof (seg_head _ _ _ Hseg) as Hhd.
    destruct (next nd) as [b|] eqn:Hb.
    + apply IH; [done | lia].
    + by destruct l.
Qed.

Lemma insert_chain s l z k :
  seg (store s) (Some (head s)) (l ++ [z]) None -> NoDup (l ++ [z]) ->
  insert k s = (Ret tt, with_store (linked_in z k) s)
  /\ seg (linked_in z k (store s)) (Some (head s))
       ((l ++ [z]) ++ [List.length (store s)]) None
  /\ NoDup ((l ++ [z]) ++ [List.length (store s)]).
Proof.
  intros Hseg Hnd.
  assert (z ∈ l ++ [z]) as Hzin
    by (apply elem_of_app; right; apply list_elem_of_here).
  destruct (seg_lookup _ _ _ _ _ Hseg Hzin) as [nd Hz].
  pose proof (lookup_lt_Some _ _ _ Hz) as Hzlt.
  assert (next nd = None) as Hnone.
  { apply seg_app in Hseg as (m & _ & (-> & nd' & Hz' & Hn)). simpl in Hn.
    by simplify_eq. }
  split; [|split].
  - unfold insert, bind, new_node, get.
    rewrite (to_tail_chain _ _ l z).
    + assert (store (with_store (fun h => h ++ [mkNode k None 0]) s) !! z
              = Some nd) as Hz1 by (simpl; by rewrite lookup_app_l).
      rewrite (set_attr_Some _ _ _ _ Hz1), with_store_with_store.
      unfold with_store. simpl. do 2 f_equal.
      rewrite <- (linked_in_alter _ _ _ _ Hz), Hnone. f_equal.
      apply list_eq. intros i.
      destruct (decide (i = List.length (store s))) as [->|?].
      * rewrite list_lookup_alter_eq, lookup_app_r by lia.
        by rewrite Nat.sub_diag.
      * by rewrite list_lookup_alter_ne.
    + simpl. eapply seg_ext; [|done]. intros a Ha.
      pose proof (seg_bound _ _ _ _ _ Hseg Ha). by rewrite lookup_app_l.
    + simpl. rewrite (length_app (store s)). simpl.
      pose proof (seg_length_le _ _ _ _ Hseg Hnd). lia.
  - rewrite <- app_assoc. simpl. by apply (seg_linked_in _ _ _ nd).
  - apply NoDup_app. split; [done|]. split; [|apply NoDup_singleton].
    intros a Ha ->%list_elem_of_singleton.
    pose proof (seg_bound _ _ _ _ _ Hseg Ha). lia.
Qed.

Lemma repeat_insert k :
  forall s l z,
  seg (store s) (Some (head s)) (l ++ [z]) None -> NoDup (l ++ [z]) ->
  (forall a nd, store s !! a = Some nd -> tag nd = (0, 0)) ->
  exists s' l',
    repeatM k (insert 0) s = (Ret tt, s')
    /\ seg (store s') (Some (head s')) l' None /\ NoDup l'
    /\ List.length l' = (S (List.length l) + k)%nat
    /\ (forall a nd, store s' !! a = Some nd -> tag nd = (0, 0))
    /\ head s' = head s /\ length s' = length s
    /\ active_TE s' = active_TE s /\ next_TE_id s' = next_TE_id s.
Proof.
  induction k as [|k IH]; intros s l z Hseg Hnd Hte.
  - exists s, (l ++ [z]). simpl. repeat split; try done.
    rewrite length_app. simpl. lia.
  - destruct (insert_chain _ _ _ 0 Hseg Hnd) as (Hrun & Hseg' & Hnd').
    destruct (IH (with_store (linked_in z 0) s) (l ++ [z])
                (List.length (store s)) Hseg' Hnd') as
      (s' & l' & Hrun' & ? & ? & Hlen & ? & ? & ? & ? & ?).
    { simpl. intros a nd Ha.
      assert (z ∈ l ++ [z]) as Hzin
        by (apply elem_of_app; right; apply list_elem_of_here).
      destruct (seg_lookup _ _ _ _ _ Hseg Hzin) as [ndz Hz].
      rewrite (lookup_linked_in _ _ _ _ _ Hz) in Ha.
      destruct (decide (a = z)) as [->|?].
      { simplify_eq. rewrite tag_put_next. by eapply Hte. }
      destruct (decide (a = List.length (store s))); [by simplify_eq|].
      by eapply Hte. }
    exists s', l'. split.
    { simpl. unfold bind. by rewrite Hrun. }
    repeat split; try done. rewrite Hlen, length_app. simpl. lia.
Qed.

(** [__init__] returns, and leaves a chain of [n] untagged nodes behind the
    head. *)
Lemma init_inv n :
  exists s l,
    init n blank = (Ret tt, s)
    /\ linked_inv s l
    /\ List.length l = S (Z.to_nat n)
    /\ length s = n /\ active_TE s = [] /\ next_TE_id s = 1.
Proof.
  destruct (repeat_insert (Py.range_len 0 n)
              (mk [mkNode 0 None 0] 0 0 [] 1) [] 0%nat) as
    (s' & l' & Hrun & Hseg & Hnd & Hlen & Hte & Hhd & Hl & Hact & Hnx).
  { simpl. split; [done|]. by exists (mkNode 0 None 0). }
  { apply NoDup_singleton. }
  { intros [|a] nd; simpl; [by intros [= <-] | by destruct a]. }
  exists (mk (store s') (head s') n (active_TE s') (next_TE_id s')), l'.
  split.
  { unfold init, bind at 1 2 3 4. simpl. unfold bind. by rewrite Hrun. }
  split; [|by rewrite Hlen; unfold Py.range_len; rewrite Z.sub_0_r].
  split; [done|]. split; [done|]. simpl. rewrite Hact, Hnx.
  assert (forall i tg t, tag_at (store s') l' i = Some (tg, t) ->
            tg = 0 /\ t = 0) as Hzero.
  { intros i tg t Hi. unfold tag_at, node_at in Hi.
    destruct (l' !! i) as [a|]; simpl in Hi; [|done].
    destruct (store s' !! a) as [nd|] eqn:Ha; simpl in Hi; [|done].
    pose proof (Hte _ _ Ha) as H0. unfold tag in *.
    injection Hi as <- <-. by injection H0. }
  split; [done|]. split; [done|]. split.
  - intros i t Hi. destruct (Hzero _ _ _ Hi). lia.
  - intros i tg t Hi. right. left. by eapply Hzero.
Qed.
End linked_init.

Lemma create_linked_wf n : linked_wf (create (G := LinkedListGenome.t) n).
Proof.
  destruct (init_inv n) as (s & l & Hrun & Hinv & _). simpl.
  rewrite Hrun. by exists l.
Qed.

(** ** Strings *)

Lemma string_app_assoc (s1 s2 s3 : string) :
  ((s1 ++ s2) ++ s3 = s1 ++ (s2 ++ s3))%string.
Proof. induction s1 as [|c s1 IH]; simpl; [done | by rewrite IH]. Qed.

Lemma string_app_nil_r (s1 : string) : (s1 ++ "" = s1)%string.
Proof. induction s1 as [|c s1 IH]; simpl; [done | by rewrite IH]. Qed.

Lemma string_length_of_list (cs : list ascii) :
  String.length (string_of_list_ascii cs) = List.length cs.
Proof. induction cs as [|c cs IH]; simpl; [done | by rewrite IH]. Qed.

Section linked_render.
Import LinkedListGenome.
Implicit Types (s : t) (h : list Node) (l : list nat) (r : option nat).

(** [__len__] counts the nodes of the chain but the last. *)
Lemma count_chain s r l z fuel i :
  seg (store s) r (l ++ [z]) None -> (List.length (l ++ [z]) <= fuel)%nat ->
  count fuel r i s = (Ret (i + Z.of_nat (List.length l)), s).
Proof.
  revert r fuel i. induction l as [|a l IH]; intros r fuel i; simpl.
  - intros (-> & nd & Hz & Hn) Hf. destruct fuel as [|fuel]; [lia|]. simpl.
    unfold bind. rewrite (get_next_Some _ _ _ Hz). simpl in Hn. rewrite Hn.
    by rewrite Z.add_0_r.
  - intros (-> & nd & Ha & Hseg) Hf. destruct fuel as [|fuel]; [lia|]. simpl.
    unfold bind. rewrite (get_next_Some _ _ _ Ha).
    pose proof (seg_head _ _ _ Hseg) as Hhd.
    destruct (next nd) as [b|] eqn:Hb; [|by destruct l].
    rewrite IH; [|done|lia]. do 2 f_equal. lia.
Qed.

(** [__str__] writes one character for every node of the chain but the
    last. *)
Lemma render_chain s r l z fuel acc :
  seg (store s) r (l ++ [z]) None -> (List.length (l ++ [z]) <= fuel)%nat ->
  render fuel r acc s
  = (Ret (acc ++ string_of_list_ascii
                   (map (fun a => char_of (te_at (store s) a)) l))%string, s).
Proof.
  revert r fuel acc. induction l as [|a l IH]; intros r fuel acc; simpl.
  - intros (-> & nd & Hz & Hn) Hf. destruct fuel as [|fuel]; [lia|]. simpl.
    unfold bind. rewrite (get_next_Some _ _ _ Hz). simpl in Hn. rewrite Hn.
    by rewrite string_app_nil_r.
  - intros (-> & nd & Ha & Hseg) Hf. destruct fuel as [|fuel]; [lia|]. simpl.
    unfold bind. rewrite (get_next_Some _ _ _ Ha).
    pose proof (seg_head _ _ _ Hseg) as Hhd.
    destruct (next nd) as [b|] eqn:Hb; [|by destruct l].
    rewrite (get_te_Some _ _ _ Ha). rewrite IH; [|done|lia].
    rewrite string_app_assoc. unfold te_at at 2. by rewrite Ha.
Qed.

Lemma chain_snoc s l :
  linked_inv s l -> exists l0 z, l = l0 ++ [z].
Proof.
  intros (Hseg & _). destruct l as [|a l] using rev_ind; [done|]. by eauto.
Qed.

Lemma len_chain s l0 z :
  linked_inv s (l0 ++ [z]) -> len s = (Ret (Z.of_nat (List.length l0)), s).
Proof.
  intros (Hseg & Hnd & _). unfold len, bind, get.
  rewrite (count_chain _ _ l0 z); [done..|].
  by apply (seg_length_le _ _ _ _ Hseg).
Qed.

Lemma str_chain s l0 z :
  linked_inv s (l0 ++ [z]) ->
  str s = (Ret (string_of_list_ascii
                  (map (fun a => char_of (te_at (store s) a)) l0)), s).
Proof.
  intros (Hseg & Hnd & _). unfold str, bind, get.
  rewrite (render_chain _ _ l0 z); [done..|].
  by apply (seg_length_le _ _ _ _ Hseg).
Qed.
End linked_render.

(** A call that the contract allows keeps the [length] field equal to the
    number of nodes behind the head, and never lowers it. *)
Lemma call_linked_sync (o : op) (s : LinkedListGenome.t) (c : Z) :
  valid_op o -> linked_sync s -> c <= LinkedListGenome.length s ->
  linked_sync (snd (call o s)) /\ c <= LinkedListGenome.length (snd (call o s)).
Proof.
  intros Hv (l & Hinv & Hsync) Hc. destruct o; unfold call;
    cbn [insert_te copy_te disable_te active_tes len str
         LinkedListGenome_Genome].
  - pose proof (insert_te_inv _ _ pos length Hinv) as H. simpl in H, Hv.
    unfold bind. destruct (decide _).
    + destruct H as (s' & l' & -> & Hinv' & _ & Hlen & _ & Hl' & _). simpl.
      split; [|lia]. exists l'. split; [done|]. lia.
    + destruct H as (e & ->). simpl. split; [|done]. by exists l.
  - unfold bind.
    destruct (copy_te_inv _ _ te offset Hinv) as
      [[_ ->]|[(o & -> & Ho)
              |(a & len & p & s' & l' & Hget & -> & Hinv' & _ & Hlen & _
                & Hl' & _)]].
    + simpl. split; [|done]. by exists l.
    + destruct o; simpl; [by destruct (Ho a) | split; [by exists l|done]..].
    + destruct Hinv as (_ & _ & Hown).
      destruct (owned_active _ _ _ _ _ _ _ Hown Hget) as (_ & Hpos & _). simpl.
      split; [|lia]. exists l'. split; [done|]. lia.
  - unfold bind.
    destruct (disable_te_inv _ _ te Hinv) as
      [[_ ->]|(s' & -> & H & _ & Hlen & _)]; simpl.
    + split; [|done]. by exists l.
    + split; [|lia]. exists l. split; [done|]. lia.
  - rewrite (linked_reads_same _
      (fun R HR => keeps_bind R _ _ (keeps_active_tes R)
                     (fun a => keeps_ret R (VList a)))).
    split; [|done]. by exists l.
  - rewrite (linked_reads_same _
      (fun R HR => keeps_bind R _ _ (keeps_len R)
                     (fun a => keeps_ret R (VInt a)))).
    split; [|done]. by exists l.
  - rewrite (linked_reads_same _
      (fun R HR => keeps_bind R _ _ (keeps_str R)
                     (fun a => keeps_ret R (VStr a)))).
    split; [|done]. by exists l.
Qed.

Lemma run_linked_wf (ops : list op) (s : LinkedListGenome.t) :
  linked_wf s -> linked_wf (snd (run ops s)).
Proof.
  revert s. induction ops as [|o ops IH]; intros s Hs; simpl; [done|].
  pose proof (call_linked_wf o s Hs) as Ho.
  destruct (call o s) as [res s1]. specialize (IH s1 Ho).
  by destruct (run ops s1) as [rs s2].
Qed.

Lemma run_linked_sync (ops : list op) (s : LinkedListGenome.t) (c : Z) :
  Forall valid_op ops -> linked_sync s -> c <= LinkedListGenome.length s ->
  linked_sync (snd (run ops s)) /\ c <= LinkedListGenome.length (snd (run ops s)).
Proof.
  intros Hv. revert s. induction Hv as [|o ops Ho Hops IH]; intros s Hs Hc;
    simpl; [done|].
  pose proof (call_linked_sync o s c Ho Hs Hc) as [Hs1 Hc1].
  destruct (call o s) as [res s1]. specialize (IH s1 Hs1 Hc1).
  by destruct (run ops s1) as [rs s2].
Qed.

Lemma create_linked_sync n :
  0 <= n -> linked_sync (create (G := LinkedListGenome.t) n)
  /\ LinkedListGenome.length (create (G := LinkedListGenome.t) n) = n.
Proof.
  intros Hn. destruct (init_inv n) as (s & l & Hrun & Hinv & Hlen & Hl & _).
  simpl. rewrite Hrun. simpl. split; [|done]. exists l. split; [done|]. lia.
Qed.

(** [insert_te(pos, 0)] on a [LinkedListGenome] with at least one position:
    the id is returned, the counter advances, and the id is in the active
    index neither before nor after. *)
Lemma linked_insert_te_0 (s : LinkedListGenome.t) (pos : Z) :
  linked_sync s -> 0 < LinkedListGenome.length s ->
  exists s',
    LinkedListGenome.insert_te pos 0 s
    = (Ret (LinkedListGenome.next_TE_id s), s')
    /\ LinkedListGenome.next_TE_id s' = LinkedListGenome.next_TE_id s + 1
    /\ LinkedListGenome.length s' = LinkedListGenome.length s
    /\ (LinkedListGenome.next_TE_id s
         ∉ Py.dict_keys (LinkedListGenome.active_TE s))
    /\ (LinkedListGenome.next_TE_id s
         ∉ Py.dict_keys (LinkedListGenome.active_TE s')).
Proof.
  intros (l & Hinv & Hsync) Hpos.
  pose proof (insert_te_inv _ _ pos 0 Hinv) as H. simpl in H.
  pose proof (Z.mod_pos_bound pos (LinkedListGenome.length s) Hpos) as Hmod.
  rewrite decide_True in H by (unfold Py.range_len; lia).
  destruct H as (s' & l' & Hrun & _ & _ & Hlen & Hnx & _ & Hact).
  exists s'. split; [done|]. split; [done|]. split; [lia|].
  assert (LinkedListGenome.next_TE_id s
            ∉ Py.dict_keys (LinkedListGenome.active_TE s)) as Hfresh.
  { intros [[a len] Hget]%dict_get_keys.
    destruct Hinv as (_ & _ & Hown).
    destruct (owned_active _ _ _ _ _ _ _ Hown Hget) as (? & _). lia. }
  split; [done|]. rewrite Hact. simpl.
  unfold collided. destruct (tag_at _ _ _) as [[tg t]|]; [|done].
  destruct (tg =? 1); [|done].
  intros [_ ?]%dict_keys_del_elem. done.
Qed.

(** ** [ListGenome] *)

Section list_facts.
Import ListGenome.
Implicit Types (g : t) (d : Py.dict Z).

Lemma getitem_is_Some {A} (l : list A) (i : Z) :
  is_Some (Py.getitem l i)
  <-> - Z.of_nat (List.length l) <= i < Z.of_nat (List.length l).
Proof.
  unfold Py.getitem.
  destruct (Z.leb_spec 0 i), (Z.ltb_spec i (Z.of_nat (List.length l))); simpl.
  - rewrite lookup_lt_is_Some. lia.
  - destruct (Z.leb_spec (- Z.of_nat (List.length l)) i), (Z.ltb_spec i 0);
      simpl; try lia; split; try lia; by intros [? ?].
  - destruct (Z.leb_spec (- Z.of_nat (List.length l)) i), (Z.ltb_spec i 0);
      simpl; try lia.
    + rewrite lookup_lt_is_Some. lia.
    + split; [by intros [? ?] | lia].
  - destruct (Z.leb_spec (- Z.of_nat (List.length l)) i), (Z.ltb_spec i 0);
      simpl; try lia; split; try lia; by intros [? ?].
Qed.

Lemma getitem_elem_of {A} (l : list A) (i : Z) (a : A) :
  Py.getitem l i = Some a -> a ∈ l.
Proof.
  unfold Py.getitem. repeat case_match; try done;
    apply list_elem_of_lookup_2.
Qed.

Lemma slice_insert_nil {A} (l : list A) (i : Z) : Py.slice_insert l i [] = l.
Proof. unfold Py.slice_insert. simpl. apply take_drop. Qed.

Lemma elem_of_slice_insert {A} (l xs : list A) (i : Z) (a : A) :
  a ∈ Py.slice_insert l i xs <-> a ∈ l \/ a ∈ xs.
Proof.
  unfold Py.slice_insert. cbv zeta.
  set (k := Py.slice_index (Z.of_nat (List.length l)) i).
  assert (a ∈ l <-> a ∈ take k l \/ a ∈ drop k l) as ->
    by (by rewrite <- elem_of_app, take_drop).
  rewrite !elem_of_app. tauto.
Qed.

Lemma length_slice_insert {A} (l xs : list A) (i : Z) :
  List.length (Py.slice_insert l i xs) = (List.length l + List.length xs)%nat.
Proof.
  unfold Py.slice_insert. cbv zeta.
  rewrite !length_app, length_take, length_drop. lia.
Qed.

(** [[x] * n] *)
Lemma repeat_error_None n :
  Py.repeat_error n = None <-> - Py.maxsize - 1 <= n <= Py.max_list.
Proof.
  unfold Py.repeat_error.
  assert (Py.max_list <= Py.maxsize) by (by vm_compute).
  destruct (Z.ltb_spec n (- Py.maxsize - 1)), (Z.ltb_spec Py.maxsize n);
    simpl; try (split; [done | lia]).
  destruct (Z.ltb_spec Py.max_list n); split; (done || lia).
Qed.

Lemma repeat_error_nonpos n :
  - Py.maxsize - 1 <= n <= 0 -> Py.repeat_error n = None.
Proof.
  intros Hn. apply repeat_error_None.
  assert (0 <= Py.max_list) by (by vm_compute). lia.
Qed.

Lemma repeat_Ret {S A} (x : A) n (s : S) :
  Py.repeat_error n = None ->
  Py.repeat x n s = (Ret (replicate (Z.to_nat n) x), s).
Proof. intros H. unfold Py.repeat. by rewrite H. Qed.

Lemma repeat_Raise {S A} (x : A) n e (s : S) :
  Py.repeat_error n = Some e -> Py.repeat x n s = (Raise e, s).
Proof. intros H. unfold Py.repeat. by rewrite H. Qed.

(** What [insert_te] does on a valid index, where the list of the new
    positions can be made. *)
Lemma list_insert_te_Some g pos length' a :
  Py.getitem (nucleotide g) pos = Some a ->
  Py.repeat_error length' = None ->
  insert_te pos length' g
  = (Ret (te_id g),
     {| nucleotide :=
          Py.slice_insert (nucleotide g) pos
            (replicate (Z.to_nat length') (Te (te_id g)));
        active_TE :=
          Py.dict_set (te_id g) length'
            (if in_active a (active_TE g)
             then del_active a (active_TE g) else active_TE g);
        te_id := te_id g + 1 |}).
Proof.
  intros H Hrep. unfold insert_te, bind, get, put. rewrite H.
  by rewrite (repeat_Ret _ _ _ Hrep).
Qed.

(** What [insert_te] leaves behind on a valid index where the list of the
    new positions cannot be made: the collision is settled, the id is used
    up and entered in the index, and the sequence is as it was. *)
Lemma list_insert_te_Raise g pos length' a e :
  Py.getitem (nucleotide g) pos = Some a ->
  Py.repeat_error length' = Some e ->
  insert_te pos length' g
  = (Raise e,
     {| nucleotide := nucleotide g;
        active_TE :=
          Py.dict_set (te_id g) length'
            (if in_active a (active_TE g)
             then del_active a (active_TE g) else active_TE g);
        te_id := te_id g + 1 |}).
Proof.
  intros H Hrep. unfold insert_te, bind, get, put. rewrite H.
  by rewrite (repeat_Raise _ _ _ _ Hrep).
Qed.

Lemma list_insert_te_None g pos length' :
  Py.getitem (nucleotide g) pos = None ->
  insert_te pos length' g = (Raise IndexError, g).
Proof. intros H. unfold insert_te, bind, get. by rewrite H. Qed.

Lemma keys_collision a d k :
  k ∈ Py.dict_keys (if in_active a d then del_active a d else d) ->
  k ∈ Py.dict_keys d.
Proof.
  destruct (in_active a d); [|done]. destruct a as [|i]; [done|]. simpl.
  by intros [_ ?]%dict_keys_del_elem.
Qed.

Lemma list_insert_te_wf g pos length' :
  list_wf g -> list_wf (snd (insert_te pos length' g)).
Proof.
  intros [Hn Hk]. destruct (Py.getitem (nucleotide g) pos) as [a|] eqn:Hget.
  - destruct (Py.repeat_error length') as [e|] eqn:Hrep.
    + rewrite (list_insert_te_Raise _ _ _ _ _ Hget Hrep). split; simpl.
      * intros i Hi. specialize (Hn i Hi). lia.
      * intros k [->|Hin%keys_collision]%dict_keys_set_elem; [lia|].
        specialize (Hk k Hin). lia.
    + rewrite (list_insert_te_Some _ _ _ _ Hget Hrep). split; simpl.
      * intros i [Hi|Hi]%elem_of_slice_insert; [specialize (Hn i Hi); lia|].
        apply elem_of_replicate in Hi as [[= ->] _]. lia.
      * intros k [->|Hin%keys_collision]%dict_keys_set_elem; [lia|].
        specialize (Hk k Hin). lia.
  - by rewrite (list_insert_te_None _ _ _ Hget).
Qed.

Lemma list_call_wf (o : op) g : list_wf g -> list_wf (snd (call o g)).
Proof.
  intros Hwf. destruct o; unfold call; simpl; try done.
  - unfold bind. pose proof (list_insert_te_wf g pos length Hwf) as H.
    by destruct (ListGenome.insert_te pos length g) as [[id|e|] g'].
  - unfold ListGenome.copy_te, bind, get.
    destruct (negb _); [done|].
    destruct (Py.index _ _) as [p|]; [|done].
    destruct (Py.dict_get _ _) as [len|]; [|done].
    unfold Py.mod_. destruct (_ =? 0); [done|]. simpl.
    pose proof (list_insert_te_wf g
      ((p + offset) `mod` Z.of_nat (List.length (nucleotide g))) len Hwf) as H.
    by destruct (ListGenome.insert_te _ len g) as [[id|e|] g'].
  - unfold bind, ListGenome.disable_te.
    destruct (Py.dict_mem te (active_TE g)); [|done]. simpl.
    destruct Hwf as [Hn Hk]. split; [done|]. simpl.
    intros k [_ ?]%dict_keys_del_elem. by apply Hk.
Qed.

Lemma list_run_wf (ops : list op) g : list_wf g -> list_wf (snd (run ops g)).
Proof.
  revert g. induction ops as [|o ops IH]; intros g Hg; simpl; [done|].
  pose proof (list_call_wf o g Hg) as Ho.
  destruct (call o g) as [res g1]. specialize (IH g1 Ho).
  by destruct (run ops g1) as [rs g2].
Qed.

(** The constructor: the genome it makes, where the list of dashes can be
    made. *)
Lemma list_init_Ret n :
  Py.repeat_error n = None ->
  init n blank
  = (Ret tt, {| nucleotide := replicate (Z.to_nat n) Dash;
                active_TE := []; te_id := 1 |}).
Proof. intros H. unfold init, bind, put. by rewrite (repeat_Ret _ _ _ H). Qed.

Lemma list_init_Raise n e :
  Py.repeat_error n = Some e -> init n blank = (Raise e, blank).
Proof. intros H. unfold init, bind. by rewrite (repeat_Raise _ _ _ _ H). Qed.

Lemma list_create_wf n : list_wf (create (G := ListGenome.t) n).
Proof.
  simpl. destruct (Py.repeat_error n) as [e|] eqn:Hrep.
  - rewrite (list_init_Raise _ _ Hrep). split; simpl.
    + by intros i ?%elem_of_nil.
    + by intros k ?%elem_of_nil.
  - rewrite (list_init_Ret _ Hrep). split; simpl.
    + by intros i [? _]%elem_of_replicate.
    + by intros k ?%elem_of_nil.
Qed.

(** The rendering depends on the active index only through the ids of the
    sequence. *)
Lemma list_render_ext (l : list nucl) d d' :
  (forall i, Te i ∈ l -> Py.dict_mem i d' = Py.dict_mem i d) ->
  map (char_of d') l = map (char_of d) l.
Proof.
  induction l as [|a l IH]; intros H; simpl; [done|]. f_equal.
  - destruct a as [|i]; [done|]. simpl. rewrite H; [done|].
    apply list_elem_of_here.
  - apply IH. intros i Hi. apply H. by apply list_elem_of_further.
Qed.

Lemma dict_mem_set {V} k k' (v : V) (d : Py.dict V) :
  Py.dict_mem k' (Py.dict_set k v d) = (k =? k') || Py.dict_mem k' d.
Proof.
  unfold Py.dict_mem. rewrite dict_get_set. by destruct (k =? k').
Qed.

(** [insert_te(pos, 0)] on a valid index of a [ListGenome]. *)
Lemma list_insert_te_0 g pos :
  list_wf g -> is_Some (Py.getitem (nucleotide g) pos) ->
  exists g',
    insert_te pos 0 g = (Ret (te_id g), g')
    /\ te_id g' = te_id g + 1
    /\ nucleotide g' = nucleotide g
    /\ (te_id g ∉ Py.dict_keys (active_TE g))
    /\ te_id g ∈ Py.dict_keys (active_TE g')
    /\ (Te (te_id g) ∉ nucleotide g')
    /\ (forall a, Py.getitem (nucleotide g) pos = Some a ->
         in_active a (active_TE g) = false ->
         str g' = (fst (str g), g')).
Proof.
  intros [Hn Hk] [a Ha].
  rewrite (list_insert_te_Some _ _ _ _ Ha (repeat_error_nonpos 0 ltac:(done))).
  change (replicate (Z.to_nat 0) (Te (te_id g))) with (@nil nucl).
  rewrite slice_insert_nil.
  eexists. split; [done|]. cbn [nucleotide active_TE te_id].
  assert (Te (te_id g) ∉ nucleotide g) as Hfresh
    by (intros Hin; specialize (Hn _ Hin); lia).
  split; [done|]. split; [done|].
  split; [intros Hin; specialize (Hk _ Hin); lia|].
  split; [apply dict_keys_set_elem; by left|].
  split; [done|].
  intros a' Ha' Hact. simplify_eq. rewrite Hact.
  unfold str, bind, get, ret. cbn [nucleotide active_TE te_id fst].
  do 3 f_equal.
  apply list_render_ext. intros i Hi. rewrite dict_mem_set.
  by destruct (Z.eqb_spec (te_id g) i) as [<-|?].
Qed.

(** [insert_te(pos, 0)] on a position of the active TE [t]. *)
Lemma list_insert_te_0_collision g pos t :
  list_wf g -> Py.getitem (nucleotide g) pos = Some (Te t) ->
  Py.dict_mem t (active_TE g) = true ->
  (t ∉ Py.dict_keys (active_TE (snd (insert_te pos 0 g))))
  /\ fst (str (snd (insert_te pos 0 g)))
     = Ret (string_of_list_ascii
              (map (fun b => if is_te t b then "x"%char
                             else char_of (active_TE g) b)
                 (nucleotide g))).
Proof.
  intros [Hn Hk] Ha Hmem.
  rewrite (list_insert_te_Some _ _ _ _ Ha (repeat_error_nonpos 0 ltac:(done))).
  change (replicate (Z.to_nat 0) (Te (te_id g))) with (@nil nucl).
  rewrite slice_insert_nil. cbn [in_active del_active]. rewrite Hmem.
  cbn [snd nucleotide active_TE]. split.
  - intros [->|[? _]%dict_keys_del_elem]%dict_keys_set_elem; [|done].
    apply dict_mem_keys in Hmem. specialize (Hk _ Hmem). lia.
  - unfold str, bind, get, ret. cbn [fst nucleotide active_TE].
    do 2 f_equal. apply map_ext_in. intros b Hb%list_elem_of_In.
    destruct b as [|i]; [done|]. specialize (Hn i Hb). simpl.
    rewrite dict_mem_set. unfold Py.dict_mem at 1. rewrite dict_get_del.
    destruct (Z.eqb_spec (te_id g) i); [lia|]. simpl.
    rewrite (Z.eqb_sym i t). by destruct (t =? i).
Qed.
End list_facts.

(** ** The rendering and the positions *)

Lemma list_char_position d a :
  ListGenome.char_of d a = tag_char (list_position d a).
Proof. destruct a as [|i]; simpl; [done|]. by destruct (Py.dict_mem i d). Qed.

(** In a [LinkedListGenome] the stored tag of a node of the chain says what
    the active index says of its owner. *)
Lemma linked_char_position s l i a :
  linked_inv s l -> l !! i = Some a ->
  LinkedListGenome.char_of (te_at (LinkedListGenome.store s) a)
  = tag_char (linked_position (LinkedListGenome.active_TE s)
                (LinkedListGenome.store s) a).
Proof.
  intros (Hseg & Hnd & Hnx & Hact & Htag & Hkind) Hi.
  destruct (seg_lookup _ _ _ _ a Hseg) as [nd Ha];
    [by eapply list_elem_of_lookup_2|].
  assert (tag_at (LinkedListGenome.store s) l i
          = Some (LinkedListGenome.te nd, LinkedListGenome.te_id nd)) as Ht
    by (unfold tag_at, node_at; rewrite Hi; simpl; by rewrite Ha).
  unfold linked_position, te_at, owner_at. rewrite Ha.
  destruct (Hkind _ _ _ Ht) as [H1|[[H0 H0']|(H2 & Hr & Hnone)]].
  - rewrite H1 in Ht |- *. destruct (Htag _ _ Ht) as (a' & len & k & Hget & _).
    destruct (Hact _ _ _ Hget) as (Hpos & _).
    destruct (Z.eqb_spec (LinkedListGenome.te_id nd) 0); [lia|].
    unfold Py.dict_mem. by rewrite Hget.
  - by rewrite H0, H0'.
  - rewrite H2. destruct (Z.eqb_spec (LinkedListGenome.te_id nd) 0); [lia|].
    unfold Py.dict_mem. by rewrite Hnone.
Qed.

Lemma linked_render_positions s l0 z :
  linked_inv s (l0 ++ [z]) ->
  map (fun a => LinkedListGenome.char_of (te_at (LinkedListGenome.store s) a)) l0
  = map tag_char
      (map (linked_position (LinkedListGenome.active_TE s)
              (LinkedListGenome.store s)) l0).
Proof.
  intros Hinv. rewrite map_map. apply map_ext_in. intros a Ha.
  apply list_elem_of_In, list_elem_of_lookup_1 in Ha as [i Hi].
  apply (linked_char_position s (l0 ++ [z]) i); [done|].
  by apply lookup_app_l_Some.
Qed.

(** [insert_te(pos, 0)] leaves the length of a [LinkedListGenome] alone. *)
Lemma linked_insert_te_0_len (s : LinkedListGenome.t) (pos : Z) :
  linked_sync s -> 0 < LinkedListGenome.length s ->
  fst (LinkedListGenome.len (snd (LinkedListGenome.insert_te pos 0 s)))
  = fst (LinkedListGenome.len s).
Proof.
  intros (l & Hinv & Hsync) Hpos.
  pose proof (insert_te_inv _ _ pos 0 Hinv) as H. simpl in H.
  pose proof (Z.mod_pos_bound pos (LinkedListGenome.length s) Hpos) as Hmod.
  rewrite decide_True in H by (unfold Py.range_len; lia).
  destruct H as (s' & l' & Hrun & Hinv' & _ & _ & _ & Hlen & _).
  rewrite Hrun. simpl.
  destruct (chain_snoc _ _ Hinv) as (l0 & z & ->).
  destruct (chain_snoc _ _ Hinv') as (l0' & z' & ->).
  rewrite (len_chain _ _ _ Hinv), (len_chain _ _ _ Hinv'). simpl.
  rewrite !length_app in Hlen. simpl in Hlen. do 2 f_equal. lia.
Qed.

Lemma inactive_list (g : ListGenome.t) x :
  inactive g x <-> x ∉ Py.dict_keys (ListGenome.active_TE g).
Proof.
  unfold inactive. simpl. split.
  - by intros (l & [= <-] & ?).
  - intros H. by eexists.
Qed.

Lemma inactive_linked (g : LinkedListGenome.t) x :
  inactive g x <-> x ∉ Py.dict_keys (LinkedListGenome.active_TE g).
Proof.
  unfold inactive. simpl. split.
  - by intros (l & [= <-] & ?).
  - intros H. by eexists.
Qed.

(** ** What the sibling class does where one class breaks the contract *)

(** [ListGenome.disable_te] on an id that is not active changes nothing. *)
Lemma list_disable_te_inactive (g : ListGenome.t) (te : Z) :
  te ∉ Py.dict_keys (ListGenome.active_TE g) ->
  ListGenome.disable_te te g = (Ret tt, g).
Proof.
  intros H. apply dict_mem_false in H. unfold ListGenome.disable_te.
  by rewrite H.
Qed.

(** [ListGenome.disable_te] on an active id drops it from the index and
    leaves the sequence alone. *)
Lemma list_disable_te_active (g : ListGenome.t) (te : Z) :
  te ∈ Py.dict_keys (ListGenome.active_TE g) ->
  exists g',
    ListGenome.disable_te te g = (Ret tt, g')
    /\ ListGenome.nucleotide g' = ListGenome.nucleotide g
    /\ (te ∉ Py.dict_keys (ListGenome.active_TE g')).
Proof.
  intros H. apply dict_mem_keys in H. unfold ListGenome.disable_te.
  rewrite H. eexists. split; [done|]. split; [done|]. simpl.
  by intros [? _]%dict_keys_del_elem.
Qed.


(** The offset of [ListGenome.copy_te] counts modulo the length. *)
Lemma list_copy_te_circular (g : ListGenome.t) (te offset : Z) :
  ListGenome.copy_te te
    (offset - Z.of_nat (List.length (ListGenome.nucleotide g))) g
  = ListGenome.copy_te te offset g.
Proof.
  unfold ListGenome.copy_te, bind, get, Py.mod_, ret.
  destruct (negb _); [reflexivity|].
  destruct (Py.index _ _) as [pos|]; [|reflexivity].
  destruct (Py.dict_get _ _) as [len|]; [|reflexivity].
  destruct (_ =? 0) eqn:H0; [reflexivity|].
  replace (pos + (offset - Z.of_nat (List.length (ListGenome.nucleotide g))))
    with (pos + offset
          + (-1) * Z.of_nat (List.length (ListGenome.nucleotide g))) by lia.
  by rewrite Z_mod_plus_full.
Qed.

(** [ListGenome.insert_te] returns exactly on the valid indices, where the
    list of the new positions can be made. *)
Lemma list_insert_te_returns (g : ListGenome.t) (pos length' : Z) :
  (exists g', ListGenome.insert_te pos length' g
              = (Ret (ListGenome.te_id g), g'))
  <-> - Z.of_nat (List.length (ListGenome.nucleotide g)) <= pos
      < Z.of_nat (List.length (ListGenome.nucleotide g))
      /\ Py.repeat_error length' = None.
Proof.
  rewrite <- getitem_is_Some. split.
  - intros [g' H]. destruct (Py.getitem _ pos) as [a|] eqn:Ha.
    + split; [by eauto|].
      destruct (Py.repeat_error length') as [e|] eqn:Hrep; [|done].
      by rewrite (list_insert_te_Raise _ _ _ _ _ Ha Hrep) in H.
    + by rewrite (list_insert_te_None _ _ _ Ha) in H.
  - intros [[a Ha] Hrep]. rewrite (list_insert_te_Some _ _ _ _ Ha Hrep).
    by eauto.
Qed.

(** [LinkedListGenome.insert_te] reduces the position modulo the length: on
    a genome with at least one position it returns for every position and
    every length. *)
Lemma linked_insert_te_returns (s : LinkedListGenome.t) (pos length' : Z) :
  linked_sync s -> 0 < LinkedListGenome.length s ->
  exists s',
    LinkedListGenome.insert_te pos length' s
    = (Ret (LinkedListGenome.next_TE_id s), s')
    /\ LinkedListGenome.length s' = LinkedListGenome.length s + length'
    /\ linked_wf s'.
Proof.
  intros (l & Hinv & Hsync) Hpos.
  pose proof (insert_te_inv _ _ pos length' Hinv) as H. simpl in H.
  pose proof (Z.mod_pos_bound pos (LinkedListGenome.length s) Hpos) as Hmod.
  rewrite decide_True in H by (unfold Py.range_len; lia).
  destruct H as (s' & l' & Hrun & Hinv' & _ & Hlen & _).
  exists s'. split; [done|]. split; [done|]. by exists l'.
Qed.

(** The collision rule of [ListGenome.insert_te]: the TE that owns the
    position is dropped from the index and the new id is added, whether the
    new positions can be made or not. *)
Lemma list_insert_te_collision (g : ListGenome.t) (pos length' t : Z) :
  list_wf g ->
  Py.getitem (ListGenome.nucleotide g) pos = Some (ListGenome.Te t) ->
  t ∈ Py.dict_keys (ListGenome.active_TE g) ->
  let g' := snd (ListGenome.insert_te pos length' g) in
  (forall v, fst (ListGenome.insert_te pos length' g) = Ret v ->
     v = ListGenome.te_id g)
  /\ (t ∉ Py.dict_keys (ListGenome.active_TE g'))
  /\ ListGenome.te_id g ∈ Py.dict_keys (ListGenome.active_TE g')
  /\ (forall a, a ∈ ListGenome.nucleotide g ->
        a ∈ ListGenome.nucleotide g')
  /\ ListGenome.char_of (ListGenome.active_TE g') (ListGenome.Te t)
     = "x"%char.
Proof.
  intros [Hn Hk] Hget Ht g'. subst g'.
  set (d' := Py.dict_set (ListGenome.te_id g) length'
               (if ListGenome.in_active (ListGenome.Te t)
                     (ListGenome.active_TE g)
                then ListGenome.del_active (ListGenome.Te t)
                       (ListGenome.active_TE g)
                else ListGenome.active_TE g)).
  assert (t ∉ Py.dict_keys d') as Hgone.
  { unfold d'. simpl. apply dict_mem_keys in Ht as Ht'. rewrite Ht'.
    intros [->|[? _]%dict_keys_del_elem]%dict_keys_set_elem; [|done].
    specialize (Hk _ Ht). lia. }
  assert (ListGenome.te_id g ∈ Py.dict_keys d') as Hnew
    by (apply dict_keys_set_elem; by left).
  assert (ListGenome.char_of d' (ListGenome.Te t) = "x"%char) as Hx.
  { unfold ListGenome.char_of. apply dict_mem_false in Hgone.
    by rewrite Hgone. }
  destruct (Py.repeat_error length') as [e|] eqn:Hrep.
  - rewrite (list_insert_te_Raise _ _ _ _ _ Hget Hrep).
    cbn [fst snd ListGenome.nucleotide ListGenome.active_TE]. by fold d'.
  - rewrite (list_insert_te_Some _ _ _ _ Hget Hrep).
    cbn [fst snd ListGenome.nucleotide ListGenome.active_TE]. fold d'.
    split; [by intros v [= <-]|]. split; [done|]. split; [done|].
    split; [|done]. intros a Ha. apply elem_of_slice_insert. by left.
Qed.

(** The collision rule of [LinkedListGenome.insert_te]: where the walk
    stays on the chain and the place it reaches is tagged active for [t],
    [t] is dropped from the index.  The place is [position % length], or 1
    when that is 0. *)
Lemma linked_insert_te_collision (s : LinkedListGenome.t) (l : list nat)
    (pos length' t : Z) :
  linked_inv s l ->
  let p := S (Py.range_len 0 (pos `mod` LinkedListGenome.length s - 1)) in
  LinkedListGenome.length s <> 0 -> (p < List.length l)%nat ->
  tag_at (LinkedListGenome.store s) l p = Some (1, t) ->
  exists s',
    LinkedListGenome.insert_te pos length' s
    = (Ret (LinkedListGenome.next_TE_id s), s')
    /\ t ∈ Py.dict_keys (LinkedListGenome.active_TE s)
    /\ (t ∉ Py.dict_keys (LinkedListGenome.active_TE s'))
    /\ (0 < length' ->
        LinkedListGenome.next_TE_id s
        ∈ Py.dict_keys (LinkedListGenome.active_TE s')).
Proof.
  intros Hinv p H0 Hp Htag.
  pose proof (insert_te_inv _ _ pos length' Hinv) as H. simpl in H.
  rewrite decide_True in H by done.
  destruct H as (s' & l' & Hrun & _ & _ & _ & _ & _ & Hact).
  fold p in Hact. rewrite Htag in Hact. simpl in Hact.
  destruct Hinv as (_ & _ & Hown).
  destruct (owned_tagged _ _ _ _ _ _ Hown Htag) as (a & len & k & Hget & _).
  destruct (owned_active _ _ _ _ _ _ _ Hown Hget) as (Hlt & _).
  exists s'. split; [done|]. split; [apply dict_get_keys; by eauto|].
  rewrite Hact. split.
  - destruct (decide _).
    + intros [->|[? _]%dict_keys_del_elem]%dict_keys_set_elem; [lia|done].
    + by intros [? _]%dict_keys_del_elem.
  - intros Hlen. rewrite decide_True by lia.
    apply dict_keys_set_elem. by left.
Qed.

(** ** The contract, claim by claim *)

(** C7.  Copying a TE that is not active returns [None] and changes nothing:
    [copy_te(x, offset)] for [x] not in [active_tes()] leaves the very same
    genome behind, in both classes, so the length, the active TEs, the
    rendering and the id of the next insertion are what they were. *)
Theorem copy_te_inactive_is_noop (r : realization) (g : carrier r)
    (x offset : Z) :
  inactive g x ->
  copy_te x offset g = (Ret None, g)
  /\ snapshot (snd (copy_te x offset g)) = snapshot g
  /\ counter (snd (copy_te x offset g)) = counter g
  /\ forall pos length,
       fst (insert_te pos length (snd (copy_te x offset g)))
       = fst (insert_te pos length g).
Proof.
  intros (l & Hl & Hx).
  assert (copy_te x offset g = (Ret None, g)) as ->; [|done].
  destruct r; simpl in *.
  - injection Hl as <-. apply dict_mem_false in Hx.
    unfold ListGenome.copy_te, bind, get. by rewrite Hx.
  - injection Hl as <-. apply dict_mem_false in Hx.
    unfold LinkedListGenome.copy_te, bind, get. by rewrite Hx.
Qed.

Lemma copy_te_inactive_is_noop_witness :
  let g := snd (run [Insert_te 2 3; Insert_te 2 2]
                  (create (G := carrier Linked) 10)) in
  inactive g 1
  /\ copy_te 1 5 g = (Ret None, g).
Proof.
  intros g.
  assert (inactive g 1) as H.
  { exists [2]. split; [reflexivity|].
    intros [?|?%elem_of_nil]%elem_of_cons; [lia | done]. }
  split; [exact H|].
  exact (proj1 (copy_te_inactive_is_noop Linked g 1 5 H)).
Defined.

(** C8, at the failing input.  [ListGenome.insert_te] advances the counter
    and enters the new id in the index before it makes the list of the new
    positions.  [insert_te(0, 2**63)] raises [OverflowError] there, and id 1
    is used up: the first insertion that returns hands out 2, and id 1 is in
    [active_tes()] with no position.  In a [LinkedListGenome] the counter is
    advanced last, and the ids of every run are [1, 2, ..., k]. *)
Theorem list_failed_insert_te_uses_up_an_id :
  observe (G := ListGenome.t) 10
    [Insert_te 0 (2 ^ 63); Insert_te 0 1; Active_tes; Str]
  = [Raise OverflowError; Ret (VId 2); Ret (VList [1; 2]);
     Ret (VStr "A----------")]
  /\ returned_ids (observe (G := ListGenome.t) 10
                     [Insert_te 0 (2 ^ 63); Insert_te 0 1]) = [2]
  /\ forall (n : Z) (ops : list op),
       let ids := returned_ids (observe (G := LinkedListGenome.t) n ops) in
       ids = ids_upto (length ids).
Proof.
  split; [vm_compute; reflexivity|]. split; [vm_compute; reflexivity|].
  intros n ops ids. subst ids. unfold observe.
  pose proof (run_ids ops (create (G := carrier Linked) n)) as H.
  rewrite create_counter in H.
  set (ids := returned_ids (fst (run ops (create n)))) in *.
  rewrite H at 1. unfold ids_upto. rewrite <- seq_shift, map_map.
  apply map_ext. intros i. lia.
Qed.

(** C4, as the code has it.  From [create(10)] the rendering is
    ["----------"]; [insert_te(2, 3)] returns 1, the rendering becomes
    ["--AAA--------"] (13 characters: the three new positions and eight
    dashes behind them) and the length is 13, in both classes. *)
Theorem scenario_insert_2_3 (r : realization) :
  observe (G := carrier r) 10 [Str; Insert_te 2 3; Str; Len]
  = [Ret (VStr "----------"); Ret (VId 1); Ret (VStr "--AAA--------");
     Ret (VInt 13)].
Proof. destruct r; vm_compute; reflexivity. Qed.

(** C4, as stated, fails: the rendering after [insert_te(2, 3)] is not the
    ten characters ["--AAA-----"]. *)
Lemma scenario_insert_2_3_not_ten_characters :
  ~ (forall r : realization,
       observe (G := carrier r) 10 [Str; Insert_te 2 3; Str; Len]
       = [Ret (VStr "----------"); Ret (VId 1); Ret (VStr "--AAA-----");
          Ret (VInt 13)]).
Proof.
  intros H. specialize (H Contiguous). vm_compute in H. discriminate H.
Qed.

(** C1, at the input where the classes part.  [insert_te(0, 3)] on a genome
    of size 10 puts the new TE at positions 0..2 of a [ListGenome] and at
    positions 1..3 of a [LinkedListGenome]: the same calls, two renderings. *)
Theorem insert_at_0_differs :
  observe (G := ListGenome.t) 10 [Insert_te 0 3; Str]
  = [Ret (VId 1); Ret (VStr "AAA----------")]
  /\ observe (G := LinkedListGenome.t) 10 [Insert_te 0 3; Str]
     = [Ret (VId 1); Ret (VStr "-AAA---------")].
Proof. split; vm_compute; reflexivity. Qed.

(** C2, at the failing input.  [disable_te(99)] on a [LinkedListGenome] that
    never issued id 99 raises [KeyError]; on a [ListGenome] it returns. *)
Theorem linked_disable_te_unknown_raises :
  observe (G := LinkedListGenome.t) 10 [Disable_te 99] = [Raise KeyError]
  /\ observe (G := ListGenome.t) 10 [Disable_te 99] = [Ret VUnit].
Proof. split; vm_compute; reflexivity. Qed.

(** C3, at the failing input.  [ListGenome.insert_te] does not reduce the
    position modulo the length: position 10 on a genome of size 10 raises
    [IndexError], where [LinkedListGenome.insert_te] wraps to position 0. *)
Theorem list_insert_te_out_of_range_raises :
  observe (G := ListGenome.t) 10 [Insert_te 10 3] = [Raise IndexError]
  /\ observe (G := LinkedListGenome.t) 10 [Insert_te 10 3] = [Ret (VId 1)].
Proof. split; vm_compute; reflexivity. Qed.

(** C5, at the failing input.  TE 1 owns position 1 and TE 2 starts at
    position 9 of a genome of length 12; [copy_te(2, 4)] has destination
    [(9 + 4) mod 12 = 1].  The [ListGenome] disables TE 1; the
    [LinkedListGenome] walks off the end of the chain, raises
    [AttributeError] and leaves TE 1 active. *)
Theorem linked_copy_te_misses_collision :
  observe (G := ListGenome.t) 10
    [Insert_te 1 1; Insert_te 9 1; Copy_te 2 4; Active_tes; Str]
  = [Ret (VId 1); Ret (VId 2); Ret (VId 3); Ret (VList [2; 3]);
     Ret (VStr "-Ax-------A--")]
  /\ observe (G := LinkedListGenome.t) 10
       [Insert_te 1 1; Insert_te 9 1; Copy_te 2 4; Active_tes; Str]
     = [Ret (VId 1); Ret (VId 2); Raise AttributeError; Ret (VList [1; 2]);
        Ret (VStr "-A-------A--")].
Proof. split; vm_compute; reflexivity. Qed.

(** C6, at the failing input.  TE 1 starts at position 8 of a genome of
    length 11, so [copy_te(1, 3)] has destination [(8 + 3) mod 11 = 0].  The
    [ListGenome] puts the copy at position 0; the [LinkedListGenome] adds
    [offset % length] to the position without wrapping and puts it at
    position 11. *)
Theorem linked_copy_te_does_not_wrap :
  observe (G := ListGenome.t) 10 [Insert_te 8 1; Copy_te 1 3; Str]
  = [Ret (VId 1); Ret (VId 2); Ret (VStr "A--------A--")]
  /\ observe (G := LinkedListGenome.t) 10 [Insert_te 8 1; Copy_te 1 3; Str]
     = [Ret (VId 1); Ret (VId 2); Ret (VStr "--------A--A")].
Proof. split; vm_compute; reflexivity. Qed.

(** C9.  After any sequence of calls on a fresh genome, [__str__] returns
    one character for every position, in order from position 0: ['-'] for
    an empty position, ['A'] for a position of an active TE and ['x'] for a
    position of a disabled TE, nothing in between; and [__len__] returns the
    number of positions, so the rendering is as long as the genome.  Both
    classes; neither call changes the genome. *)
Theorem render_one_char_per_position (r : realization) (n : Z)
    (ops : list op) :
  let g := snd (run ops (create (G := carrier r) n)) in
  exists ps : list position_tag,
    positions g ps
    /\ str g = (Ret (string_of_list_ascii (map tag_char ps)), g)
    /\ len g = (Ret (Z.of_nat (List.length ps)), g)
    /\ String.length (string_of_list_ascii (map tag_char ps)) = List.length ps.
Proof.
  intros g. destruct r.
  - exists (map (list_position (ListGenome.active_TE g))
              (ListGenome.nucleotide g)).
    split; [done|]. split; [|split].
    + simpl. unfold ListGenome.str, bind, get, ret. do 3 f_equal.
      rewrite map_map. apply map_ext. intros a. apply list_char_position.
    + simpl. unfold ListGenome.len, bind, get, ret.
      by rewrite length_map.
    + by rewrite string_length_of_list, !length_map.
  - assert (linked_wf g) as [l Hinv]
      by apply run_linked_wf, create_linked_wf.
    destruct (chain_snoc _ _ Hinv) as (l0 & z & ->).
    exists (map (linked_position (LinkedListGenome.active_TE g)
                   (LinkedListGenome.store g)) l0).
    split; [|split; [|split]].
    + exists l0, z. split; [apply Hinv | done].
    + simpl. rewrite (str_chain _ _ _ Hinv).
      by rewrite (linked_render_positions _ _ _ Hinv).
    + simpl. rewrite (len_chain _ _ _ Hinv). by rewrite length_map.
    + by rewrite string_length_of_list, !length_map.
Qed.

(** C10, as the code has it.  [insert_te(pos, 0)] after any sequence of
    calls on a fresh [ListGenome], at a valid index; and after calls with
    lengths of 0 or more on a [LinkedListGenome] made with at least one
    position, at any integer.  The call returns the current value of the
    counter, an id that is not active before the call, advances the counter
    by one and leaves the length alone.  In a [ListGenome] the id is then
    in [active_tes()] and owns no position, the sequence is unchanged, and
    the rendering is unchanged unless the position belongs to an active TE:
    that TE leaves [active_tes()] and the rendering is the one before with
    its characters turned to ['x'].  In a [LinkedListGenome] the id is not
    in [active_tes()]. *)
Theorem insert_te_zero_length (r : realization) (n : Z) (ops : list op)
    (pos : Z) :
  zero_length_run r n ops ->
  let g := snd (run ops (create (G := carrier r) n)) in
  valid_index g pos ->
  exists g',
    insert_te pos 0 g = (Ret (counter g), g')
    /\ counter g' = counter g + 1
    /\ inactive g (counter g)
    /\ fst (len g') = fst (len g)
    /\ zero_length_effect g g' pos (counter g).
Proof.
  intros Hrun g Hpos. destruct r.
  - assert (list_wf g) as Hwf by apply list_run_wf, list_create_wf.
    apply getitem_is_Some in Hpos.
    destruct (list_insert_te_0 g pos Hwf Hpos) as
      (g' & Hcall & Hc & Hnuc & Hfresh & Hin & Hnone & Hstr).
    exists g'. split; [done|]. split; [done|].
    split; [by apply inactive_list|]. split.
    { simpl. unfold ListGenome.len, bind, get, ret. simpl. by rewrite Hnuc. }
    split; [by eexists|]. split; [done|]. split; [done|].
    destruct Hpos as [a Ha]. exists a. split; [done|].
    destruct (ListGenome.in_active a (ListGenome.active_TE g)) eqn:Hact.
    + destruct a as [|t]; [done|]. simpl in Hact. exists t.
      destruct (list_insert_te_0_collision g pos t Hwf Ha Hact) as [Hgone Hx].
      replace (snd (ListGenome.insert_te pos 0 g)) with g' in Hgone, Hx
        by (change (insert_te pos 0 g) with (ListGenome.insert_te pos 0 g)
              in Hcall; by rewrite Hcall).
      split; [done|].
      split; [eexists; split; [done | by apply dict_mem_keys]|].
      split; [by apply inactive_list | exact Hx].
    + change (fst (ListGenome.str g') = fst (ListGenome.str g)).
      by rewrite (Hstr a Ha Hact).
  - destruct Hrun as [Hn Hops].
    destruct (create_linked_sync n) as [Hsync Hlen]; [lia|].
    destruct (run_linked_sync ops (create (G := LinkedListGenome.t) n) n Hops
                Hsync) as [Hsync' Hlen']; [rewrite Hlen; lia|].
    change (linked_sync g) in Hsync'.
    change (n <= LinkedListGenome.length g) in Hlen'.
    assert (0 < LinkedListGenome.length g) as Hg by lia.
    destruct (linked_insert_te_0 g pos Hsync' Hg) as
      (g' & Hcall & Hc & _ & Hfresh & Hout).
    exists g'. split; [done|]. split; [done|].
    split; [by apply inactive_linked|]. split.
    { pose proof (linked_insert_te_0_len g pos Hsync' Hg) as H.
      rewrite Hcall in H. exact H. }
    by apply inactive_linked.
Qed.

Lemma insert_te_zero_length_witness :
  let g := snd (run [Insert_te 2 3] (create (G := carrier Linked) 10)) in
  zero_length_run Linked 10 [Insert_te 2 3] /\ valid_index g 5
  /\ exists g',
       insert_te 5 0 g = (Ret (counter g), g')
       /\ counter g' = counter g + 1
       /\ inactive g (counter g)
       /\ fst (len g') = fst (len g)
       /\ zero_length_effect g g' 5 (counter g).
Proof.
  intros g.
  assert (zero_length_run Linked 10 [Insert_te 2 3]) as H1
    by (split; [lia | repeat constructor; simpl; lia]).
  assert (valid_index g 5) as H2 by exact I.
  split; [exact H1|]. split; [exact H2|].
  exact (insert_te_zero_length Linked 10 [Insert_te 2 3] 5 H1 H2).
Defined.

(** C10, as stated, fails.  On a [ListGenome] it is not so that
    [insert_te(pos, 0)] returns an id for every position in every state and
    leaves the rendering unchanged: on ["--AAA--------"], position 2
    belongs to the active TE 1, which the call disables, and the rendering
    becomes ["--xxx--------"]; and position 10 of a fresh genome of size 10
    raises [IndexError].  On a [LinkedListGenome] it is not so that
    [insert_te(pos, 0)] returns an id in every state: it raises
    [ZeroDivisionError] on a genome made with no position, and on a genome
    made with one position after [insert_te(0, -1)], which brings the
    [length] field to 0. *)
Lemma insert_te_zero_length_not_as_stated :
  ~ (forall (ops : list op) (pos : Z),
       let g := snd (run ops (create (G := ListGenome.t) 10)) in
       exists id g',
         insert_te pos 0 g = (Ret id, g')
         /\ active g' id
         /\ fst (str g') = fst (str g))
  /\ fst (insert_te 10 0 (create (G := ListGenome.t) 10)) = Raise IndexError
  /\ ~ (forall (n pos : Z),
          let g := create (G := LinkedListGenome.t) n in
          exists id g', insert_te pos 0 g = (Ret id, g') /\ inactive g' id)
  /\ ~ (forall (ops : list op) (pos : Z),
          let g := snd (run ops (create (G := LinkedListGenome.t) 1)) in
          exists id g', insert_te pos 0 g = (Ret id, g') /\ inactive g' id).
Proof.
  split; [|split; [|split]].
  - intros H. destruct (H [Insert_te 2 3] 2) as (id & g' & Hrun & _ & Hstr).
    vm_compute in Hrun. injection Hrun as <- <-. vm_compute in Hstr.
    discriminate Hstr.
  - vm_compute. reflexivity.
  - intros H. destruct (H 0 0) as (id & g' & Hrun & _).
    vm_compute in Hrun. discriminate Hrun.
  - intros H. destruct (H [Insert_te 0 (-1)] 0) as (id & g' & Hrun & _).
    vm_compute in Hrun. discriminate Hrun.
Qed.

(** * Beyond the contract

    What the code does besides: the exceptions of the two classes, the
    positions they accept, and what a call leaves behind. *)

(** ** Lists and chains *)

Lemma map_const_replicate {A B} (f : A -> B) (c : B) (l : list A) :
  (forall a, a ∈ l -> f a = c) -> map f l = replicate (List.length l) c.
Proof.
  induction l as [|a l IH]; intros H; simpl; [done|].
  rewrite (H a) by apply list_elem_of_here. f_equal. apply IH.
  intros b Hb. apply H. by apply list_elem_of_further.
Qed.

Lemma index_None {A} (p : A -> bool) (l : list A) :
  Py.index p l = None <-> forall a, a ∈ l -> p a = false.
Proof.
  induction l as [|a l IH]; simpl.
  - split; [by intros _ a ?%elem_of_nil | done].
  - destruct (p a) eqn:Hp.
    + split; [done|]. intros H. specialize (H a (list_elem_of_here _ _)).
      congruence.
    + rewrite fmap_None, IH. split.
      * intros H b [->|Hb]%elem_of_cons; [done | by apply H].
      * intros H b Hb. apply H. by apply list_elem_of_further.
Qed.

Lemma getitem_negative {A} (l : list A) (i : Z) :
  - Z.of_nat (List.length l) <= i < 0 ->
  Py.getitem l i = Py.getitem l (i + Z.of_nat (List.length l)).
Proof.
  intros Hi. unfold Py.getitem.
  destruct (Z.leb_spec 0 i); [lia|]. simpl.
  destruct (Z.leb_spec (- Z.of_nat (List.length l)) i); [|lia].
  destruct (Z.ltb_spec i 0); [|lia]. simpl.
  destruct (Z.leb_spec 0 (i + Z.of_nat (List.length l))); [|lia].
  destruct (Z.ltb_spec (i + Z.of_nat (List.length l))
              (Z.of_nat (List.length l))); [|lia].
  done.
Qed.

Lemma slice_index_negative (n i : Z) :
  - n <= i < 0 -> Py.slice_index n i = Py.slice_index n (i + n).
Proof.
  intros Hi. unfold Py.slice_index.
  destruct (Z.ltb_spec i 0); [|lia]. destruct (Z.ltb_spec (i + n) 0); lia.
Qed.


(** X1.  [ListGenome.insert_te] takes a position as a Python index of the
    list.  For a position outside [-len <= pos < len] it raises [IndexError]
    and leaves the genome as it was; a genome without positions accepts no
    position.  For a position inside, it never raises [IndexError] and the
    counter is advanced by one whatever comes: the call returns the current
    id, or it raises where the list of the new positions is made, with the
    sequence as it was: [OverflowError] when the length does not fit an
    index-sized integer (and always then), [MemoryError] for a length above
    0 within that range.  A length from [-2**63] to 0 always returns. *)
Theorem list_insert_te_index_error (g : ListGenome.t) (pos length : Z) :
  let n := Z.of_nat (List.length (ListGenome.nucleotide g)) in
  let r := ListGenome.insert_te pos length g in
  if decide (- n <= pos < n)
  then ListGenome.te_id (snd r) = ListGenome.te_id g + 1
       /\ match fst r with
          | Ret id => id = ListGenome.te_id g
          | Raise e =>
              ListGenome.nucleotide (snd r) = ListGenome.nucleotide g
              /\ ((e = OverflowError
                   /\ ~ (- Py.maxsize - 1 <= length <= Py.maxsize))
                  \/ (e = MemoryError /\ 0 < length <= Py.maxsize))
          | Diverge => False
          end
       /\ (- Py.maxsize - 1 <= length <= 0 ->
           fst r = Ret (ListGenome.te_id g))
       /\ (~ (- Py.maxsize - 1 <= length <= Py.maxsize) ->
           fst r = Raise OverflowError)
  else r = (Raise IndexError, g).
Proof.
  intros n r. subst r. destruct (decide _) as [Hin|Hout].
  - apply getitem_is_Some in Hin as [a Ha].
    assert (0 <= Py.max_list <= Py.maxsize) as Hm by (by vm_compute).
    destruct (Py.repeat_error length) as [e|] eqn:Hrep.
    + rewrite (list_insert_te_Raise _ _ _ _ _ Ha Hrep).
      cbn [fst snd ListGenome.nucleotide ListGenome.te_id].
      unfold Py.repeat_error in Hrep.
      destruct (Z.ltb_spec length (- Py.maxsize - 1)),
        (Z.ltb_spec Py.maxsize length); simpl in Hrep;
        try (injection Hrep as <-; split; [done|];
             split; [split; [done|left; split; [done|lia]]|];
             split; [lia | done]).
      destruct (Z.ltb_spec Py.max_list length); [|done].
      injection Hrep as <-. split; [done|].
      split; [split; [done|right; split; [done|lia]]|].
      split; lia.
    + rewrite (list_insert_te_Some _ _ _ _ Ha Hrep).
      cbn [fst snd ListGenome.nucleotide ListGenome.te_id].
      apply repeat_error_None in Hrep. split; [done|]. split; [done|].
      split; [done | lia].
  - apply list_insert_te_None.
    destruct (Py.getitem _ pos) as [a|] eqn:Ha; [|done].
    destruct Hout. apply getitem_is_Some. by eauto.
Qed.

(** X2.  A negative position of [ListGenome.insert_te] counts from the end
    of the list: for [-len <= pos < 0] the call does exactly what it does at
    [pos + len], which is [pos mod len]. *)
Theorem list_insert_te_negative_position (g : ListGenome.t)
    (pos length : Z) :
  - Z.of_nat (List.length (ListGenome.nucleotide g)) <= pos < 0 ->
  ListGenome.insert_te pos length g
  = ListGenome.insert_te
      (pos `mod` Z.of_nat (List.length (ListGenome.nucleotide g))) length g.
Proof.
  intros Hpos.
  set (n := Z.of_nat (List.length (ListGenome.nucleotide g))) in *.
  assert (pos `mod` n = pos + n) as ->.
  { symmetry. apply (Z.mod_unique pos n (-1) (pos + n)); lia. }
  unfold ListGenome.insert_te, bind, get, Py.slice_insert.
  rewrite (getitem_negative _ _ Hpos). fold n.
  by rewrite (slice_index_negative n pos Hpos).
Qed.

Lemma list_insert_te_negative_position_witness :
  let g := snd (run [Insert_te 2 3] (create (G := ListGenome.t) 10)) in
  - Z.of_nat (List.length (ListGenome.nucleotide g)) <= -1 < 0
  /\ ListGenome.insert_te (-1) 2 g
     = ListGenome.insert_te
         ((-1) `mod` Z.of_nat (List.length (ListGenome.nucleotide g))) 2 g.
Proof.
  intros g.
  assert (- Z.of_nat (List.length (ListGenome.nucleotide g)) <= -1 < 0) as H
    by (vm_compute; split; [discriminate | reflexivity]).
  split; [exact H|]. exact (list_insert_te_negative_position g (-1) 2 H).
Defined.

(** X4.  [ListGenome.copy_te] of an active TE that owns no position (a TE
    inserted with length 0) raises [ValueError]: [list.index] finds no
    element.  The genome is left as it was. *)
Theorem list_copy_te_without_position (g : ListGenome.t) (te offset : Z) :
  te ∈ Py.dict_keys (ListGenome.active_TE g) ->
  ListGenome.Te te ∉ ListGenome.nucleotide g ->
  ListGenome.copy_te te offset g = (Raise ValueError, g).
Proof.
  intros Hact Hpos. apply dict_mem_keys in Hact.
  unfold ListGenome.copy_te, bind, get. rewrite Hact. simpl negb. cbv iota.
  assert (Py.index (ListGenome.is_te te) (ListGenome.nucleotide g) = None)
    as ->; [|done].
  apply index_None. intros [|i] Ha; simpl; [done|].
  destruct (Z.eqb_spec i te) as [->|?]; done.
Qed.

Lemma list_copy_te_without_position_witness :
  let g := snd (run [Insert_te 2 0] (create (G := ListGenome.t) 10)) in
  1 ∈ Py.dict_keys (ListGenome.active_TE g)
  /\ (ListGenome.Te 1 ∉ ListGenome.nucleotide g)
  /\ ListGenome.copy_te 1 5 g = (Raise ValueError, g).
Proof.
  intros g.
  assert (1 ∈ Py.dict_keys (ListGenome.active_TE g)) as H1
    by (vm_compute; apply list_elem_of_here).
  assert (ListGenome.Te 1 ∉ ListGenome.nucleotide g) as H2.
  { vm_compute. intros H. apply list_elem_of_In in H. simpl in H.
    repeat (destruct H as [H|H]; [discriminate H|]). exact H. }
  split; [exact H1|]. split; [exact H2|].
  exact (list_copy_te_without_position g 1 5 H1 H2).
Defined.

(** ** Calls that do not return *)

Lemma repeat_error_Some n e :
  Py.repeat_error n = Some e -> at_repeat Contiguous e = true.
Proof.
  unfold Py.repeat_error. destruct (_ || _); [by intros [= <-]|].
  destruct (_ <? _); [by intros [= <-] | done].
Qed.

Lemma list_insert_te_failed (pos length : Z) (g : ListGenome.t) :
  match fst (ListGenome.insert_te pos length g) with
  | Ret _ => True
  | Raise e =>
      if at_repeat Contiguous e
      then used_up ListGenome.te_id g
             (snd (ListGenome.insert_te pos length g))
      else snd (ListGenome.insert_te pos length g) = g
  | Diverge => False
  end.
Proof.
  destruct (Py.getitem (ListGenome.nucleotide g) pos) as [a|] eqn:Ha.
  - destruct (Py.repeat_error length) as [e|] eqn:Hrep.
    + rewrite (list_insert_te_Raise _ _ _ _ _ Ha Hrep).
      cbn [fst snd]. rewrite (repeat_error_Some _ _ Hrep).
      split; [done|]. split; [|done]. eexists. split; [done|].
      cbn [ListGenome.active_TE]. apply dict_keys_set_elem. by left.
    + by rewrite (list_insert_te_Some _ _ _ _ Ha Hrep).
  - by rewrite (list_insert_te_None _ _ _ Ha).
Qed.

Lemma list_call_failed (o : op) (g : ListGenome.t) :
  match fst (call o g) with
  | Ret _ => True
  | Raise e =>
      if at_repeat Contiguous e
      then used_up ListGenome.te_id g (snd (call o g))
      else snd (call o g) = g
  | Diverge => False
  end.
Proof.
  destruct o; unfold call;
    cbn [insert_te copy_te disable_te active_tes len str ListGenome_Genome].
  - pose proof (list_insert_te_failed pos length g) as H. unfold bind.
    by destruct (ListGenome.insert_te pos length g) as [[v|e|] g'].
  - unfold ListGenome.copy_te, bind, get, Py.mod_, ret, raise.
    destruct (negb _); [done|].
    destruct (Py.index _ _) as [p|]; [|done].
    destruct (Py.dict_get _ _) as [len|]; [|done].
    destruct (_ =? 0); [done|].
    pose proof (list_insert_te_failed
      ((p + offset) `mod` Z.of_nat (List.length (ListGenome.nucleotide g)))
      len g) as H.
    by destruct (ListGenome.insert_te _ len g) as [[v|e|] g'].
  - unfold bind, ListGenome.disable_te. by destruct (Py.dict_mem _ _).
  - done.
  - done.
  - done.
Qed.

Lemma linked_call_failed (o : op) (s : LinkedListGenome.t) :
  linked_wf s ->
  match fst (call o s) with
  | Ret _ => True
  | _ => snd (call o s) = s
  end.
Proof.
  intros [l Hinv]. destruct o; unfold call;
    cbn [insert_te copy_te disable_te active_tes len str
         LinkedListGenome_Genome].
  - pose proof (insert_te_inv _ _ pos length Hinv) as H. simpl in H.
    unfold bind. destruct (decide _).
    + by destruct H as (s' & l' & -> & _).
    + by destruct H as (e & ->).
  - unfold bind.
    destruct (copy_te_inv _ _ te offset Hinv) as
      [[_ ->]|[(o & -> & Ho)|(a & len & p & s' & l' & _ & -> & _)]];
      [done| |done].
    by destruct o.
  - unfold bind.
    by destruct (disable_te_inv _ _ te Hinv) as [[_ ->]|(s' & -> & _)].
  - rewrite (linked_reads_same _
      (fun R HR => keeps_bind R _ _ (keeps_active_tes R)
                     (fun a => keeps_ret R (VList a)))).
    by destruct (fst _).
  - rewrite (linked_reads_same _
      (fun R HR => keeps_bind R _ _ (keeps_len R)
                     (fun a => keeps_ret R (VInt a)))).
    by destruct (fst _).
  - rewrite (linked_reads_same _
      (fun R HR => keeps_bind R _ _ (keeps_str R)
                     (fun a => keeps_ret R (VStr a)))).
    by destruct (fst _).
Qed.

(** X6.  What a call that raises leaves behind, after any sequence of calls
    on a fresh genome.  The genome is exactly as it was, with one exception:
    [ListGenome.insert_te], called directly or by [copy_te], that raises
    [OverflowError] or [MemoryError] where it makes the list of the new
    positions.  By then it has advanced the counter and entered the id in
    the index: the id is used up and active, and the length is as it was.
    A [LinkedListGenome] is as it was after every call that raises. *)
Theorem failed_call_effect (r : realization) (n : Z) (ops : list op)
    (o : op) :
  let g := snd (run ops (create (G := carrier r) n)) in
  match fst (call o g) with
  | Ret _ => True
  | Raise e =>
      if at_repeat r e
      then used_up counter g (snd (call o g))
      else snd (call o g) = g
  | Diverge => snd (call o g) = g
  end.
Proof.
  intros g. destruct r.
  - pose proof (list_call_failed o g) as H.
    change (match fst (call (G := ListGenome.t) o g) with
            | Ret _ => True
            | Raise e =>
                if at_repeat Contiguous e
                then used_up ListGenome.te_id g
                       (snd (call (G := ListGenome.t) o g))
                else snd (call (G := ListGenome.t) o g) = g
            | Diverge => snd (call (G := ListGenome.t) o g) = g
            end).
    by destruct (fst (call (G := ListGenome.t) o g)) as [v|e|].
  - pose proof (linked_call_failed o g) as H.
    change (match fst (call (G := LinkedListGenome.t) o g) with
            | Ret _ => True
            | Raise e => snd (call (G := LinkedListGenome.t) o g) = g
            | Diverge => snd (call (G := LinkedListGenome.t) o g) = g
            end).
    destruct (fst (call (G := LinkedListGenome.t) o g)) as [v|e|];
      [done| |]; apply H, run_linked_wf, create_linked_wf.
Qed.

(** X3.  The offset of [ListGenome.copy_te] counts around the circle: adding
    any multiple of the length to it, forwards or backwards, gives the same
    call. *)
Theorem list_copy_te_offset_circular (g : ListGenome.t) (te offset k : Z) :
  ListGenome.copy_te te
    (offset + k * Z.of_nat (List.length (ListGenome.nucleotide g))) g
  = ListGenome.copy_te te offset g.
Proof.
  unfold ListGenome.copy_te, bind, get, Py.mod_, ret.
  destruct (negb _); [reflexivity|].
  destruct (Py.index _ _) as [pos|]; [|reflexivity].
  destruct (Py.dict_get _ _) as [len|]; [|reflexivity].
  destruct (_ =? 0) eqn:H0; [reflexivity|].
  rewrite Z.add_assoc. by rewrite Z_mod_plus_full.
Qed.



(** X7.  [insert_te] makes the genome longer by the length of the TE, and
    by nothing when the length is negative: after any sequence of calls on a
    fresh genome, a call [insert_te(pos, length)] that returns takes
    [len()] from [k] to [k + max(0, length)], in both classes. *)
Theorem insert_te_grows_by_length (r : realization) (n : Z) (ops : list op)
    (pos length id : Z) (g' : carrier r) :
  let g := snd (run ops (create (G := carrier r) n)) in
  insert_te pos length g = (Ret id, g') ->
  exists k, len g = (Ret k, g) /\ len g' = (Ret (k + Z.max 0 length), g').
Proof.
  intros g Hrun. destruct r.
  - change (ListGenome.insert_te pos length g = (Ret id, g')) in Hrun.
    destruct (Py.getitem (ListGenome.nucleotide g) pos) as [a|] eqn:Ha;
      [|by rewrite (list_insert_te_None _ _ _ Ha) in Hrun].
    destruct (Py.repeat_error length) as [e|] eqn:Hrep;
      [by rewrite (list_insert_te_Raise _ _ _ _ _ Ha Hrep) in Hrun|].
    rewrite (list_insert_te_Some _ _ _ _ Ha Hrep) in Hrun.
    injection Hrun as _ <-.
    eexists. split; [reflexivity|].
    cbn [len carrier_Genome ListGenome_Genome].
    unfold ListGenome.len, bind, get, ret.
    cbn [ListGenome.nucleotide]. do 2 f_equal.
    rewrite length_slice_insert, length_replicate. lia.
  - assert (linked_wf g) as [l Hinv] by apply run_linked_wf, create_linked_wf.
    pose proof (insert_te_inv _ _ pos length Hinv) as H. simpl in H, Hrun.
    destruct (decide _).
    2:{ destruct H as (e & H). rewrite H in Hrun. done. }
    destruct H as (s' & l' & H & Hinv' & _ & _ & _ & Hlen & _).
    rewrite H in Hrun. injection Hrun as _ <-.
    destruct (chain_snoc _ _ Hinv) as (l0 & z & ->).
    destruct (chain_snoc _ _ Hinv') as (l0' & z' & ->).
    exists (Z.of_nat (List.length l0)). simpl.
    rewrite (len_chain _ _ _ Hinv), (len_chain _ _ _ Hinv').
    split; [done|]. do 2 f_equal. rewrite !length_app in Hlen. simpl in Hlen.
    lia.
Qed.

Lemma insert_te_grows_by_length_witness :
  let g := snd (run [Insert_te 2 3] (create (G := carrier Linked) 10)) in
  let g' := snd (insert_te 5 2 g) in
  insert_te 5 2 g = (Ret 2, g')
  /\ exists k, len g = (Ret k, g) /\ len g' = (Ret (k + Z.max 0 2), g').
Proof.
  intros g g'.
  assert (insert_te 5 2 g = (Ret 2, g')) as H by (vm_compute; reflexivity).
  split; [exact H|].
  exact (insert_te_grows_by_length Linked 10 [Insert_te 2 3] 5 2 2 g' H).
Defined.

(** X8.  [LinkedListGenome.insert_te] at position 0 is [insert_te] at
    position 1, in every state: the walk [range(0, position - 1)] is empty
    for both, so the new TE goes behind the head. *)
Theorem linked_insert_te_position_0_is_1 (s : LinkedListGenome.t)
    (length : Z) :
  LinkedListGenome.insert_te 0 length s = LinkedListGenome.insert_te 1 length s.
Proof.
  rewrite !insert_te_splice. unfold bind at 1 3. unfold Py.mod_.
  destruct (Z.eqb_spec (LinkedListGenome.length s) 0) as [H0|H0];
    [reflexivity|].
  unfold ret at 1 3. cbv beta iota.
  assert (Py.range_len 0 (0 `mod` LinkedListGenome.length s - 1)
          = Py.range_len 0 (1 `mod` LinkedListGenome.length s - 1)) as ->;
    [|reflexivity].
  unfold Py.range_len. rewrite Z.mod_0_l by done.
  destruct (Z_lt_le_dec 0 (LinkedListGenome.length s)).
  - pose proof (Z.mod_pos_bound 1 (LinkedListGenome.length s)).
    destruct (Z.eq_dec (LinkedListGenome.length s) 1) as [->|].
    + reflexivity.
    + rewrite Z.mod_1_l by lia. reflexivity.
  - pose proof (Z.mod_neg_bound 1 (LinkedListGenome.length s)). lia.
Qed.

(** X9.  The position of [LinkedListGenome.insert_te] counts around the
    circle: adding any multiple of the [length] field to it gives the same
    call, in every state. *)
Theorem linked_insert_te_circular (s : LinkedListGenome.t)
    (pos length k : Z) :
  LinkedListGenome.insert_te (pos + k * LinkedListGenome.length s) length s
  = LinkedListGenome.insert_te pos length s.
Proof.
  rewrite !insert_te_splice. unfold bind at 1 3. unfold Py.mod_.
  destruct (Z.eqb_spec (LinkedListGenome.length s) 0) as [H0|H0];
    [reflexivity|].
  by rewrite Z_mod_plus_full.
Qed.

(** X10.  On a [LinkedListGenome] made with a size of 0 or more and used
    through calls with lengths of 0 or more, the [length] field is what
    [__len__] counts along the chain. *)
Theorem linked_length_field (n : Z) (ops : list op) :
  0 <= n -> Forall valid_op ops ->
  let s := snd (run ops (create (G := LinkedListGenome.t) n)) in
  LinkedListGenome.len s = (Ret (LinkedListGenome.length s), s).
Proof.
  intros Hn Hops s.
  destruct (create_linked_sync n Hn) as [Hsync Hlen].
  destruct (run_linked_sync ops _ n Hops Hsync) as [(l & Hinv & Hl) _];
    [lia|].
  fold s in Hinv, Hl. destruct (chain_snoc _ _ Hinv) as (l0 & z & ->).
  rewrite (len_chain _ _ _ Hinv). do 2 f_equal.
  rewrite length_app in Hl. simpl in Hl. lia.
Qed.

Lemma linked_length_field_witness :
  let s := snd (run [Insert_te 2 3; Disable_te 1; Insert_te 0 0]
                  (create (G := LinkedListGenome.t) 10)) in
  0 <= 10
  /\ Forall valid_op [Insert_te 2 3; Disable_te 1; Insert_te 0 0]
  /\ LinkedListGenome.len s = (Ret (LinkedListGenome.length s), s).
Proof.
  intros s.
  assert (0 <= 10) as H1 by lia.
  assert (Forall valid_op [Insert_te 2 3; Disable_te 1; Insert_te 0 0]) as H2
    by (repeat constructor; simpl; lia).
  split; [exact H1|]. split; [exact H2|].
  exact (linked_length_field 10 _ H1 H2).
Defined.

(** X11.  [LinkedListGenome.insert_te] accepts every position: on a genome
    made with at least one position and used through calls with lengths of
    0 or more, it returns the current id for every integer position and
    every length. *)
Theorem linked_insert_te_total (n : Z) (ops : list op) (pos length : Z) :
  1 <= n -> Forall valid_op ops ->
  let s := snd (run ops (create (G := LinkedListGenome.t) n)) in
  exists s',
    LinkedListGenome.insert_te pos length s
    = (Ret (LinkedListGenome.next_TE_id s), s')
    /\ LinkedListGenome.next_TE_id s' = LinkedListGenome.next_TE_id s + 1.
Proof.
  intros Hn Hops s.
  destruct (create_linked_sync n) as [Hsync Hlen]; [lia|].
  destruct (run_linked_sync ops _ n Hops Hsync) as [(l & Hinv & Hl) Hle];
    [lia|].
  fold s in Hinv, Hl, Hle.
  pose proof (insert_te_inv _ _ pos length Hinv) as H. simpl in H.
  assert (0 < LinkedListGenome.length s) as Hpos by lia.
  pose proof (Z.mod_pos_bound pos (LinkedListGenome.length s) Hpos) as Hmod.
  rewrite decide_True in H by (unfold Py.range_len; lia).
  destruct H as (s' & l' & Hrun & _ & _ & _ & Hnx & _).
  by exists s'.
Qed.

Lemma linked_insert_te_total_witness :
  let s := snd (run [Insert_te 2 3] (create (G := LinkedListGenome.t) 10)) in
  1 <= 10 /\ Forall valid_op [Insert_te 2 3]
  /\ exists s',
       LinkedListGenome.insert_te (-40) 2 s
       = (Ret (LinkedListGenome.next_TE_id s), s')
       /\ LinkedListGenome.next_TE_id s' = LinkedListGenome.next_TE_id s + 1.
Proof.
  intros s.
  assert (1 <= 10) as H1 by lia.
  assert (Forall valid_op [Insert_te 2 3]) as H2
    by (repeat constructor; simpl; lia).
  split; [exact H1|]. split; [exact H2|].
  exact (linked_insert_te_total 10 [Insert_te 2 3] (-40) 2 H1 H2).
Defined.

(** ** A fresh genome *)




(** ** [disable_te] *)

(** X13.  Disabling a TE a second time: [ListGenome.disable_te] returns and
    changes nothing, [LinkedListGenome.disable_te] raises [KeyError].  After
    any sequence of calls on a fresh genome and one [disable_te(te)],
    whatever its outcome, the TE is out of the active index, and the
    [LinkedListGenome] reads the index without a test. *)
Theorem disable_te_twice (n : Z) (ops : list op) (te : Z) :
  (let g := snd (run ops (create (G := ListGenome.t) n)) in
   disable_te te (snd (disable_te te g)) = (Ret tt, snd (disable_te te g)))
  /\ (let s := snd (run ops (create (G := LinkedListGenome.t) n)) in
      disable_te te (snd (disable_te te s))
      = (Raise KeyError, snd (disable_te te s))).
Proof.
  split.
  - intros g. simpl. unfold ListGenome.disable_te at 2 3.
    destruct (Py.dict_mem te (ListGenome.active_TE g)) eqn:Hmem; simpl.
    + apply list_disable_te_inactive. simpl.
      by intros [? _]%dict_keys_del_elem.
    + apply list_disable_te_inactive. by apply dict_mem_false.
  - intros s.
    assert (linked_wf s) as [l Hinv] by apply run_linked_wf, create_linked_wf.
    simpl.
    destruct (disable_te_inv _ _ te Hinv) as
      [[Hout Hrun]|(s' & Hrun & Hinv' & _ & _ & _ & Hact)];
      rewrite Hrun; simpl.
    + done.
    + destruct (disable_te_inv _ _ te Hinv') as
        [[_ Hrun']|(s'' & _ & _ & _ & _ & _ & _)]; [done|].
      unfold LinkedListGenome.disable_te, bind, get.
      assert (Py.dict_get te (LinkedListGenome.active_TE s') = None) as ->;
        [|done].
      rewrite Hact, dict_get_del. by rewrite Z.eqb_refl.
Qed.

Lemma dict_mem_del {V} (k k' : Z) (d : Py.dict V) :
  Py.dict_mem k' (Py.dict_del k d) = negb (k =? k') && Py.dict_mem k' d.
Proof.
  unfold Py.dict_mem. rewrite dict_get_del. by destruct (k =? k').
Qed.

Lemma owner_at_retagged (l : list nat) (h : list LinkedListGenome.Node)
    (a : nat) :
  owner_at (retagged l h) a = owner_at h a.
Proof.
  unfold owner_at. rewrite lookup_retagged.
  destruct (decide _); [|done]. by destruct (h !! a).
Qed.

Lemma list_position_del (d : Py.dict Z) (te : Z) (a : ListGenome.nucl) :
  list_position (Py.dict_del te d) a = list_position d a
  \/ (list_position d a = ActiveTE
      /\ list_position (Py.dict_del te d) a = DisabledTE).
Proof.
  destruct a as [|j]; simpl; [by left|]. rewrite dict_mem_del.
  destruct (te =? j); simpl; [|by left].
  destruct (Py.dict_mem j d); [by right | by left].
Qed.

Lemma linked_position_del (d : Py.dict (nat * Z)) (te : Z)
    (h h' : list LinkedListGenome.Node) (a : nat) :
  owner_at h' a = owner_at h a ->
  linked_position (Py.dict_del te d) h' a = linked_position d h a
  \/ (linked_position d h a = ActiveTE
      /\ linked_position (Py.dict_del te d) h' a = DisabledTE).
Proof.
  intros Ho. unfold linked_position. rewrite Ho.
  destruct (owner_at h a =? 0); [by left|]. rewrite dict_mem_del.
  destruct (te =? owner_at h a); simpl; [|by left].
  destruct (Py.dict_mem _ d); [by right | by left].
Qed.

Lemma list_disable_te_state (g : ListGenome.t) (te : Z) :
  snd (ListGenome.disable_te te g)
  = ListGenome.mk (ListGenome.nucleotide g)
      (Py.dict_del te (ListGenome.active_TE g)) (ListGenome.te_id g).
Proof.
  unfold ListGenome.disable_te.
  destruct (Py.dict_mem te (ListGenome.active_TE g)) eqn:Hmem; [done|].
  simpl. apply dict_mem_false in Hmem. rewrite dict_del_absent by done.
  by destruct g.
Qed.

Lemma linked_disable_te_state (s : LinkedListGenome.t) (l : list nat)
    (te : Z) :
  linked_inv s l ->
  exists h',
    snd (LinkedListGenome.disable_te te s)
    = LinkedListGenome.mk h' (LinkedListGenome.head s)
        (LinkedListGenome.length s)
        (Py.dict_del te (LinkedListGenome.active_TE s))
        (LinkedListGenome.next_TE_id s)
    /\ linked_inv (snd (LinkedListGenome.disable_te te s)) l
    /\ forall a, owner_at h' a = owner_at (LinkedListGenome.store s) a.
Proof.
  intros Hinv.
  destruct (Py.dict_get te (LinkedListGenome.active_TE s)) as [[a len]|]
    eqn:Hget.
  - destruct (disable_te_active _ _ _ _ _ Hinv Hget) as (k & _ & Hrun & H).
    rewrite Hrun. simpl. eexists. split; [done|]. split; [done|].
    intros b. apply owner_at_retagged.
  - assert (te ∉ Py.dict_keys (LinkedListGenome.active_TE s)) as Hout.
    { apply dict_mem_false. unfold Py.dict_mem. by rewrite Hget. }
    unfold LinkedListGenome.disable_te, bind, get. rewrite Hget. simpl.
    exists (LinkedListGenome.store s). rewrite dict_del_absent by done.
    split; [by destruct s|]. by split.
Qed.

(** X14.  What [disable_te(te)] leaves behind, after any sequence of calls
    on a fresh genome of either class and whatever its outcome:
    [active_tes()] is the list from before without [te], in the same order;
    the length and the id counter are what they were; and no position
    changes but from active to disabled. *)
Theorem disable_te_effect (r : realization) (n : Z) (ops : list op)
    (te : Z) :
  let g := snd (run ops (create (G := carrier r) n)) in
  let g' := snd (disable_te te g) in
  (exists l, fst (active_tes g) = Ret l
     /\ fst (active_tes g') = Ret (List.filter (fun k => negb (k =? te)) l))
  /\ fst (len g') = fst (len g)
  /\ counter g' = counter g
  /\ exists ps ps', positions g ps /\ positions g' ps'
       /\ List.length ps' = List.length ps
       /\ forall i p, ps !! i = Some p ->
            ps' !! i = Some p
            \/ (p = ActiveTE /\ ps' !! i = Some DisabledTE).
Proof.
  intros g g'. destruct r.
  - assert (g' = ListGenome.mk (ListGenome.nucleotide g)
                   (Py.dict_del te (ListGenome.active_TE g))
                   (ListGenome.te_id g)) as Hg'
      by apply list_disable_te_state.
    clearbody g'. subst g'. simpl. split; [|split; [done|split; [done|]]].
    { eexists. split; [done|]. by rewrite dict_keys_del. }
    eexists _, _. split; [done|]. split; [done|]. simpl.
    split; [by rewrite !length_map|].
    intros i p Hi. rewrite list_lookup_fmap in Hi. rewrite list_lookup_fmap.
    destruct (ListGenome.nucleotide g !! i) as [a|]; [|done]. simpl in *.
    injection Hi as <-.
    destruct (list_position_del (ListGenome.active_TE g) te a) as [->|[? ->]];
      [by left | by right].
  - assert (linked_wf g) as [l Hinv] by apply run_linked_wf, create_linked_wf.
    destruct (linked_disable_te_state g l te Hinv) as (h' & Hg' & Hinv' & Ho).
    change (snd (LinkedListGenome.disable_te te g)) with g' in Hg', Hinv'.
    clearbody g'. destruct (chain_snoc _ _ Hinv) as (l0 & z & ->).
    simpl. split; [|split; [|split]].
    + eexists. split; [done|]. rewrite Hg'. simpl. by rewrite dict_keys_del.
    + by rewrite (len_chain _ _ _ Hinv), (len_chain _ _ _ Hinv').
    + by rewrite Hg'.
    + eexists _, _. split; [exists l0, z; split; [apply Hinv | done]|].
      split; [exists l0, z; split; [apply Hinv' | done]|].
      split; [by rewrite !length_map|].
      intros i p Hi. rewrite list_lookup_fmap in Hi. rewrite list_lookup_fmap.
      destruct (l0 !! i) as [a|]; [|done]. simpl in *. injection Hi as <-.
      rewrite Hg'. simpl.
      destruct (linked_position_del (LinkedListGenome.active_TE g) te
                  (LinkedListGenome.store g) h' a (Ho a)) as [->|[? ->]];
        [by left | by right].
Qed.

(** ** The blocks of a [ListGenome] *)

Lemma getitem_slice_index {A} (l : list A) (i : Z) (a : A) :
  Py.getitem l i = Some a ->
  l !! Py.slice_index (Z.of_nat (List.length l)) i = Some a.
Proof.
  unfold Py.getitem, Py.slice_index.
  destruct (Z.leb_spec 0 i); simpl.
  - destruct (Z.ltb_spec i (Z.of_nat (List.length l))); simpl.
    + destruct (Z.ltb_spec i 0); [lia|]. by rewrite Z.min_l by lia.
    + destruct (Z.leb_spec (- Z.of_nat (List.length l)) i); simpl; [|done].
      destruct (Z.ltb_spec i 0); [lia|done].
  - destruct (Z.leb_spec (- Z.of_nat (List.length l)) i); simpl; [|done].
    destruct (Z.ltb_spec i 0); [|lia]. simpl. by rewrite Z.max_r by lia.
Qed.

Lemma elem_of_take_drop {A} (l : list A) (p : nat) (a : A) :
  a ∈ take p l \/ a ∈ drop p l -> a ∈ l.
Proof. intros H. rewrite <- (take_drop p l). by apply elem_of_app. Qed.

Lemma block_insert (l new : list ListGenome.nucl) (t : Z) (k p : nat)
    (a : ListGenome.nucl) :
  block l t k -> l !! p = Some a -> a <> ListGenome.Te t ->
  ListGenome.Te t ∉ new ->
  block (take p l ++ new ++ drop p l) t k.
Proof.
  intros (l1 & l2 & -> & H1 & H2) Hp Ha Hnew.
  destruct (decide (p < List.length l1)%nat) as [Hlt|Hge].
  - exists (take p l1 ++ new ++ drop p l1), l2.
    rewrite take_app_le, drop_app_le by lia.
    split; [by rewrite <- !app_assoc|]. split; [|done].
    rewrite !not_elem_of_app. split; [|split; [done|]].
    + intros H. apply H1. apply (elem_of_take_drop _ p). by left.
    + intros H. apply H1. apply (elem_of_take_drop _ p). by right.
  - assert (List.length l1 + k <= p)%nat as Hge'.
    { destruct (decide (List.length l1 + k <= p)%nat); [done|].
      rewrite lookup_app_r in Hp by lia.
      rewrite lookup_app_l in Hp by (rewrite length_replicate; lia).
      apply lookup_replicate in Hp as [-> _]. done. }
    exists l1, (take (p - List.length l1 - k) l2 ++ new
                ++ drop (p - List.length l1 - k) l2).
    rewrite take_app_ge, drop_app_ge by lia.
    rewrite take_app_ge, drop_app_ge by (rewrite length_replicate; lia).
    rewrite length_replicate. split; [by rewrite <- !app_assoc|].
    split; [done|].
    rewrite !not_elem_of_app. split; [|split; [done|]].
    + intros H. apply H2.
      apply (elem_of_take_drop _ (p - List.length l1 - k)). by left.
    + intros H. apply H2.
      apply (elem_of_take_drop _ (p - List.length l1 - k)). by right.
Qed.

Lemma list_insert_te_blocks (g : ListGenome.t) (pos length' : Z) :
  list_wf g -> list_blocks g ->
  list_blocks (snd (ListGenome.insert_te pos length' g)).
Proof.
  intros [Hn Hk] Hb.
  destruct (Py.getitem (ListGenome.nucleotide g) pos) as [a|] eqn:Ha.
  2:{ by rewrite list_insert_te_None. }
  assert (forall t len,
            ListGenome.te_id g <> t ->
            Py.dict_get t
              (if ListGenome.in_active a (ListGenome.active_TE g)
               then ListGenome.del_active a (ListGenome.active_TE g)
               else ListGenome.active_TE g) = Some len ->
            Py.dict_get t (ListGenome.active_TE g) = Some len
            /\ a <> ListGenome.Te t) as Hold.
  { intros t len Hne Hget. destruct a as [|j]; simpl in Hget; [done|].
    destruct (Py.dict_mem j (ListGenome.active_TE g)) eqn:Hmem.
    - rewrite dict_get_del in Hget.
      destruct (Z.eqb_spec j t); [done|]. split; [done | congruence].
    - split; [done|]. intros [= ->]. unfold Py.dict_mem in Hmem.
      by rewrite Hget in Hmem. }
  pose proof (getitem_slice_index _ _ _ Ha) as Hp.
  destruct (Py.repeat_error length') as [e|] eqn:Hrep.
  - rewrite (list_insert_te_Raise _ _ _ _ _ Ha Hrep).
    intros t len Hget.
    cbn [snd ListGenome.nucleotide ListGenome.active_TE] in *.
    rewrite dict_get_set in Hget.
    destruct (Z.eqb_spec (ListGenome.te_id g) t) as [<-|Hne].
    + left. intros H. by eapply Z.lt_irrefl, Hn.
    + destruct (Hold t len Hne Hget) as [Hget' _]. by apply Hb.
  - rewrite (list_insert_te_Some _ _ _ _ Ha Hrep).
    intros t len Hget.
    cbn [snd ListGenome.nucleotide ListGenome.active_TE] in *.
    rewrite dict_get_set in Hget. unfold Py.slice_insert.
    set (p := Py.slice_index _ pos) in *.
    destruct (Z.eqb_spec (ListGenome.te_id g) t) as [<-|Hne].
    + injection Hget as <-. right. split; [done|].
      exists (take p (ListGenome.nucleotide g)),
             (drop p (ListGenome.nucleotide g)).
      split; [done|].
      split; intros H; (eapply Z.lt_irrefl, Hn, elem_of_take_drop); eauto.
    + destruct (Hold t len Hne Hget) as [Hget' Hat].
      assert (ListGenome.Te t
              ∉ replicate (Z.to_nat length') (ListGenome.Te (ListGenome.te_id g)))
        as Hnew by (intros [[= ?] _]%elem_of_replicate; done).
      destruct (Hb t len Hget') as [Hno|[Hlen Hblock]].
      * left. rewrite !not_elem_of_app. split; [|split; [done|]].
        -- intros H. apply Hno. apply (elem_of_take_drop _ p). by left.
        -- intros H. apply Hno. apply (elem_of_take_drop _ p). by right.
      * right. split; [done|]. by apply block_insert with a.
Qed.

Lemma list_copy_te_state (g : ListGenome.t) (te offset : Z) :
  snd (ListGenome.copy_te te offset g) = g
  \/ exists dst len,
       snd (ListGenome.copy_te te offset g)
       = snd (ListGenome.insert_te dst len g).
Proof.
  unfold ListGenome.copy_te, bind, get, Py.mod_, ret, raise.
  destruct (negb _); [by left|].
  destruct (Py.index _ _) as [pos|]; [|by left].
  destruct (Py.dict_get _ _) as [len|]; [|by left].
  destruct (_ =? 0); [by left|]. right.
  exists ((pos + offset)
          `mod` Z.of_nat (List.length (ListGenome.nucleotide g))), len.
  by destruct (ListGenome.insert_te _ len g) as [[?|?|] ?].
Qed.

Lemma list_call_blocks (o : op) (g : ListGenome.t) :
  list_wf g -> list_blocks g -> list_blocks (snd (call o g)).
Proof.
  intros Hwf Hb. destruct o; unfold call;
    cbn [insert_te copy_te disable_te active_tes len str ListGenome_Genome].
  - pose proof (list_insert_te_blocks g pos length Hwf Hb) as H.
    unfold bind. by destruct (ListGenome.insert_te _ _ _) as [[]].
  - assert (list_blocks (snd (ListGenome.copy_te te offset g))) as H.
    { destruct (list_copy_te_state g te offset) as [->|(dst & len & ->)];
        [done | by apply list_insert_te_blocks]. }
    unfold bind. by destruct (ListGenome.copy_te _ _ _) as [[]].
  - assert (list_blocks (snd (ListGenome.disable_te te g))) as H.
    { rewrite list_disable_te_state. intros t len Hget. simpl in *.
      rewrite dict_get_del in Hget. destruct (te =? t); [done|].
      by apply Hb. }
    unfold bind. by destruct (ListGenome.disable_te _ _) as [[]].
  - done.
  - done.
  - done.
Qed.

Lemma list_run_blocks (ops : list op) (g : ListGenome.t) :
  list_wf g -> list_blocks g -> list_blocks (snd (run ops g)).
Proof.
  revert g. induction ops as [|o ops IH]; intros g Hwf Hb; simpl; [done|].
  pose proof (list_call_wf o g Hwf) as Hwf1.
  pose proof (list_call_blocks o g Hwf Hb) as Hb1.
  destruct (call o g) as [res g1]. specialize (IH g1 Hwf1 Hb1).
  by destruct (run ops g1) as [rs g2].
Qed.

Lemma list_create_blocks (n : Z) : list_blocks (create (G := ListGenome.t) n).
Proof.
  intros t l. simpl. destruct (Py.repeat_error n) as [e|] eqn:Hrep.
  - by rewrite (list_init_Raise _ _ Hrep).
  - by rewrite (list_init_Ret _ Hrep).
Qed.



(** X15.  In a [ListGenome], after any sequence of calls on a fresh genome,
    an active TE owns no position at all, or one block of neighbouring
    positions, as long as the length on record for it (none for a length of
    0 or less): the sequence is a part without the id, the id repeated, and
    a part without the id, and the length on record is one of which a list
    can be made.  An active TE without a position is what an [insert_te]
    leaves behind that raises at line 123, after line 122 recorded the id.
    An insertion never splits an active TE: the TE at the position is
    disabled first. *)
Theorem list_active_te_is_a_block (n : Z) (ops : list op) (te len : Z) :
  let g := snd (run ops (create (G := ListGenome.t) n)) in
  Py.dict_get te (ListGenome.active_TE g) = Some len ->
  ListGenome.Te te ∉ ListGenome.nucleotide g
  \/ (- Py.maxsize - 1 <= len <= Py.max_list
      /\ exists l1 l2,
           ListGenome.nucleotide g
           = l1 ++ replicate (Z.to_nat len) (ListGenome.Te te) ++ l2
           /\ (ListGenome.Te te ∉ l1) /\ (ListGenome.Te te ∉ l2)).
Proof.
  intros g Hget.
  assert (list_blocks g) as Hb
    by (apply list_run_blocks; [apply list_create_wf | apply list_create_blocks]).
  destruct (Hb te len Hget) as [?|[Hrep Hblock]]; [by left|].
  right. split; [by apply repeat_error_None | exact Hblock].
Qed.

Lemma list_active_te_is_a_block_witness :
  let g := snd (run [Insert_te 2 3; Insert_te 0 2; Copy_te 1 6]
                  (create (G := ListGenome.t) 10)) in
  Py.dict_get 1 (ListGenome.active_TE g) = Some 3
  /\ (ListGenome.Te 1 ∉ ListGenome.nucleotide g
      \/ (- Py.maxsize - 1 <= 3 <= Py.max_list
          /\ exists l1 l2,
               ListGenome.nucleotide g
               = l1 ++ replicate (Z.to_nat 3) (ListGenome.Te 1) ++ l2
               /\ (ListGenome.Te 1 ∉ l1) /\ (ListGenome.Te 1 ∉ l2))).
Proof.
  intros g.
  assert (Py.dict_get 1 (ListGenome.active_TE g) = Some 3) as H
    by (vm_compute; reflexivity).
  split; [exact H|].
  exact (list_active_te_is_a_block 10
           [Insert_te 2 3; Insert_te 0 2; Copy_te 1 6] 1 3 H).
Defined.

(** X16.  In a [LinkedListGenome], after any sequence of calls on a fresh
    genome, the chain from the head visits no node twice and ends, and an
    active TE has a length of 1 or more: its entry in [active_TE] holds the
    first of [length] neighbouring nodes of the chain, which are the nodes
    tagged active with its id, none of them the head or the last node. *)
Theorem linked_active_te_is_a_run (n : Z) (ops : list op) (te : Z)
    (a : nat) (len : Z) :
  let s := snd (run ops (create (G := LinkedListGenome.t) n)) in
  Py.dict_get te (LinkedListGenome.active_TE s) = Some (a, len) ->
  0 < len
  /\ exists l k,
       seg (LinkedListGenome.store s) (Some (LinkedListGenome.head s)) l None
       /\ NoDup l
       /\ l !! k = Some a
       /\ (1 <= k)%nat /\ (k + Z.to_nat len < List.length l)%nat
       /\ forall j, tag_at (LinkedListGenome.store s) l j = Some (1, te)
                    <-> (k <= j < k + Z.to_nat len)%nat.
Proof.
  intros s Hget.
  assert (linked_wf s) as [l (Hseg & Hnd & Hown)]
    by apply run_linked_wf, create_linked_wf.
  destruct (owned_active _ _ _ _ _ _ _ Hown Hget) as
    (_ & Hpos & k & Hk1 & Hk2 & Hk & Hrun).
  split; [done|]. exists l, k. do 5 (split; [done|]).
  intros j. split; [|by apply Hrun].
  intros Htag.
  destruct (owned_tagged _ _ _ _ _ _ Hown Htag) as
    (a' & len' & k' & Hget' & Hk' & Hj).
  rewrite Hget in Hget'. injection Hget' as <- <-.
  by rewrite (NoDup_lookup _ _ _ _ Hnd Hk Hk').
Qed.

Lemma linked_active_te_is_a_run_witness :
  let s := snd (run [Insert_te 2 3; Insert_te 0 2; Copy_te 1 6]
                  (create (G := LinkedListGenome.t) 10)) in
  Py.dict_get 1 (LinkedListGenome.active_TE s) = Some (11%nat, 3)
  /\ 0 < 3
  /\ exists l k,
       seg (LinkedListGenome.store s) (Some (LinkedListGenome.head s)) l None
       /\ NoDup l
       /\ l !! k = Some 11%nat
       /\ (1 <= k)%nat /\ (k + Z.to_nat 3 < List.length l)%nat
       /\ forall j, tag_at (LinkedListGenome.store s) l j = Some (1, 1)
                    <-> (k <= j < k + Z.to_nat 3)%nat.
Proof.
  intros s.
  assert (Py.dict_get 1 (LinkedListGenome.active_TE s) = Some (11%nat, 3))
    as H by (vm_compute; reflexivity).
  split; [exact H|].
  exact (linked_active_te_is_a_run 10
           [Insert_te 2 3; Insert_te 0 2; Copy_te 1 6] 1 11%nat 3 H).
Defined.

(** ** The search loop of [LinkedListGenome.copy_te] *)

Lemma find_te_chain (s : LinkedListGenome.t) (te : Z) :
  forall (l : list nat) (r : option nat) (k i : nat) (pos : Z),
  seg (LinkedListGenome.store s) r l None ->
  (i < k)%nat ->
  (exists tg, tag_at (LinkedListGenome.store s) l i = Some (tg, te)) ->
  (forall j tg t, (j < i)%nat ->
     tag_at (LinkedListGenome.store s) l j = Some (tg, t) -> t <> te) ->
  LinkedListGenome.find_te k te r pos s = (Ret (pos + Z.of_nat i), s).
Proof.
  induction l as [|x l IH]; intros r k i pos Hseg Hik [tg Htag] Hbefore.
  - unfold tag_at, node_at in Htag. by rewrite lookup_nil in Htag.
  - destruct Hseg as (-> & nd & Hx & Hseg). destruct k as [|k]; [lia|].
    simpl. unfold bind at 1. rewrite (get_te_id_Some _ _ _ Hx).
    destruct i as [|i].
    + unfold tag_at, node_at in Htag. simpl in Htag. rewrite Hx in Htag.
      simpl in Htag. injection Htag as _ Hte. rewrite Hte, Z.eqb_refl.
      unfold ret. do 2 f_equal. lia.
    + assert (LinkedListGenome.te_id nd <> te) as Hne.
      { apply (Hbefore 0%nat (LinkedListGenome.te nd)); [lia|].
        unfold tag_at, node_at. simpl. by rewrite Hx. }
      destruct (Z.eqb_spec (LinkedListGenome.te_id nd) te); [done|].
      unfold bind at 1. rewrite (get_next_Some _ _ _ Hx).
      rewrite (IH _ k i (pos + 1) Hseg); [do 2 f_equal; lia | lia | |].
      * by exists tg.
      * intros j tg' t Hj Ht. apply (Hbefore (S j) tg' t); [lia | done].
Qed.

(** The search finds the first node of an active TE. *)
Lemma find_te_active (s : LinkedListGenome.t) (l : list nat) (te : Z)
    (a : nat) (len : Z) (k rounds : nat) :
  linked_inv s l ->
  Py.dict_get te (LinkedListGenome.active_TE s) = Some (a, len) ->
  l !! k = Some a -> (k < rounds)%nat ->
  LinkedListGenome.find_te rounds te (Some (LinkedListGenome.head s)) 0 s
  = (Ret (Z.of_nat k), s).
Proof.
  intros (Hseg & Hnd & Hown) Hget Hk Hr.
  destruct (owned_active _ _ _ _ _ _ _ Hown Hget) as
    (_ & Hpos & k' & Hk1 & Hk2 & Hk' & Hrun).
  assert (k' = k) as -> by (eapply NoDup_lookup; eauto).
  rewrite (find_te_chain s te l _ rounds k 0 Hseg Hr); [done| |].
  - exists 1. apply Hrun. lia.
  - intros j tg t Hj Ht ->.
    destruct Hown as (Hnx & Hact & Htag & Hkind).
    destruct (Hkind _ _ _ Ht) as [->|[[_ ->]|(_ & _ & Hnone)]].
    + destruct (Htag _ _ Ht) as (a' & len' & k'' & Hget' & Hk'' & Hj').
      rewrite Hget in Hget'. injection Hget' as <- <-.
      assert (k'' = k) as -> by (eapply NoDup_lookup; eauto). lia.
    + destruct (Hact _ _ _ Hget) as (? & _). lia.
    + by rewrite Hget in Hnone.
Qed.

(** X17.  [LinkedListGenome.copy_te] adds [offset % length] to the position
    of the TE and does not wrap.  On a genome made with a size of 0 or more
    and used through calls with lengths of 0 or more, for an active TE whose
    first node is at position [k] of the chain: when
    [k + offset % length <= length] the copy is written, the current id
    returned and made active, and the genome grows by the length of the TE;
    otherwise the walk leaves the chain, the call raises [AttributeError]
    and nothing has changed. *)
Theorem linked_copy_te_outcome (n : Z) (ops : list op) (te offset : Z)
    (a : nat) (len : Z) :
  0 <= n -> Forall valid_op ops ->
  let s := snd (run ops (create (G := LinkedListGenome.t) n)) in
  Py.dict_get te (LinkedListGenome.active_TE s) = Some (a, len) ->
  exists l k,
    seg (LinkedListGenome.store s) (Some (LinkedListGenome.head s)) l None
    /\ l !! k = Some a
    /\ if decide (Z.of_nat k + offset `mod` LinkedListGenome.length s
                  <= LinkedListGenome.length s)
       then exists s',
              LinkedListGenome.copy_te te offset s
              = (Ret (Some (LinkedListGenome.next_TE_id s)), s')
              /\ LinkedListGenome.next_TE_id s
                 ∈ Py.dict_keys (LinkedListGenome.active_TE s')
              /\ LinkedListGenome.len s'
                 = (Ret (LinkedListGenome.length s + len), s')
       else LinkedListGenome.copy_te te offset s = (Raise AttributeError, s).
Proof.
  intros Hn Hops s Hget.
  destruct (create_linked_sync n Hn) as [Hsync Hlen].
  destruct (run_linked_sync ops _ n Hops Hsync) as [(l & Hinv & Hl) _];
    [lia|].
  fold s in Hinv, Hl. pose proof Hinv as (Hseg & Hnd & Hown).
  destruct (owned_active _ _ _ _ _ _ _ Hown Hget) as
    (_ & Hpos & k & Hk1 & Hk2 & Hk & Hrun).
  exists l, k. split; [done|]. split; [done|].
  assert (LinkedListGenome.find_te
            (Py.range_len 0 (LinkedListGenome.length s)) te
            (Some (LinkedListGenome.head s)) 0 s
          = (Ret (Z.of_nat k), s)) as Hfind.
  { apply (find_te_active s l te a len); [done..|].
    unfold Py.range_len. lia. }
  assert (0 < LinkedListGenome.length s) as Hlen_s by lia.
  pose proof (Z.mod_pos_bound offset _ Hlen_s) as Hoff.
  set (w := Py.range_len 0
              (Z.of_nat k + offset `mod` LinkedListGenome.length s - 1)).
  assert (LinkedListGenome.copy_te te offset s
          = (do currentNode <- LinkedListGenome.walk w
                                 (Some (LinkedListGenome.head s));
             do _ <- splice currentNode (LinkedListGenome.next_TE_id s) len;
             ret (Some (LinkedListGenome.next_TE_id s))) s) as ->.
  { rewrite copy_te_splice. unfold Py.dict_mem. rewrite Hget. simpl negb.
    cbv iota. unfold bind at 1. rewrite Hfind. unfold bind at 1, Py.mod_.
    destruct (Z.eqb_spec (LinkedListGenome.length s) 0); [lia|].
    reflexivity. }
  pose proof (walk_splice_inv (Some (LinkedListGenome.next_TE_id s)) s l w
                len Hinv) as H.
  destruct (decide (Z.of_nat k + offset `mod` LinkedListGenome.length s
                    <= LinkedListGenome.length s)) as [Hin|Hout].
  - rewrite decide_True in H by (unfold w, Py.range_len; lia).
    destruct H as (s' & l' & Hrun' & Hinv' & _ & Hlen' & _ & Hl' & Hact).
    exists s'. split; [exact Hrun'|]. split.
    + rewrite Hact. simpl. rewrite decide_True by lia.
      apply dict_keys_set_elem. by left.
    + destruct (chain_snoc _ _ Hinv') as (l0' & z' & ->).
      rewrite (len_chain _ _ _ Hinv'). do 2 f_equal.
      rewrite length_app in Hl'. simpl in Hl'. lia.
  - rewrite decide_False in H by (unfold w, Py.range_len; lia).
    exact H.
Qed.

Lemma linked_copy_te_outcome_witness :
  let s := snd (run [Insert_te 1 1; Insert_te 9 1]
                  (create (G := LinkedListGenome.t) 10)) in
  0 <= 10 /\ Forall valid_op [Insert_te 1 1; Insert_te 9 1]
  /\ Py.dict_get 2 (LinkedListGenome.active_TE s) = Some (12%nat, 1)
  /\ exists l k,
       seg (LinkedListGenome.store s) (Some (LinkedListGenome.head s)) l None
       /\ l !! k = Some 12%nat
       /\ if decide (Z.of_nat k + 4 `mod` LinkedListGenome.length s
                     <= LinkedListGenome.length s)
          then exists s',
                 LinkedListGenome.copy_te 2 4 s
                 = (Ret (Some (LinkedListGenome.next_TE_id s)), s')
                 /\ LinkedListGenome.next_TE_id s
                    ∈ Py.dict_keys (LinkedListGenome.active_TE s')
                 /\ LinkedListGenome.len s'
                    = (Ret (LinkedListGenome.length s + 1), s')
          else LinkedListGenome.copy_te 2 4 s = (Raise AttributeError, s).
Proof.
  intros s.
  assert (0 <= 10) as H1 by lia.
  assert (Forall valid_op [Insert_te 1 1; Insert_te 9 1]) as H2
    by (repeat constructor; simpl; lia).
  assert (Py.dict_get 2 (LinkedListGenome.active_TE s) = Some (12%nat, 1))
    as H3 by (vm_compute; reflexivity).
  split; [exact H1|]. split; [exact H2|]. split; [exact H3|].
  exact (linked_copy_te_outcome 10 [Insert_te 1 1; Insert_te 9 1] 2 4
           12%nat 1 H1 H2 H3).
Defined.

(** ** The two classes on the calls they agree on *)










Section linked_shape.
Import LinkedListGenome.
Implicit Types (s : t) (h : list Node) (l : list nat).

Lemma owner_at_tag h h' a :
  tag <$> h' !! a = tag <$> h !! a -> owner_at h' a = owner_at h a.
Proof.
  unfold owner_at, tag.
  destruct (h' !! a), (h !! a); simpl; intros [=]; done.
Qed.

Lemma collide_owner s l p y s_d :
  linked_inv s l -> l !! p = Some y ->
  (do tag <- get_te (Some y);
   if tag =? 1 then do i <- get_te_id (Some y); disable_te i else ret tt) s
  = (Ret tt, s_d) ->
  forall a, owner_at (store s_d) a = owner_at (store s) a.
Proof.
  intros Hinv Hp. pose proof Hinv as (Hseg & _).
  destruct (seg_lookup _ _ _ _ y Hseg) as [ndy Hy];
    [by eapply list_elem_of_lookup_2|].
  unfold bind at 1. rewrite (get_te_Some _ _ _ Hy).
  destruct (Z.eqb_spec (te ndy) 1).
  - unfold bind. rewrite (get_te_id_Some _ _ _ Hy).
    destruct (linked_disable_te_state s l (te_id ndy) Hinv) as
      (h' & Hst & _ & Ho).
    intros Hrun. rewrite Hrun in Hst. simpl in Hst. by subst s_d.
  - by intros [= <-].
Qed.

(** The chain and the owners after the shared part of [insert_te] and
    [copy_te]: the new nodes stand between the places [i] and [i + 1], and
    every node that was there keeps its owner. *)
Lemma splice_shape s l i x y length' :
  linked_inv s l -> l !! i = Some x -> l !! S i = Some y ->
  exists s',
    splice (Some x) (next_TE_id s) length' s = (Ret tt, s')
    /\ spliced s l (S i) length' s'
         (take (S i) l ++ seq (List.length (store s)) (Z.to_nat length')
            ++ drop (S i) l)
    /\ (forall b, (b < List.length (store s))%nat ->
          owner_at (store s') b = owner_at (store s) b)
    /\ (forall j, (j < Z.to_nat length')%nat ->
          owner_at (store s') (List.length (store s) + j) = next_TE_id s).
Proof.
  intros Hinv Hi Hy. pose proof Hinv as (Hseg & Hnd & Hown).
  pose proof (splice_inv _ _ _ _ length' Hinv Hi) as Hsp. rewrite Hy in Hsp.
  destruct Hsp as (s' & l' & Hrun & Hsp).
  destruct (seg_lookup _ _ _ _ x Hseg) as [ndx Hx];
    [by eapply list_elem_of_lookup_2|].
  pose proof (seg_next _ _ _ _ _ _ Hseg Hi Hx) as Hnext. rewrite Hy in Hnext.
  destruct (collide_inv _ _ _ _ Hinv Hy) as
    (s_d & Hrun_d & Hinv_d & Hfree & Hhd_d & Hlen_d & Hnx_d & Hsz_d & Hact_d).
  pose proof (collide_owner _ _ _ _ _ Hinv Hy Hrun_d) as Ho_d.
  destruct Hinv_d as (Hseg_d & _ & Hown_d).
  set (m := Z.to_nat length') in *.
  rewrite <- (take_drop_middle _ _ _ Hi) in Hseg_d, Hnd.
  destruct (write_te_chain (next_TE_id s) length' m s_d 0 x (take i l)
              (drop (S i) l) (Some (head s_d)))
    as (s_w & Hrun_w & Hhd_w & Hlen_w & Hnx_w & Hact_w & Hsz_w & Hold & Hnew
        & Hseg_w); [lia|done|done|].
  rewrite (take_drop_middle _ _ _ Hi) in Hnd.
  set (l'' := take (S i) l ++ seq (List.length (store s)) m ++ drop (S i) l).
  assert (take i l ++ x :: seq (List.length (store s_d)) m ++ drop (S i) l
          = l'') as Hl''.
  { unfold l''. rewrite (take_S_r _ _ _ Hi), <- app_assoc, Hsz_d. done. }
  rewrite Hl'' in Hseg_w.
  assert (s' = mk (store s_w) (head s_w) (length s_w + length')
                  (active_TE s_w) (next_TE_id s_w + 1)) as Hs'.
  { revert Hrun. unfold splice. unfold bind at 1.
    rewrite (get_next_Some _ _ _ Hx), Hnext.
    rewrite <- (bind_assoc (get_te (Some y))
      (fun tag => if tag =? 1
                  then do i <- get_te_id (Some y); disable_te i
                  else ret tt)
      (fun _ => do _ <- write_te (Py.range_len 0 length') 0 (Some x)
                          (next_TE_id s) length';
                bump length') s).
    unfold bind at 1. rewrite Hrun_d. unfold bind at 1.
    unfold Py.range_len. rewrite Z.sub_0_r. fold m. rewrite Hrun_w.
    by intros [= <-]. }
  assert (l' = l'') as ->.
  { destruct Hsp as ((Hseg' & _) & _ & _ & _ & Hl' & _).
    rewrite Hs' in Hseg'. simpl in Hseg'. rewrite Hhd_w in Hseg'.
    apply (seg_inj _ _ _ _ _ _ Hseg' Hseg_w). rewrite Hl'. unfold l''.
    rewrite !length_app, length_take, length_drop, length_seq.
    pose proof (lookup_lt_Some _ _ _ Hy). lia. }
  exists s'. split; [done|]. split; [done|]. rewrite Hs'. simpl. split.
  - intros b Hb. rewrite <- Ho_d. apply owner_at_tag, Hold. by rewrite Hsz_d.
  - intros j Hj. rewrite <- Hsz_d, <- Hnx_d.
    specialize (Hnew j Hj). unfold owner_at.
    destruct (store s_w !! _) as [nd|]; simpl in Hnew; [|done].
    unfold tag in Hnew. injection Hnew as _ Hid. by rewrite Hid, Hnx_d.
Qed.

End linked_shape.















(** ** Position 0 of a [LinkedListGenome] *)

Section linked_head.
Import LinkedListGenome.
Implicit Types (s : t) (h : list Node) (l : list nat).

Lemma head_bound s l :
  linked_inv s l -> (head s < List.length (store s))%nat.
Proof.
  intros (Hseg & _). destruct l as [|a l]; [done|].
  destruct Hseg as ([= <-] & nd & Hnd & _). by eapply lookup_lt_Some.
Qed.

Lemma same_owners_refl s : same_owners s s.
Proof. by split. Qed.

(** The walk and the shared part of [insert_te] and [copy_te] leave the
    head and the owners of the nodes alone. *)
Lemma walk_splice_owner {A} (v : A) s l k length' :
  linked_inv s l ->
  same_owners s
    (snd ((do currentNode <- walk k (Some (head s));
           do _ <- splice currentNode (next_TE_id s) length';
           ret v) s)).
Proof.
  intros Hinv. pose proof Hinv as (Hseg & _).
  pose proof (walk_splice_inv v s l k length' Hinv) as H.
  destruct (decide (S k < List.length l)%nat).
  - destruct (lookup_lt_is_Some_2 l k) as [x Hx]; [lia|].
    destruct (lookup_lt_is_Some_2 l (S k)) as [y Hy]; [lia|].
    destruct (splice_shape s l k x y length' Hinv Hx Hy) as
      (s'' & Hrun & Hsp & Hold & _).
    assert ((do currentNode <- walk k (Some (head s));
             do _ <- splice currentNode (next_TE_id s) length';
             ret v) s = (Ret v, s'')) as ->.
    { unfold bind at 1. rewrite (walk_steps _ _ _ _ Hseg). unfold steps.
      rewrite decide_True by lia. rewrite Hx. unfold bind. by rewrite Hrun. }
    simpl. split; [apply Hsp | exact Hold].
  - rewrite H. apply same_owners_refl.
Qed.

Lemma insert_te_owner s l position length' :
  linked_inv s l -> same_owners s (snd (insert_te position length' s)).
Proof.
  intros Hinv. rewrite insert_te_splice. unfold bind at 1. unfold Py.mod_.
  destruct (length s =? 0); [apply same_owners_refl|].
  unfold ret at 1. cbv beta iota. by apply walk_splice_owner with l.
Qed.

Lemma copy_te_owner s l te offset :
  linked_inv s l -> same_owners s (snd (copy_te te offset s)).
Proof.
  intros Hinv. rewrite copy_te_splice.
  destruct (Py.dict_mem te (active_TE s)) eqn:Hmem; simpl;
    [|apply same_owners_refl].
  apply dict_mem_get in Hmem as [[a len] Hget]. rewrite Hget.
  unfold bind at 1.
  pose proof (linked_reads_same _
    (fun R HR => keeps_find_te R (Py.range_len 0 (length s)) te
                   (Some (head s)) 0) s) as Hfind.
  destruct (find_te _ _ _ _ s) as [[pos|e|] s1]; simpl in Hfind; subst s1;
    [|apply same_owners_refl..].
  unfold bind at 1. unfold Py.mod_.
  destruct (length s =? 0); [apply same_owners_refl|].
  unfold ret at 1. cbv beta iota. by apply walk_splice_owner with l.
Qed.

End linked_head.

Lemma snd_bind_ret {S A B} (m : M S A) (f : A -> B) (s : S) :
  snd ((do a <- m; ret (f a)) s) = snd (m s).
Proof. unfold bind. by destruct (m s) as [[a|e|] s']. Qed.

Lemma call_head_free (o : op) (s : LinkedListGenome.t) :
  linked_wf s -> head_free s -> head_free (snd (call o s)).
Proof.
  intros [l Hinv] Hfree. unfold head_free in *.
  pose proof (head_bound s l Hinv) as Hb.
  destruct o; unfold call;
    cbn [insert_te copy_te disable_te active_tes len str
         LinkedListGenome_Genome].
  - rewrite (snd_bind_ret _ VId).
    destruct (insert_te_owner s l pos length Hinv) as [-> Ho].
    by rewrite Ho.
  - rewrite (snd_bind_ret _
      (fun r => match r with Some id => VId id | None => VNone end)).
    destruct (copy_te_owner s l te offset Hinv) as [-> Ho]. by rewrite Ho.
  - rewrite (snd_bind_ret _ (fun _ => VUnit)).
    destruct (linked_disable_te_state s l te Hinv) as (h' & -> & _ & Ho).
    simpl. by rewrite Ho.
  - by rewrite (linked_reads_same _
      (fun R HR => keeps_bind R _ _ (keeps_active_tes R)
                     (fun a => keeps_ret R (VList a)))).
  - by rewrite (linked_reads_same _
      (fun R HR => keeps_bind R _ _ (keeps_len R)
                     (fun a => keeps_ret R (VInt a)))).
  - by rewrite (linked_reads_same _
      (fun R HR => keeps_bind R _ _ (keeps_str R)
                     (fun a => keeps_ret R (VStr a)))).
Qed.

Lemma run_head_free (ops : list op) (s : LinkedListGenome.t) :
  linked_wf s -> head_free s -> head_free (snd (run ops s)).
Proof.
  revert s. induction ops as [|o ops IH]; intros s Hwf Hfree; simpl; [done|].
  pose proof (call_linked_wf o s Hwf) as Hwf1.
  pose proof (call_head_free o s Hwf Hfree) as Hfree1.
  destruct (call o s) as [res s1]. specialize (IH s1 Hwf1 Hfree1).
  by destruct (run ops s1) as [rs s2].
Qed.

Lemma create_head_free (n : Z) :
  head_free (create (G := LinkedListGenome.t) n).
Proof.
  destruct (init_inv n) as (s & l & Hrun & Hinv & _ & _ & Hact & Hnx).
  simpl. rewrite Hrun. simpl. unfold head_free.
  destruct Hinv as (Hseg & _ & _ & _ & Htagged & Hkind).
  destruct l as [|a l]; [done|].
  destruct Hseg as ([= <-] & nd & Hnd & _).
  assert (tag_at (LinkedListGenome.store s) (LinkedListGenome.head s :: l)
            0%nat
          = Some (LinkedListGenome.te nd, LinkedListGenome.te_id nd)) as Ht
    by (unfold tag_at, node_at; simpl; by rewrite Hnd).
  unfold owner_at. rewrite Hnd.
  destruct (Hkind _ _ _ Ht) as [H1|[[_ H0]|(_ & Hr & _)]].
  - rewrite H1 in Ht. destruct (Htagged _ _ Ht) as (? & ? & ? & Hget & _).
    by rewrite Hact in Hget.
  - done.
  - lia.
Qed.

(** X19.  Position 0 of a [LinkedListGenome] never belongs to a TE: after
    any sequence of calls on a fresh genome, the first position, if there
    is one, is empty, and [__str__] returns one character per position, so a
    rendering that is not empty begins with ['-'].  The head node stands at
    position 0 and [insert_te] and [copy_te] write behind a node. *)
Theorem linked_position_0_is_empty (n : Z) (ops : list op) :
  let s := snd (run ops (create (G := LinkedListGenome.t) n)) in
  exists ps : list position_tag,
    positions (r := Linked) s ps
    /\ str s = (Ret (string_of_list_ascii (map tag_char ps)), s)
    /\ forall p, ps !! 0%nat = Some p -> p = Empty.
Proof.
  intros s.
  assert (linked_wf s) as [l Hinv] by apply run_linked_wf, create_linked_wf.
  assert (head_free s) as Hfree
    by (apply run_head_free; [apply create_linked_wf | apply create_head_free]).
  destruct (chain_snoc _ _ Hinv) as (l0 & z & ->).
  exists (map (linked_position (LinkedListGenome.active_TE s)
                 (LinkedListGenome.store s)) l0).
  split; [exists l0, z; split; [apply Hinv | done]|]. split.
  - simpl. rewrite (str_chain _ _ _ Hinv).
    by rewrite (linked_render_positions _ _ _ Hinv).
  - intros p Hp. rewrite list_lookup_fmap in Hp.
    destruct (l0 !! 0%nat) as [a|] eqn:Ha; [|done]. injection Hp as <-.
    destruct Hinv as (Hseg & _). apply seg_head in Hseg.
    rewrite (lookup_app_l_Some _ _ _ _ Ha) in Hseg. injection Hseg as <-.
    unfold linked_position. unfold head_free in Hfree. by rewrite Hfree.
Qed.

(** ** The rendering after an insertion *)

Lemma slice_index_mod {A} (l : list A) (pos : Z) (a : A) :
  Py.getitem l pos = Some a ->
  Py.slice_index (Z.of_nat (List.length l)) pos
  = Z.to_nat (pos `mod` Z.of_nat (List.length l)).
Proof.
  intros Ha.
  assert (is_Some (Py.getitem l pos)) as Hpos%getitem_is_Some by eauto.
  unfold Py.slice_index. destruct (Z.ltb_spec pos 0).
  - f_equal. rewrite Z.max_r by lia.
    apply (Z.mod_unique pos _ (-1) (pos + Z.of_nat (List.length l))); lia.
  - rewrite Z.min_l by lia. by rewrite Z.mod_small by lia.
Qed.

(** X20.  The rendering of a [ListGenome] after [insert_te(pos, length)] at
    a position that belongs to no active TE, after any sequence of calls on
    a fresh genome.  Where the call returns: the characters in front of
    position [pos % len], then one ['A'] for every new position, then the
    characters from [pos % len] on; no other character changes.  Where the
    call raises, it is with [OverflowError] or [MemoryError] at line 123,
    and the rendering is what it was. *)
Theorem list_insert_te_render (n : Z) (ops : list op) (pos length : Z)
    (a : ListGenome.nucl) :
  let g := snd (run ops (create (G := ListGenome.t) n)) in
  Py.getitem (ListGenome.nucleotide g) pos = Some a ->
  ListGenome.in_active a (ListGenome.active_TE g) = false ->
  let cs := map (ListGenome.char_of (ListGenome.active_TE g))
              (ListGenome.nucleotide g) in
  let p := Z.to_nat
             (pos `mod` Z.of_nat (List.length (ListGenome.nucleotide g))) in
  let r := ListGenome.insert_te pos length g in
  fst (ListGenome.str g) = Ret (string_of_list_ascii cs)
  /\ match fst r with
     | Ret _ =>
         fst (ListGenome.str (snd r))
         = Ret (string_of_list_ascii
                  (take p cs ++ replicate (Z.to_nat length) "A"%char
                     ++ drop p cs))
     | Raise e =>
         at_repeat Contiguous e = true
         /\ fst (ListGenome.str (snd r)) = Ret (string_of_list_ascii cs)
     | Diverge => False
     end.
Proof.
  intros g Ha Hact cs p r. split; [done|].
  assert (list_wf g) as [Hn Hk] by apply list_run_wf, list_create_wf.
  assert (map (ListGenome.char_of
                 (Py.dict_set (ListGenome.te_id g) length
                    (ListGenome.active_TE g)))
            (ListGenome.nucleotide g) = cs) as Hcs.
  { apply list_render_ext. intros i Hi. rewrite dict_mem_set.
    specialize (Hn i Hi). by destruct (Z.eqb_spec (ListGenome.te_id g) i);
      [lia|]. }
  unfold r. destruct (Py.repeat_error length) as [e|] eqn:Hrep.
  - rewrite (list_insert_te_Raise _ _ _ _ _ Ha Hrep). rewrite Hact.
    unfold ListGenome.str, bind, get, ret.
    cbn [fst snd ListGenome.nucleotide ListGenome.active_TE].
    split; [by apply repeat_error_Some in Hrep|].
    by rewrite Hcs.
  - rewrite (list_insert_te_Some _ _ _ _ Ha Hrep). rewrite Hact.
    unfold ListGenome.str, bind, get, ret.
    cbn [fst snd ListGenome.nucleotide ListGenome.active_TE]. do 2 f_equal.
    unfold Py.slice_insert.
    rewrite (slice_index_mod _ _ _ Ha). fold p.
    rewrite !map_app. rewrite <- firstn_map, <- skipn_map.
    rewrite Hcs. do 2 f_equal.
    rewrite (map_const_replicate _ "A"%char).
    + by rewrite length_replicate.
    + intros b ->%elem_of_replicate_inv. simpl.
      by rewrite dict_mem_set, Z.eqb_refl.
Qed.

Lemma list_insert_te_render_witness :
  let g := snd (run [Insert_te 2 3; Disable_te 1]
                  (create (G := ListGenome.t) 10)) in
  Py.getitem (ListGenome.nucleotide g) (-10) = Some (ListGenome.Te 1)
  /\ ListGenome.in_active (ListGenome.Te 1) (ListGenome.active_TE g) = false
  /\ fst (ListGenome.insert_te (-10) 2 g) = Ret 2
  /\ fst (ListGenome.str (snd (ListGenome.insert_te (-10) 2 g)))
     = Ret "--xAAxx--------"%string.
Proof.
  intros g.
  assert (Py.getitem (ListGenome.nucleotide g) (-10)
          = Some (ListGenome.Te 1)) as H1 by (vm_compute; reflexivity).
  assert (ListGenome.in_active (ListGenome.Te 1) (ListGenome.active_TE g)
          = false) as H2 by (vm_compute; reflexivity).
  assert (fst (ListGenome.insert_te (-10) 2 g) = Ret 2) as H3
    by (vm_compute; reflexivity).
  split; [exact H1|]. split; [exact H2|]. split; [exact H3|].
  pose proof (proj2 (list_insert_te_render 10 [Insert_te 2 3; Disable_te 1]
                       (-10) 2 (ListGenome.Te 1) H1 H2)) as H.
  exact H.
Defined.

(** ** The ids of a run *)

Lemma issues_advances {r : realization} {A} (idof : A -> option Z)
    (m : M (carrier r) A) :
  (forall c, issues idof c m) -> advances idof m.
Proof.
  intros H s. specialize (H (counter s) s eq_refl).
  destruct (m s) as [[a|e|] s']; simpl.
  - destruct H as [[Ha Hc]|[Ha Hc]].
    + split; [lia|]. intros a' id [= <-] Hid. rewrite Ha in Hid.
      injection Hid as <-. done.
    + split; [lia|]. intros a' id [= <-] Hid. congruence.
  - split; [lia | done].
  - split; [lia | done].
Qed.

Lemma list_insert_te_advances (pos length : Z) :
  advances (r := Contiguous) Some (ListGenome.insert_te pos length).
Proof.
  intros g. simpl.
  destruct (Py.getitem (ListGenome.nucleotide g) pos) as [a|] eqn:Ha.
  - destruct (Py.repeat_error length) as [e|] eqn:Hrep.
    + rewrite (list_insert_te_Raise _ _ _ _ _ Ha Hrep). simpl.
      split; [lia | done].
    + rewrite (list_insert_te_Some _ _ _ _ Ha Hrep). simpl.
      split; [lia|]. by intros a' id [= <-] [= <-].
  - rewrite (list_insert_te_None _ _ _ Ha). simpl. split; [lia | done].
Qed.

Lemma list_call_advances (o : op) :
  advances (r := Contiguous) id_of (call o).
Proof.
  intros g. destruct o; unfold call;
    cbn [insert_te copy_te disable_te active_tes len str carrier_Genome
         ListGenome_Genome].
  - pose proof (list_insert_te_advances pos length g) as [H1 H2].
    unfold bind. simpl in *.
    destruct (ListGenome.insert_te pos length g) as [[v|e|] g']; simpl in *;
      (split; [done|]); [|done..].
    intros a id [= <-] [= <-]. by apply (H2 v v).
  - unfold ListGenome.copy_te, bind, get, Py.mod_, ret, raise.
    destruct (negb _); [simpl; split; [lia | by intros a id [= <-]]|].
    destruct (Py.index _ _) as [p|]; [|simpl; split; [lia | done]].
    destruct (Py.dict_get _ _) as [len|]; [|simpl; split; [lia | done]].
    destruct (_ =? 0); [simpl; split; [lia | done]|].
    pose proof (list_insert_te_advances
      ((p + offset) `mod` Z.of_nat (List.length (ListGenome.nucleotide g)))
      len g) as [H1 H2]. simpl in *.
    destruct (ListGenome.insert_te _ len g) as [[v|e|] g']; simpl in *;
      (split; [done|]); [|done..].
    intros a id [= <-] [= <-]. by apply (H2 v v).
  - unfold bind, ListGenome.disable_te. simpl.
    destruct (Py.dict_mem _ _); simpl; (split; [lia | by intros a id [= <-]]).
  - simpl. split; [lia | by intros a id [= <-]].
  - simpl. split; [lia | by intros a id [= <-]].
  - simpl. split; [lia | by intros a id [= <-]].
Qed.

Lemma call_advances (r : realization) (o : op) :
  advances (r := r) id_of (call o).
Proof.
  destruct r; [apply list_call_advances|].
  apply issues_advances. intros c. apply call_issues.
Qed.

(** The ids of a run are the values of a counter that only goes up. *)
Lemma advances_run (r : realization) (ops : list op) (g : carrier r) :
  StronglySorted Z.lt (returned_ids (fst (run ops g)))
  /\ Forall (fun id => counter g <= id) (returned_ids (fst (run ops g))).
Proof.
  revert g. induction ops as [|o ops IH]; intros g; simpl.
  { split; constructor. }
  pose proof (call_advances r o g) as [Hle Hid].
  destruct (call o g) as [res g'] eqn:Hcall. simpl in *.
  destruct (IH g') as [Hs Hf]. destruct (run ops g') as [rs g''] eqn:Hrun.
  simpl in *.
  assert (Forall (fun id => counter g <= id) (returned_ids rs)) as Hf'.
  { eapply Forall_impl; [exact Hf|]. simpl. intros; lia. }
  destruct res as [v|e|]; [|done..].
  destruct v; try done. simpl.
  destruct (Hid (VId id) id eq_refl eq_refl) as [-> Hc].
  split; constructor; [done | | lia | done].
  eapply Forall_impl; [exact Hf|]. simpl. intros; lia.
Qed.

(** The object of a [ListGenome] constructor that raised hands out no id. *)
Lemma blank_run (ops : list op) :
  returned_ids (fst (run ops ListGenome.blank)) = [].
Proof.
  induction ops as [|o ops IH]; [done|]. simpl.
  assert (exists res, call o ListGenome.blank = (res, ListGenome.blank)
                      /\ returned_ids [res] = []) as (res & -> & Hres).
  { destruct o; unfold call;
      cbn [insert_te copy_te disable_te active_tes len str
           ListGenome_Genome]; try (eexists; split; reflexivity).
    unfold bind. rewrite list_insert_te_None; [by eexists|].
    destruct (Py.getitem (ListGenome.nucleotide ListGenome.blank) pos)
      as [a|] eqn:Ha; [|done].
    assert (is_Some (Py.getitem (ListGenome.nucleotide ListGenome.blank) pos))
      as H%getitem_is_Some by eauto.
    simpl in H. lia. }
  destruct (run ops ListGenome.blank) as [rs g'']. simpl in *.
  by destruct res as [[]| |].
Qed.

(** X21.  In both classes, over every sequence of calls on a fresh genome,
    the ids that [insert_te] and [copy_te] return are 1 or more and strictly
    increasing, so no id is returned twice, also after its TE is disabled
    and whatever calls raise in between. *)
Theorem returned_ids_increase (r : realization) (n : Z) (ops : list op) :
  let ids := returned_ids (observe (G := carrier r) n ops) in
  StronglySorted Z.lt ids /\ NoDup ids /\ Forall (fun id => 1 <= id) ids.
Proof.
  intros ids. unfold ids, observe.
  destruct (advances_run r ops (create n)) as [Hs Hf].
  split; [done|]. split; [by apply StronglySorted_lt_NoDup|].
  destruct r.
  - change (create (G := carrier Contiguous) n)
      with (snd (ListGenome.init n ListGenome.blank)) in *.
    destruct (Py.repeat_error n) as [e|] eqn:Hrep.
    + rewrite (list_init_Raise _ _ Hrep). simpl snd.
      change (run (G := carrier Contiguous) ops ListGenome.blank)
        with (run (G := ListGenome.t) ops ListGenome.blank).
      rewrite blank_run. constructor.
    + rewrite (list_init_Ret _ Hrep) in *. exact Hf.
  - by rewrite (create_counter n) in Hf.
Qed.
